(** * precogs-ecu: reporting, SBOM export and CVE resolution

    A shallow embedding of the three edge functions of the repository
    ([generate-report], [export-sbom], [fetch-cve]), of the client hooks
    [useGenerateReport] and [useCreateScan] and of the submission of the
    upload page, with the properties stated about them.

    Conventions of the embedding:
    - a JS string is a [string]; a nullable column is an [option];
    - [x || d] on strings is [js_or] / [js_or_opt] (the empty string is
      falsy, like [null]);
    - an object handed to [JSON.stringify] is a [json] tree, and the
      serialiser itself is [JSON_stringify]; a non-integer number read
      from the store and passed through is kept as its literal ([JLit]);
    - [new Date()] / [Date.now()] are explicit parameters;
    - the Postgres tables are lists of rows (or a [gmap] when keyed). *)

From Stdlib Require Import ZArith Lia Ascii String List.
From Stdlib Require Import Floats.SpecFloat.
From stdpp Require Import base list sorting strings pretty gmap.

Set Warnings "-register-all".
Local Open Scope string_scope.

(** ** JavaScript string helpers *)

Module Js.

(** [s || d] for a string [s]: the empty string is falsy. *)
Definition js_or (s d : string) : string :=
  match s with
  | EmptyString => d
  | _ => s
  end.

(** [x || d] for a nullable string. *)
Definition js_or_opt (x : option string) (d : string) : string :=
  match x with
  | Some s => js_or s d
  | None => d
  end.

(** [x ? th(x) : el] for a nullable string [x]. *)
Definition js_cond {A : Type} (x : option string) (th : string → A) (el : A) : A :=
  match x with
  | Some (String a s) => th (String a s)
  | _ => el
  end.

(** [str.replace(/c/g, r)] for a one-character pattern [c]; the
    replacement strings used in the sources contain no [$]. *)
Fixpoint replace_all (c : ascii) (r : string) (s : string) : string :=
  match s with
  | EmptyString => EmptyString
  | String a s' =>
      if Ascii.eqb a c then r +:+ replace_all c r s'
      else String a (replace_all c r s')
  end.

(** [arr.join(sep)] on an array of strings. *)
Fixpoint join (sep : string) (l : list string) : string :=
  match l with
  | [] => ""
  | [x] => x
  | x :: l' => x +:+ sep +:+ join sep l'
  end.

Definition is_upper (a : ascii) : bool :=
  (65 <=? nat_of_ascii a)%nat && (nat_of_ascii a <=? 90)%nat.
Definition is_lower (a : ascii) : bool :=
  (97 <=? nat_of_ascii a)%nat && (nat_of_ascii a <=? 122)%nat.

(** [toLowerCase] / [toUpperCase] on the ASCII range; other bytes are
    kept (the severities handled here are ASCII words). *)
Definition lower_char (a : ascii) : ascii :=
  if is_upper a then ascii_of_nat (nat_of_ascii a + 32) else a.
Definition upper_char (a : ascii) : ascii :=
  if is_lower a then ascii_of_nat (nat_of_ascii a - 32) else a.

Fixpoint map_string (f : ascii → ascii) (s : string) : string :=
  match s with
  | EmptyString => EmptyString
  | String a s' => String (f a) (map_string f s')
  end.

Definition toLowerCase : string → string := map_string lower_char.
Definition toUpperCase : string → string := map_string upper_char.

(** [`${n}`] for an array index. *)
Definition index_string (n : nat) : string := pretty n.

(** The double-quote and line-feed characters, as one-character strings. *)
Definition dq : string := String (ascii_of_nat 34) "".
Definition nl : string := String (ascii_of_nat 10) "".

(** [s.includes(t)]. *)
Fixpoint includes (s t : string) : bool :=
  String.prefix t s ||
  match s with
  | EmptyString => false
  | String _ s' => includes s' t
  end.

(** Number of occurrences of the character [c] in [s]. *)
Fixpoint count_char (c : ascii) (s : string) : nat :=
  match s with
  | EmptyString => 0
  | String a s' => (if Ascii.eqb a c then 1 else 0) + count_char c s'
  end.

End Js.

(** ** JSON values and [JSON.stringify(v, null, 2)] *)

Module Json.

Inductive json : Type :=
  | JNull
  | JBool (b : bool)
  | JNum (z : Z)
  | JLit (lit : string)
  | JStr (s : string)
  | JArr (items : list json)
  | JObj (fields : list (string * json)).

(** Property access [o.k] ([None] for [undefined]). *)
Fixpoint assoc (k : string) (fields : list (string * json)) : option json :=
  match fields with
  | [] => None
  | (k', v) :: rest => if String.eqb k k' then Some v else assoc k rest
  end.

Definition get (k : string) (v : json) : option json :=
  match v with
  | JObj fields => assoc k fields
  | _ => None
  end.

Definition hex_digit (n : nat) : ascii :=
  match n with
  | 0 => "0" | 1 => "1" | 2 => "2" | 3 => "3" | 4 => "4" | 5 => "5"
  | 6 => "6" | 7 => "7" | 8 => "8" | 9 => "9" | 10 => "a" | 11 => "b"
  | 12 => "c" | 13 => "d" | 14 => "e" | _ => "f"
  end%char.

(** QuoteJSONString on one code unit. *)
Definition quote_char (a : ascii) : string :=
  let n := nat_of_ascii a in
  if (n =? 34)%nat then "\" +:+ Js.dq
  else if (n =? 92)%nat then "\\"
  else if (n =? 8)%nat then "\b"
  else if (n =? 12)%nat then "\f"
  else if (n =? 10)%nat then "\n"
  else if (n =? 13)%nat then "\r"
  else if (n =? 9)%nat then "\t"
  else if (n <? 32)%nat then
    "\u00" +:+ String (hex_digit (n / 16)) (String (hex_digit (n mod 16)) "")
  else String a "".

Fixpoint quote_body (s : string) : string :=
  match s with
  | EmptyString => EmptyString
  | String a s' => quote_char a +:+ quote_body s'
  end.

Definition quote (s : string) : string := Js.dq +:+ quote_body s +:+ Js.dq.

(** SerializeJSONProperty with a gap of two spaces; [ind] is the current
    indentation.  No value of the documents built here is [undefined],
    so no property is skipped. *)
Fixpoint stringify_at (ind : string) (v : json) {struct v} : string :=
  match v with
  | JNull => "null"
  | JBool true => "true"
  | JBool false => "false"
  | JNum z => pretty z
  | JLit lit => lit
  | JStr s => quote s
  | JArr [] => "[]"
  | JArr items =>
      let ind' := ind +:+ "  " in
      "[" +:+ Js.nl +:+ ind' +:+
      Js.join ("," +:+ Js.nl +:+ ind') (map (stringify_at ind') items) +:+
      Js.nl +:+ ind +:+ "]"
  | JObj [] => "{}"
  | JObj fields =>
      let ind' := ind +:+ "  " in
      "{" +:+ Js.nl +:+ ind' +:+
      Js.join ("," +:+ Js.nl +:+ ind')
        (map (λ kv, match kv with
                    | (k, x) => quote k +:+ ": " +:+ stringify_at ind' x
                    end) fields) +:+
      Js.nl +:+ ind +:+ "}"
  end.

(** [JSON.stringify(v, null, 2)]. *)
Definition JSON_stringify (v : json) : string := stringify_at "" v.

End Json.

(** ** Rows of the data store *)

Module Scan.
Record t : Type := mk {
  id : string;
  ecu_name : string;
  ecu_type : string;
  version : option string;
  manufacturer : option string;
  architecture : string;
  file_name : string;
  file_hash : option string;
  file_size : option Z;
  status : string;
  created_at : string;
  completed_at : option string;
  risk_score : option Z;
  executive_summary : option string;
}.
End Scan.

Module Comp.
Record t : Type := mk {
  scan_id : string;
  component_name : string;
  version : option string;
  license : option string;
  source_file : option string;
  vulnerabilities : option (list string);
}.
End Comp.

(** The [severity] column is a closed enumeration. *)
Module Severity.
Inductive t : Type := critical | high | medium | low | info.

(** The value as the handlers see it (a string). *)
Definition name (s : t) : string :=
  match s with
  | critical => "critical"
  | high => "high"
  | medium => "medium"
  | low => "low"
  | info => "info"
  end.
End Severity.

Module Vuln.
Record t : Type := mk {
  id : string;
  scan_id : string;
  cve_id : option string;
  cwe_id : option string;
  severity : Severity.t;
  cvss_score : option string;   (* the number, as its literal *)
  title : string;
  description : option string;
  affected_component : option string;
  affected_function : option string;
  code_snippet : option string;
  line_number : option Z;
  detection_method : option string;
  status : string;
  remediation : option string;
  attack_vector : option string;
  impact : option string;
}.
End Vuln.

Module Compliance.
Record t : Type := mk {
  scan_id : string;
  framework : string;
  rule_id : string;
  rule_description : option string;
  status : string;
  details : option string;
}.
End Compliance.

Module Log.
Record t : Type := mk {
  scan_id : string;
  stage : string;
  log_level : string;
  message : string;
  created_at : string;
}.
End Log.

(** The tables read by the handlers, and the two query shapes used on
    them.  A query answers [{ data }]; [data] is [null] ([None]) when the
    query fails, which for [.single()] includes "not exactly one row". *)
Module Store.

Record t : Type := mk {
  scans : list Scan.t;
  vulnerabilities : list Vuln.t;
  compliance_results : list Compliance.t;
  sbom_components : list Comp.t;
  analysis_logs : list Log.t;
}.

(** [.select('*').eq(col, v)] *)
Definition select_eq {R : Type} (col : R → string) (v : string) (rows : list R)
  : option (list R) :=
  Some (filter (λ r, col r = v) rows).

(** [.select('*').eq(col, v).single()] *)
Definition select_single {R : Type} (col : R → string) (v : string) (rows : list R)
  : option R :=
  match filter (λ r, col r = v) rows with
  | [r] => Some r
  | _ => None
  end.

End Store.

(** An HTTP response: a status and either a value sent through the compact
    [JSON.stringify(v)], or a text with its content type; [filename] is
    the name given in the [Content-Disposition] header, when there is one. *)
Module Http.

Inductive body : Type :=
  | JsonBody (v : Json.json)
  | TextBody (content_type : string) (text : string).

Record response : Type := mk {
  status : nat;
  payload : body;
  filename : option string;
}.

Definition json_response (st : nat) (v : Json.json) : response :=
  mk st (JsonBody v) None.

Definition error_response (st : nat) (msg : string) : response :=
  json_response st (Json.JObj [("error", Json.JStr msg)]).

End Http.

(** ** The [export-sbom] edge function *)

Module ExportSbom.
Import Js Json.

(** The five global replacements of [escapeXml], chained in the order
    of the source (the innermost is applied first). *)
Definition replacements (s : string) : string :=
  replace_all "'" "&apos;"
    (replace_all (ascii_of_nat 34) "&quot;"
      (replace_all ">" "&gt;"
        (replace_all "<" "&lt;"
          (replace_all "&" "&amp;" s)))).

(** [escapeXml]: a falsy argument gives the empty string. *)
Definition escapeXml (str : option string) : string :=
  match str with
  | None => ""
  | Some "" => ""
  | Some s => replacements s
  end.

(** *** CycloneDX *)

Definition cyclonedx_component (index : nat) (comp : Comp.t) : json :=
  JObj [
    ("type", JStr "library");
    ("bom-ref", JStr ("component-" +:+ index_string index));
    ("name", JStr (Comp.component_name comp));
    ("version", JStr (js_or_opt (Comp.version comp) "unknown"));
    ("licenses",
      js_cond (Comp.license comp)
        (λ l, JArr [JObj [("license", JObj [("id", JStr l)])]])
        (JArr []));
    ("purl", JStr ("pkg:generic/" +:+ Comp.component_name comp +:+ "@" +:+
                   js_or_opt (Comp.version comp) "unknown"));
    ("properties",
      JArr [JObj [("name", JStr "source_file");
                  ("value", JStr (js_or_opt (Comp.source_file comp) "unknown"))]])
  ].

Definition cyclonedx_vulnerability (compIndex : nat) (cve : string) : json :=
  JObj [
    ("id", JStr cve);
    ("source", JObj [("name", JStr "NVD");
                     ("url", JStr ("https://nvd.nist.gov/vuln/detail/" +:+ cve))]);
    ("affects", JArr [JObj [("ref", JStr ("component-" +:+ index_string compIndex))]])
  ].

(** [comp.vulnerabilities as string[] || []]. *)
Definition vulns_of (comp : Comp.t) : list string :=
  default [] (Comp.vulnerabilities comp).

(** The object literal [cyclonedx]; [now] is [new Date().toISOString()]. *)
Definition cyclonedx_doc (now : string) (scan : Scan.t) (components : list Comp.t) : json :=
  JObj [
    ("bomFormat", JStr "CycloneDX");
    ("specVersion", JStr "1.5");
    ("serialNumber", JStr ("urn:uuid:" +:+ Scan.id scan));
    ("version", JNum 1);
    ("metadata", JObj [
      ("timestamp", JStr now);
      ("tools", JArr [JObj [("vendor", JStr "ECU Security Scanner");
                            ("name", JStr "Automotive Firmware Analyzer");
                            ("version", JStr "1.0.0")]]);
      ("component", JObj [
        ("type", JStr "firmware");
        ("name", JStr (Scan.ecu_name scan));
        ("version", JStr (js_or_opt (Scan.version scan) "unknown"));
        ("description", JStr (Scan.ecu_type scan +:+ " ECU from " +:+
                              js_or_opt (Scan.manufacturer scan) "Unknown"));
        ("properties", JArr [
          JObj [("name", JStr "architecture"); ("value", JStr (Scan.architecture scan))];
          JObj [("name", JStr "manufacturer");
                ("value", JStr (js_or_opt (Scan.manufacturer scan) "Unknown"))]])])]);
    ("components", JArr (imap cyclonedx_component components));
    ("vulnerabilities",
      JArr (concat (imap (λ compIndex comp,
                            map (cyclonedx_vulnerability compIndex) (vulns_of comp))
                         components)))
  ].

Definition generateCycloneDX (now : string) (scan : Scan.t) (components : list Comp.t) : string :=
  JSON_stringify (cyclonedx_doc now scan components).

(** *** SPDX *)

Definition spdx_external_ref (cve : string) : json :=
  JObj [("referenceCategory", JStr "SECURITY");
        ("referenceType", JStr "cpe23Type");
        ("referenceLocator", JStr cve)].

Definition spdx_root_package (scan : Scan.t) : json :=
  JObj [
    ("SPDXID", JStr "SPDXRef-RootPackage");
    ("name", JStr (Scan.ecu_name scan));
    ("versionInfo", JStr (js_or_opt (Scan.version scan) "unknown"));
    ("packageFileName", JStr (Scan.file_name scan));
    ("downloadLocation", JStr "NOASSERTION");
    ("filesAnalyzed", JBool false);
    ("supplier",
      JStr (js_cond (Scan.manufacturer scan)
              (λ m, "Organization: " +:+ m) "NOASSERTION"));
    ("primaryPackagePurpose", JStr "FIRMWARE")
  ].

Definition spdx_package (index : nat) (comp : Comp.t) : json :=
  JObj [
    ("SPDXID", JStr ("SPDXRef-Package-" +:+ index_string index));
    ("name", JStr (Comp.component_name comp));
    ("versionInfo", JStr (js_or_opt (Comp.version comp) "NOASSERTION"));
    ("downloadLocation", JStr "NOASSERTION");
    ("filesAnalyzed", JBool false);
    ("licenseConcluded", JStr (js_or_opt (Comp.license comp) "NOASSERTION"));
    ("licenseDeclared", JStr (js_or_opt (Comp.license comp) "NOASSERTION"));
    ("copyrightText", JStr "NOASSERTION");
    ("externalRefs", JArr (map spdx_external_ref (vulns_of comp)))
  ].

Definition spdx_relationship (index : nat) (comp : Comp.t) : json :=
  JObj [("spdxElementId", JStr "SPDXRef-RootPackage");
        ("relationshipType", JStr "CONTAINS");
        ("relatedSpdxElement", JStr ("SPDXRef-Package-" +:+ index_string index))].

Definition spdx_doc (now : string) (scan : Scan.t) (components : list Comp.t) : json :=
  JObj [
    ("spdxVersion", JStr "SPDX-2.3");
    ("dataLicense", JStr "CC0-1.0");
    ("SPDXID", JStr "SPDXRef-DOCUMENT");
    ("name", JStr ("SBOM for " +:+ Scan.ecu_name scan));
    ("documentNamespace", JStr ("https://spdx.org/spdxdocs/" +:+ Scan.id scan));
    ("creationInfo", JObj [
      ("created", JStr now);
      ("creators", JArr [JStr "Tool: ECU Security Scanner-1.0.0"]);
      ("licenseListVersion", JStr "3.19")]);
    ("packages", JArr (spdx_root_package scan :: imap spdx_package components));
    ("relationships", JArr (imap spdx_relationship components))
  ].

Definition generateSPDX (now : string) (scan : Scan.t) (components : list Comp.t) : string :=
  JSON_stringify (spdx_doc now scan components).

(** *** SWID *)

(** A quoted attribute value. *)
Definition q (s : string) : string := dq +:+ s +:+ dq.

(** [entities] and [payloads] are computed by the source and not used in
    the document it returns. *)
Definition swid_entities (components : list Comp.t) : string :=
  join nl (map (λ comp,
    "    <Entity name=" +:+ q (escapeXml (Some (Comp.component_name comp))) +:+
    " role=" +:+ q "softwareCreator" +:+ " />") components).

Definition swid_payloads (components : list Comp.t) : string :=
  join "" (map (λ comp,
    nl +:+ "    <Payload>" +:+ nl +:+
    "      <File name=" +:+
      q (escapeXml (Some (js_or_opt (Comp.source_file comp) (Comp.component_name comp)))) +:+
      " " +:+ nl +:+
    "            version=" +:+ q (escapeXml (Some (js_or_opt (Comp.version comp) "unknown"))) +:+ nl +:+
    "            size=" +:+ q "0" +:+ " />" +:+ nl +:+
    "    </Payload>") components).

Definition swid_file (comp : Comp.t) : string :=
  "      <File name=" +:+ q (escapeXml (Some (Comp.component_name comp))) +:+
  " version=" +:+ q (escapeXml (Some (js_or_opt (Comp.version comp) "unknown"))) +:+
  " />".

(** The template literal [swid], with its holes. *)
Definition swid_template
    (name tagId version manufacturer colloquialVersion revision edition : string)
    (files : list string) : string :=
  join nl [
    "<?xml version=" +:+ q "1.0" +:+ " encoding=" +:+ q "UTF-8" +:+ "?>";
    "<SoftwareIdentity";
    "    xmlns=" +:+ q "http://standards.iso.org/iso/19770/-2/2015/schema.xsd";
    "    name=" +:+ q name;
    "    tagId=" +:+ q tagId;
    "    version=" +:+ q version;
    "    versionScheme=" +:+ q "semver" +:+ ">";
    "  ";
    "  <Entity name=" +:+ q manufacturer +:+ " role=" +:+ q "tagCreator" +:+ " />";
    "  <Entity name=" +:+ q "ECU Security Scanner" +:+ " role=" +:+ q "tagCreator" +:+ " />";
    "  ";
    "  <Meta ";
    "    product=" +:+ q name;
    "    colloquialVersion=" +:+ q colloquialVersion;
    "    revision=" +:+ q revision;
    "    edition=" +:+ q edition +:+ " />";
    "";
    "  <Payload>";
    "    <Directory name=" +:+ q "components" +:+ ">";
    join nl files;
    "    </Directory>";
    "  </Payload>";
    "";
    "</SoftwareIdentity>"
  ].

Definition generateSWID (scan : Scan.t) (components : list Comp.t) : string :=
  swid_template
    (escapeXml (Some (Scan.ecu_name scan)))
    (Scan.id scan)
    (escapeXml (Some (js_or_opt (Scan.version scan) "1.0.0")))
    (escapeXml (Some (js_or_opt (Scan.manufacturer scan) "Unknown")))
    (escapeXml (Some (js_or_opt (Scan.version scan) "unknown")))
    (js_or (Scan.architecture scan) "unknown")
    (escapeXml (Some (Scan.ecu_type scan)))
    (map swid_file components).

(** *** The handler *)

Record ExportRequest : Type := mkReq { scanId : string; format : string }.

(** The body of [serve], after the two queries have answered [scan] and
    [components]. *)
Definition respond (now : string) (scan : option Scan.t)
    (components : option (list Comp.t)) (fmt : string) : Http.response :=
  match scan, components with
  | Some scan, Some components =>
      let envelope (exportData contentType filename : string) :=
        Http.json_response 200
          (JObj [("data", JStr exportData);
                 ("filename", JStr filename);
                 ("contentType", JStr contentType)]) in
      if String.eqb fmt "cyclonedx" then
        envelope (generateCycloneDX now scan components) "application/json"
                 (Scan.ecu_name scan +:+ "-sbom-cyclonedx.json")
      else if String.eqb fmt "spdx" then
        envelope (generateSPDX now scan components) "application/json"
                 (Scan.ecu_name scan +:+ "-sbom-spdx.json")
      else if String.eqb fmt "swid" then
        envelope (generateSWID scan components) "application/xml"
                 (Scan.ecu_name scan +:+ "-sbom-swid.xml")
      else
        Http.error_response 400 "Invalid format. Use: cyclonedx, spdx, or swid"
  | _, _ => Http.error_response 404 "Scan or components not found"
  end.

Definition serve (now : string) (db : Store.t) (req : ExportRequest) : Http.response :=
  let scan := Store.select_single Scan.id (scanId req) (Store.scans db) in
  let components := Store.select_eq Comp.scan_id (scanId req) (Store.sbom_components db) in
  respond now scan components (format req).

End ExportSbom.

(** ** The [fetch-cve] edge function *)

Module FetchCve.
Import Js Json.

(** A row of [cve_cache], which is also the shape of [cveData].
    [fetched_at] is the instant in milliseconds since the epoch (what
    [new Date(fetched_at).getTime()] reads back); an absent [severity] or
    [cvss_score] is [None]. *)
Record RefLink : Type := mkRef {
  url : option string;
  source : option string;
  tags : option (list string);
}.

Record CveEntry : Type := mkEntry {
  cve_id : string;
  description : string;
  cvss_score : option string;
  severity : option string;
  published_date : option string;
  modified_date : option string;
  reference_links : list RefLink;
  cwe_ids : list string;
  affected_products : json;
  fetched_at : Z;
}.

(** The part of an NVD 2.0 answer that the handler reads.  A metric is
    [{ cvssData: { baseScore, baseSeverity }, baseSeverity }]; a score is
    kept as its literal. *)
Record Metric : Type := mkMetric {
  cvssData_baseScore : option string;
  cvssData_baseSeverity : option string;
  baseSeverity : option string;
}.

Record Metrics : Type := mkMetrics {
  cvssMetricV31 : option (list Metric);
  cvssMetricV2 : option (list Metric);
}.

Record LangString : Type := mkLang { lang : string; value : option string }.

Record Weakness : Type := mkWeakness { w_description : option (list LangString) }.

Record Cve : Type := mkCve {
  metrics : option Metrics;
  weaknesses : option (list Weakness);
  references : option (list RefLink);
  descriptions : option (list LangString);
  published : option string;
  lastModified : option string;
  configurations : option json;
}.

Record VulnItem : Type := mkItem { cve : option Cve }.

Record NvdData : Type := mkNvd { vulnerabilities : option (list VulnItem) }.

(** What [fetch] does: it rejects (transport error), or resolves to a
    response with a status, whose body parses as JSON ([inl]) or makes
    [json()] throw ([inr], with the error message). *)
Inductive FetchResult : Type :=
  | Rejected (message : string)
  | Resolved (status : nat) (body : NvdData + string).

Definition ok (status : nat) : bool := (200 <=? status)%nat && (status <=? 299)%nat.

(** The handler's answer: the entry (status 200) or an error. *)
Inductive Answer : Type :=
  | Entry (e : CveEntry)
  | Error (status : nat) (message : string).

(** What one invocation did: the answer, the cache afterwards, and the
    URLs it fetched. *)
Record Outcome : Type := mkOutcome {
  answer : Answer;
  cache_after : gmap string CveEntry;
  fetched : list string;
}.

Definition oneDayMs : Z := 24 * 60 * 60 * 1000.

Definition nvd_url (cveId : string) : string :=
  "https://services.nvd.nist.gov/rest/json/cves/2.0?cveId=" +:+ cveId.

(** [xs?.[0]] *)
Definition first {A : Type} (xs : option (list A)) : option A :=
  match xs with
  | Some (x :: _) => Some x
  | _ => None
  end.

(** The CVSS score and severity: v3.1 first, then v2. *)
Definition extract_cvss (c : Cve) : option string * option string :=
  match first (metrics c ≫= cvssMetricV31) with
  | Some m => (cvssData_baseScore m, cvssData_baseSeverity m)
  | None =>
      match first (metrics c ≫= cvssMetricV2) with
      | Some m => (cvssData_baseScore m, baseSeverity m)
      | None => (None, None)
      end
  end.

(** [ws.flatMap(w => w.description?.map(d => d.value))]: a weakness
    without descriptions contributes one [undefined]. *)
Definition weakness_values (ws : list Weakness) : list (option string) :=
  concat (map (λ w, match w_description w with
                    | Some ds => map value ds
                    | None => [None]
                    end) ws).

(** [.filter(Boolean)] on an array of strings and [undefined]s. *)
Fixpoint filter_Boolean (l : list (option string)) : list string :=
  match l with
  | [] => []
  | Some (String a s) :: l' => String a s :: filter_Boolean l'
  | _ :: l' => filter_Boolean l'
  end.

Definition extract_cwe_ids (c : Cve) : list string :=
  match weaknesses c with
  | Some ws => filter_Boolean (weakness_values ws)
  | None => []
  end.

Definition extract_references (c : Cve) : list RefLink :=
  match references c with
  | Some refs => map (λ ref, mkRef (url ref) (source ref) (tags ref)) refs
  | None => []
  end.

(** [ds?.find(d => d.lang === 'en')?.value || ''] *)
Definition extract_description (c : Cve) : string :=
  match descriptions c with
  | Some ds =>
      match List.find (λ d, String.eqb (lang d) "en") ds with
      | Some d => js_or_opt (value d) ""
      | None => ""
      end
  | None => ""
  end.

(** [x || d] for a JSON value: [null], [false], [0] and the empty string
    are falsy, like an absent value (a number kept as its literal is not
    an integer, so not 0). *)
Definition js_or_json (x : option json) (d : json) : json :=
  match x with
  | None | Some JNull | Some (JBool false) | Some (JNum 0%Z) | Some (JStr "") => d
  | Some v => v
  end.

(** The object literal [cveData].  [severity?.toLowerCase()] is
    [undefined] when no severity was found: the property is then absent. *)
Definition build_entry (now : Z) (cveId : string) (c : Cve) : CveEntry :=
  let '(cvssScore, severity) := extract_cvss c in
  {| cve_id := cveId;
     description := extract_description c;
     cvss_score := cvssScore;
     severity := toLowerCase <$> severity;
     published_date := published c;
     modified_date := lastModified c;
     reference_links := extract_references c;
     cwe_ids := extract_cwe_ids c;
     affected_products := js_or_json (configurations c) (JArr []);
     fetched_at := now |}.

(** The cache check: the cached entry, when it is there and younger than
    a day. *)
Definition fresh_entry (now : Z) (cache : gmap string CveEntry) (cveId : string)
  : option CveEntry :=
  match cache !! cveId with
  | Some e => if (now - fetched_at e <? oneDayMs)%Z then Some e else None
  | None => None
  end.

(** The handler.  [now] is [Date.now()] at the cache check and [later]
    is [new Date()] when [cveData] is built; [cache] is the [cve_cache]
    table and [nvd] the upstream registry seen through [fetch].  An
    exception is caught by the handler and answered with status 500. *)
Definition serve (now later : Z) (cache : gmap string CveEntry)
    (nvd : string → FetchResult) (cveId : option string) : Outcome :=
  match cveId with
  | None | Some "" => mkOutcome (Error 400 "CVE ID required") cache []
  | Some cveId =>
      let cached := cache !! cveId in
      match fresh_entry now cache cveId with
      | Some e => mkOutcome (Entry e) cache []
      | None =>
          let calls := [nvd_url cveId] in
          match nvd (nvd_url cveId) with
          | Rejected message => mkOutcome (Error 500 message) cache calls
          | Resolved status body =>
              if negb (ok status) then
                match cached with
                | Some e => mkOutcome (Entry e) cache calls
                | None => mkOutcome (Error 502 "Failed to fetch from NVD") cache calls
                end
              else
                match body with
                | inr message => mkOutcome (Error 500 message) cache calls
                | inl nvdData =>
                    match first (vulnerabilities nvdData) ≫= cve with
                    | None => mkOutcome (Error 404 "CVE not found") cache calls
                    | Some c =>
                        let cveData := build_entry later cveId c in
                        mkOutcome (Entry cveData) (<[cveId := cveData]> cache) calls
                    end
                end
          end
      end
  end.

End FetchCve.

(** ** IEEE 754 binary64 arithmetic, as used by the score *)

Module Number.

Definition prec : Z := 53.
Definition emax : Z := 1024.

(** The Number whose value is the integer [n]. *)
Definition of_Z (n : Z) : spec_float := binary_normalize prec emax n 0 false.
Definition of_nat (n : nat) : spec_float := of_Z (Z.of_nat n).

(** [x / y] and [x * y] *)
Definition div : spec_float → spec_float → spec_float := SFdiv prec emax.
Definition mul : spec_float → spec_float → spec_float := SFmul prec emax.

(** [Math.round(x)]: the integer [floor(x + 1/2)], computed exactly;
    [None] stands for [NaN] and the infinities. *)
Definition Math_round (x : spec_float) : option Z :=
  match x with
  | S754_zero _ => Some 0%Z
  | S754_finite s m e =>
      let n := if s then Zneg m else Zpos m in
      Some (if (e <? 0)%Z then (2 * n + 2 ^ (- e)) `div` 2 ^ (- e + 1)
            else n * 2 ^ e)%Z
  | _ => None
  end.

(** The notions in which the accuracy of the operations is stated. *)

(** A normal 53-bit mantissa. *)
Definition normal (m : positive) : Prop := (2 ^ 52 ≤ Z.pos m < 2 ^ 53)%Z.

(** The position of [N / D] between two consecutive integers. *)
Definition loc_of (N D : Z) : location :=
  if (N mod D =? 0)%Z then loc_Exact else loc_Inexact (2 * (N mod D) ?= D)%Z.

(** A shift record that holds the integer part and the position of [N / D]. *)
Definition tracks (mrs : shr_record) (N D : Z) : Prop :=
  shr_m mrs = (N / D)%Z ∧ loc_of_shr_record mrs = loc_of N D.

End Number.

(** ** The [generate-report] edge function *)

Module GenerateReport.
Import Js Json.

(** Modelled from the spec: the ordinal of a severity in the store, whose
    schema is not part of the sources.  The spec asks for a deterministic
    total order on the five severities, with ordinals 0..4 ascending. *)
Definition ordinal (s : Severity.t) : nat :=
  match s with
  | Severity.critical => 0
  | Severity.high => 1
  | Severity.medium => 2
  | Severity.low => 3
  | Severity.info => 4
  end.

Definition severity_le (a b : Vuln.t) : Prop :=
  (ordinal (Vuln.severity a) ≤ ordinal (Vuln.severity b))%nat.

#[global] Instance severity_le_dec (a b : Vuln.t) : Decision (severity_le a b) :=
  decide (ordinal (Vuln.severity a) ≤ ordinal (Vuln.severity b))%nat.

(** Modelled from the spec: the store's [ORDER BY severity ASC], rows in
    ascending ordinal. *)
Definition order_by_severity (rows : list Vuln.t) : list Vuln.t :=
  merge_sort severity_le rows.

(** Modelled from the spec: the store's [ORDER BY created_at ASC] on the
    logs, the timestamps compared as ISO texts. *)
Definition created_le (a b : Log.t) : Prop :=
  Is_true (String.leb (Log.created_at a) (Log.created_at b)).

#[global] Instance created_le_dec (a b : Log.t) : Decision (created_le a b) :=
  decide (Is_true (String.leb (Log.created_at a) (Log.created_at b))).

Definition order_by_created_at (rows : list Log.t) : list Log.t :=
  merge_sort created_le rows.

(** JSON images of nullable columns.  An integer column is taken below
    2^53 in absolute value, where a Number holds it exactly. *)
Definition jstr (x : option string) : json :=
  match x with Some s => JStr s | None => JNull end.
Definition jint (x : option Z) : json :=
  match x with Some z => JNum z | None => JNull end.
Definition jlit (x : option string) : json :=
  match x with Some l => JLit l | None => JNull end.

(** A property whose value may be [undefined] is left out by
    [JSON.stringify]. *)
Definition opt_field (k : string) (x : option json) : list (string * json) :=
  match x with Some v => [(k, v)] | None => [] end.

(** [rows?.filter(p).length || 0] *)
Definition count_where {R : Type} (p : R → bool) (rows : option (list R)) : nat :=
  match rows with
  | Some l => length (List.filter p l)
  | None => 0
  end.

(** [rows?.length || 0] *)
Definition length_or_0 {R : Type} (rows : option (list R)) : nat :=
  match rows with
  | Some l => length l
  | None => 0
  end.

Definition has_severity (s : string) (v : Vuln.t) : bool :=
  String.eqb (Severity.name (Vuln.severity v)) s.

Definition has_status (s : string) (c : Compliance.t) : bool :=
  String.eqb (Compliance.status c) s.

(** The compliance score, on the three counts.  The counts are array
    lengths, so their sum is exact; the quotient and the product are
    binary64 operations.  [None] is a non-finite result. *)
Definition compliance_score (pass fail warning : nat) : option Z :=
  if (0 <? pass + fail + warning)%nat
  then Number.Math_round
         (Number.mul
            (Number.div (Number.of_nat pass) (Number.of_nat (pass + fail + warning)))
            (Number.of_nat 100))
  else Some 0%Z.

(** A number in a JSON document: a non-finite one is written [null]. *)
Definition jscore (x : option Z) : json :=
  match x with Some z => JNum z | None => JNull end.

Definition scan_json (scan : Scan.t) : json :=
  JObj [
    ("id", JStr (Scan.id scan));
    ("ecu_name", JStr (Scan.ecu_name scan));
    ("ecu_type", JStr (Scan.ecu_type scan));
    ("version", jstr (Scan.version scan));
    ("manufacturer", jstr (Scan.manufacturer scan));
    ("architecture", JStr (Scan.architecture scan));
    ("file_name", JStr (Scan.file_name scan));
    ("file_hash", jstr (Scan.file_hash scan));
    ("file_size", jint (Scan.file_size scan));
    ("status", JStr (Scan.status scan));
    ("created_at", JStr (Scan.created_at scan));
    ("completed_at", jstr (Scan.completed_at scan));
    ("risk_score", jint (Scan.risk_score scan));
    ("executive_summary", jstr (Scan.executive_summary scan))
  ].

Definition vulnerability_json (v : Vuln.t) : json :=
  JObj [
    ("id", JStr (Vuln.id v));
    ("cve_id", jstr (Vuln.cve_id v));
    ("cwe_id", jstr (Vuln.cwe_id v));
    ("severity", JStr (Severity.name (Vuln.severity v)));
    ("cvss_score", jlit (Vuln.cvss_score v));
    ("title", JStr (Vuln.title v));
    ("description", jstr (Vuln.description v));
    ("affected_component", jstr (Vuln.affected_component v));
    ("affected_function", jstr (Vuln.affected_function v));
    ("code_snippet", jstr (Vuln.code_snippet v));
    ("line_number", jint (Vuln.line_number v));
    ("detection_method", jstr (Vuln.detection_method v));
    ("status", JStr (Vuln.status v));
    ("remediation", jstr (Vuln.remediation v));
    ("attack_vector", jstr (Vuln.attack_vector v));
    ("impact", jstr (Vuln.impact v))
  ].

Definition compliance_json (c : Compliance.t) : json :=
  JObj [
    ("framework", JStr (Compliance.framework c));
    ("rule_id", JStr (Compliance.rule_id c));
    ("rule_description", jstr (Compliance.rule_description c));
    ("status", JStr (Compliance.status c));
    ("details", jstr (Compliance.details c))
  ].

Definition sbom_json (s : Comp.t) : json :=
  JObj [
    ("component_name", JStr (Comp.component_name s));
    ("version", jstr (Comp.version s));
    ("license", jstr (Comp.license s));
    ("source_file", jstr (Comp.source_file s));
    ("vulnerabilities",
      match Comp.vulnerabilities s with
      | Some l => JArr (map JStr l)
      | None => JNull
      end)
  ].

Definition log_json (l : Log.t) : json :=
  JObj [
    ("stage", JStr (Log.stage l));
    ("level", JStr (Log.log_level l));
    ("message", JStr (Log.message l));
    ("timestamp", JStr (Log.created_at l))
  ].

(** The query results an invocation works on. *)
Record Findings : Type := mkFindings {
  vulnerabilities : option (list Vuln.t);
  complianceResults : option (list Compliance.t);
  sbomComponents : option (list Comp.t);
  analysisLogs : option (list Log.t);
}.

Definition pass_count (d : Findings) : nat := count_where (has_status "pass") (complianceResults d).
Definition fail_count (d : Findings) : nat := count_where (has_status "fail") (complianceResults d).
Definition warning_count (d : Findings) : nat := count_where (has_status "warning") (complianceResults d).

Definition summary_score (d : Findings) : option Z :=
  compliance_score (pass_count d) (fail_count d) (warning_count d).

Definition vulnStats (d : Findings) : json :=
  JObj [
    ("critical", JNum (Z.of_nat (count_where (has_severity "critical") (vulnerabilities d))));
    ("high", JNum (Z.of_nat (count_where (has_severity "high") (vulnerabilities d))));
    ("medium", JNum (Z.of_nat (count_where (has_severity "medium") (vulnerabilities d))));
    ("low", JNum (Z.of_nat (count_where (has_severity "low") (vulnerabilities d))));
    ("info", JNum (Z.of_nat (count_where (has_severity "info") (vulnerabilities d))))
  ].

Definition complianceStats (d : Findings) : json :=
  JObj [
    ("pass", JNum (Z.of_nat (pass_count d)));
    ("fail", JNum (Z.of_nat (fail_count d)));
    ("warning", JNum (Z.of_nat (warning_count d)))
  ].

Definition summary (d : Findings) : json :=
  JObj [
    ("total_vulnerabilities", JNum (Z.of_nat (length_or_0 (vulnerabilities d))));
    ("vulnerability_breakdown", vulnStats d);
    ("compliance_breakdown", complianceStats d);
    ("compliance_score", jscore (summary_score d));
    ("sbom_components_count", JNum (Z.of_nat (length_or_0 (sbomComponents d))))
  ].

(** The object literal [report]; [now_iso] is [new Date().toISOString()]. *)
Definition report (now_iso : string) (scan : Scan.t) (d : Findings) : json :=
  JObj ([
    ("generated_at", JStr now_iso);
    ("scan", scan_json scan);
    ("summary", summary d)
  ] ++ opt_field "vulnerabilities" (JArr ∘ map vulnerability_json <$> vulnerabilities d)
    ++ opt_field "compliance_results" (JArr ∘ map compliance_json <$> complianceResults d)
    ++ opt_field "sbom" (JArr ∘ map sbom_json <$> sbomComponents d)
    ++ opt_field "analysis_timeline" (JArr ∘ map log_json <$> analysisLogs d)).

(** *** The markdown rendering *)

(** [`${n || 'N/A'}`] for a nullable integer: 0 is falsy. *)
Definition int_or (x : option Z) (d : string) : string :=
  match x with
  | Some 0%Z | None => d
  | Some z => pretty z
  end.

(** [`${x || 'N/A'}`] for a nullable number kept as its literal. *)
Definition lit_or (x : option string) (d : string) : string :=
  match x with
  | Some l => if String.eqb l "0" then d else js_or l d
  | None => d
  end.

(** [`${score}`] *)
Definition score_string (x : option Z) : string :=
  match x with Some z => pretty z | None => "NaN" end.

Definition code_block (snippet : string) : string :=
  "**Code Snippet:**" +:+ nl +:+ "```c" +:+ nl +:+ snippet +:+ nl +:+ "```".

(** The section of one vulnerability; [i] is its index in the list. *)
Definition vulnerability_section (i : nat) (v : Vuln.t) : string :=
  join nl [
    "";
    "### " +:+ pretty (i + 1)%nat +:+ ". " +:+ Vuln.title v;
    "";
    "- **Severity:** " +:+ toUpperCase (Severity.name (Vuln.severity v));
    "- **CVE:** " +:+ js_or_opt (Vuln.cve_id v) "N/A";
    "- **CWE:** " +:+ js_or_opt (Vuln.cwe_id v) "N/A";
    "- **CVSS Score:** " +:+ lit_or (Vuln.cvss_score v) "N/A";
    "- **Component:** " +:+ js_or_opt (Vuln.affected_component v) "N/A";
    "- **Function:** " +:+ js_or_opt (Vuln.affected_function v) "N/A";
    "- **Detection Method:** " +:+ js_or_opt (Vuln.detection_method v) "N/A";
    "";
    "**Description:**";
    js_or_opt (Vuln.description v) "No description available.";
    "";
    "**Remediation:**";
    js_or_opt (Vuln.remediation v) "No remediation guidance available.";
    "";
    js_cond (Vuln.code_snippet v) code_block "";
    ""
  ].

Definition vulnerability_sections (vs : option (list Vuln.t)) : list string :=
  match vs with
  | Some l => imap vulnerability_section l
  | None => []
  end.

Definition sbom_line (s : Comp.t) : string :=
  "| " +:+ Comp.component_name s +:+ " | " +:+ js_or_opt (Comp.version s) "N/A" +:+
  " | " +:+ js_or_opt (Comp.license s) "N/A" +:+ " |".

Definition sbom_lines (cs : option (list Comp.t)) : list string :=
  match cs with
  | Some l => map sbom_line l
  | None => []
  end.

Definition count_string {R : Type} (p : R → bool) (rows : option (list R)) : string :=
  pretty (count_where p rows).

(** [textReport]; [now_locale] is [new Date().toLocaleString()]. *)
Definition textReport (now_locale : string) (scan : Scan.t) (d : Findings) : string :=
  join nl [
    "";
    "# ECU Vulnerability Scan Report";
    "";
    "Generated: " +:+ now_locale;
    "";
    "## Scan Information";
    "";
    "- **ECU Name:** " +:+ Scan.ecu_name scan;
    "- **ECU Type:** " +:+ Scan.ecu_type scan;
    "- **Version:** " +:+ js_or_opt (Scan.version scan) "N/A";
    "- **Manufacturer:** " +:+ js_or_opt (Scan.manufacturer scan) "N/A";
    "- **Architecture:** " +:+ Scan.architecture scan;
    "- **File:** " +:+ Scan.file_name scan;
    "- **Risk Score:** " +:+ int_or (Scan.risk_score scan) "N/A" +:+ "/100";
    "";
    "## Executive Summary";
    "";
    js_or_opt (Scan.executive_summary scan) "No executive summary available.";
    "";
    "## Vulnerability Summary";
    "";
    "| Severity | Count |";
    "|----------|-------|";
    "| Critical | " +:+ count_string (has_severity "critical") (vulnerabilities d) +:+ " |";
    "| High | " +:+ count_string (has_severity "high") (vulnerabilities d) +:+ " |";
    "| Medium | " +:+ count_string (has_severity "medium") (vulnerabilities d) +:+ " |";
    "| Low | " +:+ count_string (has_severity "low") (vulnerabilities d) +:+ " |";
    "| Info | " +:+ count_string (has_severity "info") (vulnerabilities d) +:+ " |";
    "| **Total** | **" +:+ pretty (length_or_0 (vulnerabilities d)) +:+ "** |";
    "";
    "## Compliance Summary";
    "";
    "| Status | Count |";
    "|--------|-------|";
    "| Pass | " +:+ pretty (pass_count d) +:+ " |";
    "| Fail | " +:+ pretty (fail_count d) +:+ " |";
    "| Warning | " +:+ pretty (warning_count d) +:+ " |";
    "| **Score** | **" +:+ score_string (summary_score d) +:+ "%** |";
    "";
    "## Detailed Vulnerabilities";
    "";
    js_or (join nl (vulnerability_sections (vulnerabilities d))) "No vulnerabilities found.";
    "";
    "## SBOM (Software Bill of Materials)";
    "";
    "| Component | Version | License |";
    "|-----------|---------|---------|";
    js_or (join nl (sbom_lines (sbomComponents d))) "| No components detected | | |";
    "";
    "---";
    "*Report generated by JLR ECU Vulnerability Scanner*";
    ""
  ].

(** *** The handler *)

(** The request body; [format] defaults to ['json'] when left out. *)
Record ReportRequest : Type := mkReq { scanId : option string; format : option string }.

(** The end of [serve], once the scan and the findings are there. *)
Definition respond (now_iso now_locale : string) (scanId fmt : string)
    (scan : Scan.t) (d : Findings) : Http.response :=
  if String.eqb fmt "json" then
    Http.mk 200
      (Http.TextBody "application/json" (JSON_stringify (report now_iso scan d)))
      (Some ("scan-report-" +:+ scanId +:+ ".json"))
  else
    Http.mk 200
      (Http.TextBody "text/markdown" (textReport now_locale scan d))
      (Some ("scan-report-" +:+ scanId +:+ ".md")).

(** The four queries on the findings of one scan. *)
Definition findings (db : Store.t) (scanId : string) : Findings :=
  {| vulnerabilities :=
       order_by_severity <$> Store.select_eq Vuln.scan_id scanId (Store.vulnerabilities db);
     complianceResults :=
       Store.select_eq Compliance.scan_id scanId (Store.compliance_results db);
     sbomComponents :=
       Store.select_eq Comp.scan_id scanId (Store.sbom_components db);
     analysisLogs :=
       order_by_created_at <$> Store.select_eq Log.scan_id scanId (Store.analysis_logs db) |}.

Definition serve (now_iso now_locale : string) (db : Store.t) (req : ReportRequest)
  : Http.response :=
  match scanId req with
  | None | Some "" => Http.error_response 400 "Scan ID required"
  | Some scanId =>
      match Store.select_single Scan.id scanId (Store.scans db) with
      | None => Http.error_response 404 "Scan not found"
      | Some scan =>
          respond now_iso now_locale scanId (default "json" (format req))
                  scan (findings db scanId)
      end
  end.

End GenerateReport.

(** ** The client hook [useGenerateReport] *)

Module Hooks.

(** The format a caller of the hook may ask for. *)
Inductive ReportFormat : Type := json | markdown | pdf.

Definition format_name (f : ReportFormat) : string :=
  match f with
  | json => "json"
  | markdown => "markdown"
  | pdf => "pdf"
  end.

(** The body handed to [supabase.functions.invoke('generate-report', ...)]:
    [format === 'pdf' ? 'json' : format], with ['json'] as the default
    of the parameter. *)
Definition invoke_body (scanId : string) (format : option ReportFormat)
  : GenerateReport.ReportRequest :=
  let format := default json format in
  GenerateReport.mkReq (Some scanId)
    (Some (match format with pdf => "json" | f => format_name f end)).

(** What [mutationFn] gives back: the content with the format asked for,
    or the error thrown on a non-2xx answer. *)
Inductive MutationResult : Type :=
  | Returned (content : Http.body) (format : ReportFormat)
  | Thrown (response : Http.response).

(** [mutationFn]; [invoke] is the edge function behind the call. *)
Definition mutationFn (invoke : GenerateReport.ReportRequest → Http.response)
    (scanId : string) (format : option ReportFormat) : MutationResult :=
  let response := invoke (invoke_body scanId format) in
  if (200 <=? Http.status response)%nat && (Http.status response <=? 299)%nat
  then Returned (Http.payload response) (default json format)
  else Thrown response.

End Hooks.

(** ** The SBOM documents, in the words of the specification *)

Module ExportSbomSpec.
Import Js Json ExportSbom.

(** The image of one character under XML escaping. *)
Definition escape_char (a : ascii) : string :=
  if Ascii.eqb a "&" then "&amp;"
  else if Ascii.eqb a "<" then "&lt;"
  else if Ascii.eqb a ">" then "&gt;"
  else if Ascii.eqb a (ascii_of_nat 34) then "&quot;"
  else if Ascii.eqb a "'" then "&apos;"
  else String a "".

(** One pass over the text, each character replaced by its image. *)
Fixpoint escape_each (s : string) : string :=
  match s with
  | EmptyString => EmptyString
  | String a s' => escape_char a +:+ escape_each s'
  end.

(** The SWID document with every inserted value escaped, the tag id and
    the architecture included. *)
Definition generateSWID_all_escaped (scan : Scan.t) (components : list Comp.t) : string :=
  swid_template
    (escapeXml (Some (Scan.ecu_name scan)))
    (escapeXml (Some (Scan.id scan)))
    (escapeXml (Some (js_or_opt (Scan.version scan) "1.0.0")))
    (escapeXml (Some (js_or_opt (Scan.manufacturer scan) "Unknown")))
    (escapeXml (Some (js_or_opt (Scan.version scan) "unknown")))
    (escapeXml (Some (js_or (Scan.architecture scan) "unknown")))
    (escapeXml (Some (Scan.ecu_type scan)))
    (map swid_file components).

(** Whether a package (or any object) carries the given [SPDXID]. *)
Definition has_spdx_id (id : string) (p : json) : bool :=
  match get "SPDXID" p with
  | Some (JStr s) => String.eqb s id
  | _ => false
  end.

(** A string property of an object. *)
Definition str_prop (k : string) (v : json) : option string :=
  match get k v with
  | Some (JStr s) => Some s
  | _ => None
  end.

End ExportSbomSpec.

(** ** The extraction, in the words of the specification *)

Module FetchCveSpec.
Import FetchCve.

(** Every weakness description value that is present and not empty, in
    the order of the answer. *)
Definition present_values (c : Cve) : list string :=
  List.filter (λ x, negb (String.eqb x ""))
    (concat (map (λ w, omap value (default [] (w_description w)))
                 (default [] (weaknesses c)))).

(** The CWE ids as the specification words them: flattened, with absent
    entries and duplicates dropped. *)
Definition claimed_cwe_ids (c : Cve) : list string :=
  remove_dups (present_values c).

End FetchCveSpec.

(** ** Sample data *)

Module Samples.
Import FetchCve.

(** A record whose two weakness sources both name CWE-79. *)
Definition twice_cwe79 : Cve :=
  {| metrics := None;
     weaknesses := Some [
       mkWeakness (Some [mkLang "en" (Some "CWE-79")]);
       mkWeakness (Some [mkLang "en" (Some "CWE-79")])];
     references := None;
     descriptions := Some [mkLang "es" (Some "Secuencias de comandos"); mkLang "en" (Some "Cross-site scripting")];
     published := Some "2020-01-01T00:00:00.000";
     lastModified := Some "2020-01-02T00:00:00.000";
     configurations := None |}.

(** The name used by the specification to exercise the escaping. *)
Definition awkward_name : string :=
  "A&B<C>" +:+ Js.dq +:+ "D'E".

Definition awkward_name_escaped : string :=
  "A&amp;B&lt;C&gt;&quot;D&apos;E".

Definition awkward_component : Comp.t :=
  Comp.mk "scan-1" awkward_name (Some "1.0") None None None.

(** A scan whose architecture field carries markup. *)
Definition markup_scan : Scan.t :=
  Scan.mk "scan-1" "Gateway" "Body" (Some "2.1") (Some "ACME")
          ("ARM" +:+ Js.dq +:+ "><x/>&") "gw.bin" None None "completed"
          "2024-01-01T00:00:00Z" None None None.

Definition plain_scan : Scan.t :=
  Scan.mk "scan-1" "Gateway" "Body" (Some "2.1") (Some "ACME")
          "ARM" "gw.bin" None None "completed"
          "2024-01-01T00:00:00Z" None None None.

(** A store with one scan, three findings and four compliance results. *)
Definition finding (id : string) (sev : Severity.t) (title : string) : Vuln.t :=
  Vuln.mk id "scan-1" None None sev None title None None None None None None
          "new" None None None.

Definition rule (id status : string) : Compliance.t :=
  Compliance.mk "scan-1" "ISO 21434" id None status None.

Definition small_store : Store.t :=
  Store.mk [plain_scan]
    [finding "v1" Severity.low "Verbose log";
     finding "v2" Severity.critical "Stack overflow";
     finding "v3" Severity.high "Hard-coded key"]
    [rule "r1" "pass"; rule "r2" "pass"; rule "r3" "pass"; rule "r4" "fail"]
    [] [].

Definition upstream_twice_cwe79 : string → FetchResult :=
  λ _, Resolved 200 (inl (mkNvd (Some [mkItem (Some twice_cwe79)]))).

(** A cached row, fetched at instant 0. *)
Definition log4shell : CveEntry :=
  {| cve_id := "CVE-2021-44228";
     description := "Apache Log4j2 JNDI features do not protect against attacker controlled endpoints.";
     cvss_score := Some "10";
     severity := Some "critical";
     published_date := Some "2021-12-10T10:15:09.143";
     modified_date := Some "2023-04-03T20:15:08.200";
     reference_links := [];
     cwe_ids := ["CWE-502"];
     affected_products := Json.JArr [];
     fetched_at := 0 |}.

Definition one_row : gmap string CveEntry := {[ "CVE-2021-44228" := log4shell ]}.

Definition hour : Z := 60 * 60 * 1000.

(** An upstream that answers every request with the given status and an
    unreadable body. *)
Definition upstream_down (status : nat) : string → FetchResult :=
  λ _, Resolved status (inr "Unexpected token < in JSON").

(** An upstream that knows no CVE at all. *)
Definition upstream_empty : string → FetchResult :=
  λ _, Resolved 200 (inl (mkNvd (Some []))).

End Samples.

(** ** Reading the entities back *)

Module XmlEntities.
Import Js.

(** How an XML parser reads the five predefined entities.  This is not
    part of the sources; it serves to say that [escapeXml] loses nothing.
    An ampersand that starts none of the five entities is kept. *)
Fixpoint decode (s : string) : string :=
  match s with
  | EmptyString => EmptyString
  | String a r =>
      if Ascii.eqb a "&" then
        match r with
        | String b (String c (String d r3)) =>
            if Ascii.eqb b "l" && Ascii.eqb c "t" && Ascii.eqb d ";"
            then String "<" (decode r3)
            else if Ascii.eqb b "g" && Ascii.eqb c "t" && Ascii.eqb d ";"
            then String ">" (decode r3)
            else
              match r3 with
              | String e r4 =>
                  if Ascii.eqb b "a" && Ascii.eqb c "m" && Ascii.eqb d "p" && Ascii.eqb e ";"
                  then String "&" (decode r4)
                  else
                    match r4 with
                    | String f r5 =>
                        if Ascii.eqb b "q" && Ascii.eqb c "u" && Ascii.eqb d "o"
                           && Ascii.eqb e "t" && Ascii.eqb f ";"
                        then String (ascii_of_nat 34) (decode r5)
                        else if Ascii.eqb b "a" && Ascii.eqb c "p" && Ascii.eqb d "o"
                                && Ascii.eqb e "s" && Ascii.eqb f ";"
                        then String "'" (decode r5)
                        else String a (decode r)
                    | EmptyString => String a (decode r)
                    end
              | EmptyString => String a (decode r)
              end
        | _ => String a (decode r)
        end
      else String a (decode r)
  end.

End XmlEntities.

(** ** Further notions used in the statements *)

Module DocSpec.
Import Js Json.

(** Whether an object carries the string [v] under the key [k]. *)
Definition has_str_prop (k v : string) (p : json) : bool :=
  match get k p with
  | Some (JStr s) => String.eqb s v
  | _ => false
  end.

(** The [ref]s listed under [affects] in a CycloneDX vulnerability. *)
Definition affected_refs (vj : json) : list string :=
  match get "affects" vj with
  | Some (JArr l) => omap (ExportSbomSpec.str_prop "ref") l
  | _ => []
  end.

(** The CVE ids of all components, in order. *)
Definition all_cves (components : list Comp.t) : list string :=
  concat (map ExportSbom.vulns_of components).

(** The four characters that delimit tags and attribute values. *)
Definition delimiter (c : ascii) : Prop :=
  c = "<"%char ∨ c = ">"%char ∨ c = ascii_of_nat 34 ∨ c = "'"%char.

(** The CVE ids a SPDX package refers to. *)
Definition security_locators (p : json) : list string :=
  match get "externalRefs" p with
  | Some (JArr l) => omap (ExportSbomSpec.str_prop "referenceLocator") l
  | _ => []
  end.

(** A cache table whose rows sit under their own [cve_id], the column
    the upsert resolves conflicts on. *)
Definition well_keyed (cache : gmap string FetchCve.CveEntry) : Prop :=
  ∀ k e, cache !! k = Some e → FetchCve.cve_id e = k.

End DocSpec.

(** ** The upload page and the hook [useCreateScan] *)

Module Upload.
Import Js.

(** What a promise is rejected with: an [Error] instance, or another
    value (the event of a failed read, an error object of the data
    client) with its [message] property when it has one. *)
Inductive Thrown : Type :=
  | ErrorInstance (message : string)
  | OtherValue (message : option string).

(** [error.message] *)
Definition message_of (error : Thrown) : option string :=
  match error with
  | ErrorInstance m => Some m
  | OtherValue m => m
  end.

(** The values of the form. *)
Module ScanMetadata.
Record t : Type := mk {
  ecuName : string;
  ecuType : string;
  version : string;
  manufacturer : string;
  platform : string;
  priority : string;
  architecture : string;
  enableDeepAnalysis : bool;
  complianceFrameworks : list string;
}.
End ScanMetadata.

(** The selected file; [result] is what the reader gives for
    [readAsDataURL], [None] when the read fails. *)
Module File.
Record t : Type := mk {
  name : string;
  size : Z;
  result : option string;
}.
End File.

Module User.
Record t : Type := mk { id : string }.
End User.

(** The row handed to [insert] ([TablesInsert<'scans'>]). *)
Module ScanInsert.
Record t : Type := mk {
  user_id : string;
  ecu_name : string;
  ecu_type : string;
  version : option string;
  manufacturer : option string;
  platform : option string;
  file_name : string;
  file_size : Z;
  architecture : string;
  deep_analysis : bool;
  compliance_frameworks : list string;
  status : string;
  progress : Z;
}.
End ScanInsert.

(** The argument of [startAnalysis.mutate]. *)
Module Analysis.
Record metadata : Type := mkMetadata {
  ecuName : string;
  ecuType : string;
  version : string;
  manufacturer : string;
  architecture : string;
  deepAnalysis : bool;
  complianceFrameworks : list string;
}.
Record t : Type := mk {
  scanId : string;
  fileContent : option string;
  fileName : string;
  meta : metadata;
}.
End Analysis.

(** What a submission does, in the order in which it does it. *)
Inductive Effect : Type :=
  | Toast (title : string) (description : option string) (destructive : bool)
  | SetIsSubmitting (b : bool)
  | Insert (row : ScanInsert.t)
  | InvalidateQueries (queryKey : string)
  | StartAnalysis (request : Analysis.t)
  | Navigate (path : string).

(** [s.split(',')] *)
Fixpoint split_comma (s : string) : list string :=
  match s with
  | EmptyString => [""]
  | String c s' =>
      if Ascii.eqb c "," then "" :: split_comma s'
      else match split_comma s' with
           | x :: l => String c x :: l
           | [] => [String c ""]
           end
  end.

(** [(reader.result as string).split(',')[1]] *)
Definition base64_of (result : string) : option string := split_comma result !! 1%nat.

(** [x || null] *)
Definition or_null (x : string) : option string :=
  match x with
  | EmptyString => None
  | _ => Some x
  end.

(** [useCreateScan().mutateAsync]: the insert, then [onSuccess] and the
    row, or [onError] and the rejection.  [insert] is the store answering
    [.insert(scanData).select().single()]. *)
Definition createScan_mutateAsync (insert : ScanInsert.t → Scan.t + Thrown)
    (scanData : ScanInsert.t) : list Effect * (Scan.t + Thrown) :=
  match insert scanData with
  | inl data => ([Insert scanData; InvalidateQueries "scans"], inl data)
  | inr error =>
      ([Insert scanData; Toast "Error creating scan" (message_of error) true], inr error)
  end.

(** The [catch] of [handleSubmit]. *)
Definition upload_failed (error : Thrown) : Effect :=
  Toast "Upload failed"
    (Some match error with
          | ErrorInstance m => m
          | OtherValue _ => "An error occurred"
          end)
    true.

(** [handleSubmit]; the analysis is started and not awaited, so what the
    analysis does later is not part of the submission. *)
Definition handleSubmit (selectedFile : option File.t) (user : option User.t)
    (insert : ScanInsert.t → Scan.t + Thrown) (data : ScanMetadata.t) : list Effect :=
  match selectedFile with
  | None =>
      [Toast "No file selected" (Some "Please upload an ECU binary file to analyze.") true]
  | Some selectedFile =>
      match user with
      | None => [Toast "Not authenticated" (Some "Please sign in to upload files.") true]
      | Some user =>
          ([SetIsSubmitting true] ++
          match File.result selectedFile with
          | None => [upload_failed (OtherValue None)]
          | Some result =>
              let fileContent := base64_of result in
              let '(effects, scan) :=
                createScan_mutateAsync insert
                  {| ScanInsert.user_id := User.id user;
                     ScanInsert.ecu_name := ScanMetadata.ecuName data;
                     ScanInsert.ecu_type := ScanMetadata.ecuType data;
                     ScanInsert.version := or_null (ScanMetadata.version data);
                     ScanInsert.manufacturer := or_null (ScanMetadata.manufacturer data);
                     ScanInsert.platform := or_null (ScanMetadata.platform data);
                     ScanInsert.file_name := File.name selectedFile;
                     ScanInsert.file_size := File.size selectedFile;
                     ScanInsert.architecture := ScanMetadata.architecture data;
                     ScanInsert.deep_analysis := ScanMetadata.enableDeepAnalysis data;
                     ScanInsert.compliance_frameworks := ScanMetadata.complianceFrameworks data;
                     ScanInsert.status := "queued";
                     ScanInsert.progress := 0 |} in
              (effects ++
              match scan with
              | inr error => [upload_failed error]
              | inl scan =>
                  [Toast "Scan created"
                     (Some (ScanMetadata.ecuName data +:+ " is being analyzed...")) false;
                   StartAnalysis
                     {| Analysis.scanId := Scan.id scan;
                        Analysis.fileContent := fileContent;
                        Analysis.fileName := File.name selectedFile;
                        Analysis.meta :=
                          {| Analysis.ecuName := ScanMetadata.ecuName data;
                             Analysis.ecuType := ScanMetadata.ecuType data;
                             Analysis.version := ScanMetadata.version data;
                             Analysis.manufacturer := ScanMetadata.manufacturer data;
                             Analysis.architecture := ScanMetadata.architecture data;
                             Analysis.deepAnalysis := ScanMetadata.enableDeepAnalysis data || false;
                             Analysis.complianceFrameworks :=
                               ScanMetadata.complianceFrameworks data |} |};
                   Navigate ("/scans/" +:+ Scan.id scan)]
              end)%list
          end ++
          [SetIsSubmitting false])%list
      end
  end.

End Upload.

(** ** Notions used in the statements about the upload page *)

Module UploadSpec.
Import Upload.

(** The row a submission inserts. *)
Definition scanData (file : File.t) (user : User.t) (data : ScanMetadata.t) : ScanInsert.t :=
  {| ScanInsert.user_id := User.id user;
     ScanInsert.ecu_name := ScanMetadata.ecuName data;
     ScanInsert.ecu_type := ScanMetadata.ecuType data;
     ScanInsert.version := or_null (ScanMetadata.version data);
     ScanInsert.manufacturer := or_null (ScanMetadata.manufacturer data);
     ScanInsert.platform := or_null (ScanMetadata.platform data);
     ScanInsert.file_name := File.name file;
     ScanInsert.file_size := File.size file;
     ScanInsert.architecture := ScanMetadata.architecture data;
     ScanInsert.deep_analysis := ScanMetadata.enableDeepAnalysis data;
     ScanInsert.compliance_frameworks := ScanMetadata.complianceFrameworks data;
     ScanInsert.status := "queued";
     ScanInsert.progress := 0 |}.

(** The request a submission starts the analysis with. *)
Definition analysisRequest (file : File.t) (data : ScanMetadata.t)
    (fileContent : option string) (scan : Scan.t) : Analysis.t :=
  {| Analysis.scanId := Scan.id scan;
     Analysis.fileContent := fileContent;
     Analysis.fileName := File.name file;
     Analysis.meta :=
       {| Analysis.ecuName := ScanMetadata.ecuName data;
          Analysis.ecuType := ScanMetadata.ecuType data;
          Analysis.version := ScanMetadata.version data;
          Analysis.manufacturer := ScanMetadata.manufacturer data;
          Analysis.architecture := ScanMetadata.architecture data;
          Analysis.deepAnalysis := ScanMetadata.enableDeepAnalysis data;
          Analysis.complianceFrameworks := ScanMetadata.complianceFrameworks data |} |}.

(** The state [isSubmitting] after the effects, from its value before. *)
Definition isSubmitting_after (before : bool) (trace : list Effect) : bool :=
  fold_left (λ b e, match e with SetIsSubmitting b' => b' | _ => b end) trace before.

Definition is_error_toast (e : Effect) : bool :=
  match e with Toast _ _ true => true | _ => false end.

Definition is_start (e : Effect) : bool :=
  match e with StartAnalysis _ => true | _ => false end.

Definition is_navigate (e : Effect) : bool :=
  match e with Navigate _ => true | _ => false end.

Definition is_insert (e : Effect) : bool :=
  match e with Insert _ => true | _ => false end.

End UploadSpec.

(** * Properties *)
(** ** Strings *)

Module JsFacts.
Import Js.

Lemma app_cons a (s t : string) : String a s +:+ t = String a (s +:+ t).
Proof. reflexivity. Qed.

Lemma app_assoc (s t u : string) : (s +:+ t) +:+ u = s +:+ (t +:+ u).
Proof. induction s as [|a s IH]; [done|]. rewrite !app_cons. by rewrite IH. Qed.

Lemma lower_char_not_upper a : is_upper (lower_char a) = false.
Proof. destruct a as [[] [] [] [] [] [] [] []]; reflexivity. Qed.

(** A lower-cased text holds no upper-case letter. *)
Lemma toLowerCase_no_upper s :
  toLowerCase (toLowerCase s) = toLowerCase s ∧
  ∀ a, count_char a (toLowerCase s) ≠ 0%nat → is_upper a = false.
Proof.
  induction s as [|c s [IH1 IH2]]; [by split|]. split.
  - unfold toLowerCase in *. simpl. rewrite IH1. f_equal.
    unfold lower_char at 1. by rewrite lower_char_not_upper.
  - intros a. unfold toLowerCase in *. simpl.
    destruct (Ascii.eqb_spec (lower_char c) a) as [<-|_].
    + intros _. apply lower_char_not_upper.
    + apply IH2.
Qed.

Lemma replace_all_app c r (s t : string) :
  replace_all c r (s +:+ t) = replace_all c r s +:+ replace_all c r t.
Proof.
  induction s as [|a s IH]; [done|].
  rewrite app_cons. simpl.
  destruct (Ascii.eqb a c); rewrite IH; [|done].
  by rewrite app_assoc.
Qed.

Lemma count_char_app c (s t : string) :
  count_char c (s +:+ t) = (count_char c s + count_char c t)%nat.
Proof. induction s as [|a s IH]; [done|]. rewrite app_cons. simpl. rewrite IH. lia. Qed.

End JsFacts.

(** ** Strings: [includes], [join] *)

Module JsMore.
Import Js.

Lemma prefix_nil s : String.prefix "" s = true.
Proof. by destruct s. Qed.

Lemma prefix_app t a b : String.prefix t a = true → String.prefix t (a +:+ b) = true.
Proof.
  revert a. induction t as [|c t IH]; intros a H; [apply prefix_nil|].
  destruct a as [|c' a]; [done|]. rewrite JsFacts.app_cons. simpl in *.
  destruct (ascii_dec c c'); [by apply IH | done].
Qed.

Lemma prefix_refl t : String.prefix t t = true.
Proof. induction t as [|c t IH]; [done|]. simpl. by destruct (ascii_dec c c). Qed.

Lemma includes_prefix s t : String.prefix t s = true → includes s t = true.
Proof. intros H. destruct s; simpl in *; by rewrite H. Qed.

Lemma includes_app_l a b t : includes a t = true → includes (a +:+ b) t = true.
Proof.
  induction a as [|c a IH]; intros H.
  - simpl in H. rewrite orb_false_r in H. apply includes_prefix.
    by apply (prefix_app t "" b).
  - rewrite JsFacts.app_cons. simpl in H. apply orb_true_iff in H as [H|H].
    + apply includes_prefix. by apply (prefix_app t (String c a) b).
    + simpl. rewrite (IH H). apply orb_true_r.
Qed.

Lemma includes_app_r a b t : includes b t = true → includes (a +:+ b) t = true.
Proof.
  intros H. induction a as [|c a IH]; [done|].
  rewrite JsFacts.app_cons. simpl. rewrite IH. apply orb_true_r.
Qed.

Lemma includes_refl t : includes t t = true.
Proof. apply includes_prefix, prefix_refl. Qed.

Lemma join_cons sep x y l : join sep (x :: y :: l) = x +:+ sep +:+ join sep (y :: l).
Proof. reflexivity. Qed.

(** A joined text includes each of its pieces. *)
Lemma includes_join sep l x : x ∈ l → includes (join sep l) x = true.
Proof.
  induction l as [|y l IH]; intros Hx; [by apply elem_of_nil in Hx|].
  destruct l as [|z l].
  - apply list_elem_of_singleton in Hx as ->. apply includes_refl.
  - rewrite join_cons. apply elem_of_cons in Hx as [->|Hx].
    + apply includes_app_l, includes_refl.
    + by apply includes_app_r, includes_app_r, IH.
Qed.

Lemma count_char_join c sep l :
  count_char c (join sep l) =
  (sum_list (map (count_char c) l) + pred (length l) * count_char c sep)%nat.
Proof.
  induction l as [|x l IH]; [done|].
  destruct l as [|y l].
  - simpl. rewrite Nat.add_0_r. lia.
  - rewrite join_cons, !JsFacts.count_char_app, IH. simpl. lia.
Qed.

Lemma length_app (s t : string) :
  String.length (s +:+ t) = (String.length s + String.length t)%nat.
Proof. induction s as [|a s IH]; [done|]. rewrite JsFacts.app_cons. simpl. by rewrite IH. Qed.

Lemma includes_nil s : includes s "" = true.
Proof. apply includes_prefix, prefix_nil. Qed.

Lemma prefix_trans a b c :
  String.prefix a b = true → String.prefix b c = true → String.prefix a c = true.
Proof.
  revert b c. induction a as [|x a IH]; intros b c Hab Hbc; [apply prefix_nil|].
  destruct b as [|y b]; [done|]. destruct c as [|z c]; [done|].
  simpl in *. destruct (ascii_dec x y) as [->|]; [|done].
  destruct (ascii_dec y z) as [->|]; [|done]. by apply (IH b c).
Qed.

Lemma prefix_app_self a b : String.prefix a (a +:+ b) = true.
Proof. apply prefix_app, prefix_refl. Qed.

(** What is at the start of an included text is included. *)
Lemma includes_start s a t :
  includes s a = true → String.prefix t a = true → includes s t = true.
Proof.
  intros Hs Ht. induction s as [|c s IH].
  - simpl in *. rewrite orb_false_r in Hs. rewrite orb_false_r.
    by apply (prefix_trans t a "").
  - simpl in Hs. apply orb_true_iff in Hs as [Hs|Hs].
    + apply includes_prefix. by apply (prefix_trans t a (String c s)).
    + simpl. rewrite (IH Hs). apply orb_true_r.
Qed.

Lemma join_app sep (l1 l2 : list string) :
  l1 ≠ [] → l2 ≠ [] →
  join sep (l1 ++ l2)%list = join sep l1 +:+ sep +:+ join sep l2.
Proof.
  intros H1 H2. induction l1 as [|x l1 IH]; [done|].
  destruct l1 as [|y l1].
  - destruct l2 as [|z l2]; [done|]. reflexivity.
  - change ((x :: y :: l1) ++ l2)%list with (x :: y :: (l1 ++ l2))%list.
    rewrite !join_cons.
    change (y :: (l1 ++ l2))%list with ((y :: l1) ++ l2)%list.
    rewrite IH by done. by rewrite !JsFacts.app_assoc.
Qed.

(** Consecutive pieces of a joined text, joined, are included in it. *)
Lemma includes_join_mid sep (l1 mid l2 : list string) :
  includes (join sep (l1 ++ mid ++ l2)%list) (join sep mid) = true.
Proof.
  destruct mid as [|m mid]; [apply includes_nil|].
  assert (Hr : includes (join sep ((m :: mid) ++ l2)%list) (join sep (m :: mid)) = true).
  { destruct l2 as [|z l2]; [rewrite app_nil_r; apply includes_refl|].
    rewrite join_app by done. apply includes_app_l, includes_refl. }
  destruct l1 as [|x l1]; [exact Hr|].
  rewrite join_app; [|done|done].
  by apply includes_app_r, includes_app_r.
Qed.

Lemma prefix_app_cancel p a b :
  String.prefix a b = true → String.prefix (p +:+ a) (p +:+ b) = true.
Proof.
  intros H. induction p as [|c p IH]; [done|].
  rewrite !JsFacts.app_cons. simpl. by destruct (ascii_dec c c).
Qed.

Lemma js_or_prefix p x d : p ≠ "" → String.prefix p x = true → js_or x d = x.
Proof. destruct p; [done|]. by destruct x. Qed.

Lemma prefix_join_first sep x (l : list string) : String.prefix x (join sep (x :: l)) = true.
Proof. destruct l; [apply prefix_refl | apply prefix_app_self]. Qed.

(** The lines [k .. k + n - 1] of a joined text are included in it. *)
Lemma includes_lines sep (l mid : list string) k n :
  take n (drop k l) = mid → includes (join sep l) (join sep mid) = true.
Proof.
  intros <-.
  rewrite <- (take_drop k l) at 1. rewrite <- (take_drop n (drop k l)) at 1.
  apply includes_join_mid.
Qed.

End JsMore.


(** ** [fetch-cve]: cache-aside with a stale fallback *)

Module FetchCveFacts.
Import FetchCve.

Lemma serve_nonempty now later (cache : gmap string CveEntry) nvd cveId :
  cveId ≠ "" →
  serve now later cache nvd (Some cveId) =
  match fresh_entry now cache cveId with
  | Some e => mkOutcome (Entry e) cache []
  | None =>
      match nvd (nvd_url cveId) with
      | Rejected message => mkOutcome (Error 500 message) cache [nvd_url cveId]
      | Resolved status body =>
          if negb (ok status) then
            match cache !! cveId with
            | Some e => mkOutcome (Entry e) cache [nvd_url cveId]
            | None => mkOutcome (Error 502 "Failed to fetch from NVD") cache [nvd_url cveId]
            end
          else
            match body with
            | inr message => mkOutcome (Error 500 message) cache [nvd_url cveId]
            | inl nvdData =>
                match first (vulnerabilities nvdData) ≫= cve with
                | None => mkOutcome (Error 404 "CVE not found") cache [nvd_url cveId]
                | Some c =>
                    mkOutcome (Entry (build_entry later cveId c))
                              (<[cveId := build_entry later cveId c]> cache)
                              [nvd_url cveId]
                end
            end
      end
  end.
Proof.
  intros Hne. unfold serve.
  destruct cveId as [|a s]; [congruence|]. reflexivity.
Qed.

Lemma fresh_entry_Some now (cache : gmap string CveEntry) cveId e :
  cache !! cveId = Some e → (now - fetched_at e < oneDayMs)%Z →
  fresh_entry now cache cveId = Some e.
Proof.
  intros Hc Hage. unfold fresh_entry. rewrite Hc.
  destruct (Z.ltb_spec (now - fetched_at e) oneDayMs); [done | lia].
Qed.

Lemma fresh_entry_None now (cache : gmap string CveEntry) cveId :
  (∀ e, cache !! cveId = Some e → (oneDayMs ≤ now - fetched_at e)%Z) →
  fresh_entry now cache cveId = None.
Proof.
  intros Hstale. unfold fresh_entry.
  destruct (cache !! cveId) as [e|] eqn:Hc; [|done].
  specialize (Hstale e eq_refl).
  destruct (Z.ltb_spec (now - fetched_at e) oneDayMs); [lia | done].
Qed.

(** C1. For a request with a CVE id: a cached entry younger than 24 hours
    is answered as it is, with no upstream call and the cache untouched;
    when the entry is absent or at least 24 hours old exactly one upstream
    fetch is made, and if that fetch resolves to a non-success status the
    stale entry is answered when there is one, and the 502 error when there
    is none. *)
Theorem resolver_cache_ttl_and_stale_fallback
    now later (cache : gmap string CveEntry) nvd cveId :
  cveId ≠ "" →
  let out := serve now later cache nvd (Some cveId) in
  (∀ e, cache !! cveId = Some e → (now - fetched_at e < oneDayMs)%Z →
     answer out = Entry e ∧ fetched out = [] ∧ cache_after out = cache)
  ∧
  ((∀ e, cache !! cveId = Some e → (oneDayMs ≤ now - fetched_at e)%Z) →
     fetched out = [nvd_url cveId] ∧
     ∀ status body, nvd (nvd_url cveId) = Resolved status body → ok status = false →
       cache_after out = cache ∧
       match cache !! cveId with
       | Some e => answer out = Entry e
       | None => answer out = Error 502 "Failed to fetch from NVD"
       end).
Proof.
  intros Hne out. subst out. rewrite serve_nonempty by done. split.
  - intros e Hc Hage. by rewrite (fresh_entry_Some _ _ _ _ Hc Hage).
  - intros Hstale. rewrite (fresh_entry_None _ _ _ Hstale). split.
    + destruct (nvd (nvd_url cveId)) as [msg|status body]; [done|].
      destruct (negb (ok status)); [by destruct (cache !! cveId)|].
      destruct body as [data|msg]; [|done].
      by destruct (first (vulnerabilities data) ≫= cve).
    + intros status body Hnvd Hok. rewrite Hnvd, Hok. simpl.
      by destruct (cache !! cveId).
Qed.

(** A row fetched 25 hours ago and an upstream answering 503: one fetch is
    made and the old row is the answer. *)
Lemma resolver_cache_ttl_and_stale_fallback_witness :
  "CVE-2021-44228" ≠ "" ∧
  let out := serve (25 * Samples.hour) (25 * Samples.hour) Samples.one_row
               (Samples.upstream_down 503) (Some "CVE-2021-44228") in
  fetched out = [nvd_url "CVE-2021-44228"] ∧ answer out = Entry Samples.log4shell.
Proof.
  assert (Hne : "CVE-2021-44228" ≠ "") by discriminate.
  split; [exact Hne|].
  destruct (resolver_cache_ttl_and_stale_fallback
              (25 * Samples.hour) (25 * Samples.hour) Samples.one_row
              (Samples.upstream_down 503) "CVE-2021-44228" Hne) as [_ Hstale].
  destruct Hstale as [Hf Hans].
  - intros e He. vm_compute in He. injection He as <-. vm_compute. discriminate.
  - split; [exact Hf|].
    destruct (Hans 503%nat (inr "Unexpected token < in JSON") eq_refl eq_refl) as [_ H].
    exact H.
Defined.

(** A fetch that is rejected (a transport error) is not recovered from:
    the exception is caught and answered with 500, stale entry or not. *)
Lemma rejected_fetch_answers_500 now later (cache : gmap string CveEntry) nvd cveId message :
  cveId ≠ "" →
  (∀ e, cache !! cveId = Some e → (oneDayMs ≤ now - fetched_at e)%Z) →
  nvd (nvd_url cveId) = Rejected message →
  answer (serve now later cache nvd (Some cveId)) = Error 500 message ∧
  cache_after (serve now later cache nvd (Some cveId)) = cache.
Proof.
  intros Hne Hstale Hnvd. rewrite serve_nonempty by done.
  by rewrite (fresh_entry_None _ _ _ Hstale), Hnvd.
Qed.

(** C8. When the upstream answers with success and has no record for the
    id, the resolver answers 404 and the cache is unchanged; whenever the
    cache is changed, a record was extracted and the entry built from it
    is what was upserted and answered. *)
Theorem resolver_not_found_leaves_cache
    now later (cache : gmap string CveEntry) nvd cveId status nvdData :
  cveId ≠ "" →
  (∀ e, cache !! cveId = Some e → (oneDayMs ≤ now - fetched_at e)%Z) →
  nvd (nvd_url cveId) = Resolved status (inl nvdData) →
  ok status = true →
  first (vulnerabilities nvdData) ≫= cve = None →
  let out := serve now later cache nvd (Some cveId) in
  answer out = Error 404 "CVE not found" ∧ cache_after out = cache.
Proof.
  intros Hne Hstale Hnvd Hok Hnone out. subst out.
  rewrite serve_nonempty by done.
  rewrite (fresh_entry_None _ _ _ Hstale), Hnvd, Hok. simpl.
  by rewrite Hnone.
Qed.

(** An id that is neither cached nor known upstream: 404, and the cache
    is the one before. *)
Lemma resolver_not_found_leaves_cache_witness :
  let out := serve 0 0 Samples.one_row Samples.upstream_empty (Some "CVE-2099-0001") in
  answer out = Error 404 "CVE not found" ∧ cache_after out = Samples.one_row.
Proof.
  apply (resolver_not_found_leaves_cache 0 0 Samples.one_row Samples.upstream_empty
           "CVE-2099-0001" 200 (mkNvd (Some []))).
  - discriminate.
  - intros e He. vm_compute in He. discriminate He.
  - reflexivity.
  - reflexivity.
  - reflexivity.
Defined.

(** *** What is extracted from a record *)

Lemma filter_Boolean_spec (l : list (option string)) :
  filter_Boolean l = List.filter (λ x, negb (String.eqb x "")) (omap id l).
Proof.
  induction l as [|[[|a s]|] l IH]; csimpl; [done|done| |done].
  by rewrite IH.
Qed.

Lemma omap_id_map {A B} (f : A → option B) (l : list A) :
  omap id (map f l) = omap f l.
Proof. induction l as [|x l IH]; [done|]. csimpl. rewrite IH. by destruct (f x). Qed.

Lemma weakness_values_present (ws : list Weakness) :
  omap id (weakness_values ws) =
  concat (map (λ w, omap value (default [] (w_description w))) ws).
Proof.
  unfold weakness_values. induction ws as [|w ws IH]; [done|].
  simpl. rewrite omap_app, IH. f_equal.
  destruct (w_description w) as [ds|]; simpl; [|done]. apply omap_id_map.
Qed.

Lemma extract_cwe_ids_spec (c : Cve) :
  extract_cwe_ids c = FetchCveSpec.present_values c.
Proof.
  unfold extract_cwe_ids, FetchCveSpec.present_values.
  destruct (weaknesses c) as [ws|]; simpl; [|done].
  by rewrite filter_Boolean_spec, weakness_values_present.
Qed.

Lemma extract_references_spec (c : Cve) :
  extract_references c = default [] (references c).
Proof.
  unfold extract_references. destruct (references c) as [refs|]; simpl; [|done].
  induction refs as [|[u so t] refs IH]; simpl; [done|]. by rewrite IH.
Qed.

Lemma extract_description_first_en (c : Cve) ds before d after :
  descriptions c = Some ds →
  ds = (before ++ d :: after)%list →
  Forall (λ d', lang d' ≠ "en") before →
  lang d = "en" →
  extract_description c = Js.js_or_opt (value d) "".
Proof.
  intros Hds -> Hbefore Hd. unfold extract_description. rewrite Hds. clear Hds.
  induction Hbefore as [|d' before Hd' _ IH]; simpl.
  - by rewrite Hd.
  - destruct (String.eqb_spec (lang d') "en"); [done|]. apply IH.
Qed.

Lemma extract_description_no_en (c : Cve) :
  (∀ ds, descriptions c = Some ds → Forall (λ d, lang d ≠ "en") ds) →
  extract_description c = "".
Proof.
  intros Hno. unfold extract_description.
  destruct (descriptions c) as [ds|]; [|done].
  specialize (Hno ds eq_refl).
  induction Hno as [|d ds Hd _ IH]; simpl; [done|].
  by destruct (String.eqb_spec (lang d) "en").
Qed.

(** C7 (as amended). For a successful upstream answer with a record for
    the id, the resolver answers and caches an entry whose score and
    severity come from the first v3.1 metric when there is one, else from
    the first v2 metric, else are absent, the severity lower-cased; whose
    description is that of the first description tagged [en], or the
    empty string when there is none; whose CWE ids are all the weakness
    description values that are present and not empty, in order and with
    repetitions kept; and whose references are those of the record. *)
Theorem resolver_extracts_record
    now later (cache : gmap string CveEntry) nvd cveId status nvdData c :
  cveId ≠ "" →
  (∀ e, cache !! cveId = Some e → (oneDayMs ≤ now - fetched_at e)%Z) →
  nvd (nvd_url cveId) = Resolved status (inl nvdData) →
  ok status = true →
  first (vulnerabilities nvdData) ≫= cve = Some c →
  ∃ e,
    answer (serve now later cache nvd (Some cveId)) = Entry e ∧
    cache_after (serve now later cache nvd (Some cveId)) = <[cveId := e]> cache ∧
    cve_id e = cveId ∧
    (∀ m, first (metrics c ≫= cvssMetricV31) = Some m →
       cvss_score e = cvssData_baseScore m ∧
       severity e = Js.toLowerCase <$> cvssData_baseSeverity m) ∧
    (first (metrics c ≫= cvssMetricV31) = None →
       ∀ m, first (metrics c ≫= cvssMetricV2) = Some m →
         cvss_score e = cvssData_baseScore m ∧
         severity e = Js.toLowerCase <$> baseSeverity m) ∧
    (first (metrics c ≫= cvssMetricV31) = None →
     first (metrics c ≫= cvssMetricV2) = None →
       cvss_score e = None ∧ severity e = None) ∧
    (∀ ds before d after,
       descriptions c = Some ds → ds = (before ++ d :: after)%list →
       Forall (λ d', lang d' ≠ "en") before → lang d = "en" →
       description e = Js.js_or_opt (value d) "") ∧
    ((∀ ds, descriptions c = Some ds → Forall (λ d, lang d ≠ "en") ds) →
       description e = "") ∧
    cwe_ids e = FetchCveSpec.present_values c ∧
    reference_links e = default [] (references c).
Proof.
  intros Hne Hstale Hnvd Hok Hc.
  exists (build_entry later cveId c).
  rewrite serve_nonempty by done.
  rewrite (fresh_entry_None _ _ _ Hstale), Hnvd, Hok. simpl. rewrite Hc.
  split; [done|]. split; [done|].
  unfold build_entry, extract_cvss.
  destruct (first (metrics c ≫= cvssMetricV31)) as [m31|];
    [|destruct (first (metrics c ≫= cvssMetricV2)) as [m2|]]; simpl.
  all: split; [done|].
  all: repeat split; try (intros; simplify_eq; done).
  all: eauto using extract_description_first_en, extract_description_no_en,
         extract_cwe_ids_spec, extract_references_spec.
Qed.

(** A record found upstream for an id that is not cached. *)
Lemma resolver_extracts_record_witness :
  ∃ e,
    answer (serve 0 0 ∅ Samples.upstream_twice_cwe79 (Some "CVE-2020-0001")) = Entry e ∧
    description e = "Cross-site scripting" ∧
    cvss_score e = None ∧
    cwe_ids e = ["CWE-79"; "CWE-79"].
Proof.
  destruct (resolver_extracts_record 0 0 ∅ Samples.upstream_twice_cwe79
              "CVE-2020-0001" 200 (mkNvd (Some [mkItem (Some Samples.twice_cwe79)]))
              Samples.twice_cwe79)
    as (e & Hans & _ & _ & _ & _ & Hnone & Hdesc & _ & Hcwe & _).
  - discriminate.
  - intros e He. rewrite lookup_empty in He. discriminate He.
  - reflexivity.
  - reflexivity.
  - reflexivity.
  - exists e. split; [exact Hans|]. split; [|split].
    + apply (Hdesc _ [mkLang "es" (Some "Secuencias de comandos")]
               (mkLang "en" (Some "Cross-site scripting")) [] eq_refl eq_refl).
      * repeat constructor. discriminate.
      * reflexivity.
    + apply Hnone; reflexivity.
    + exact Hcwe.
Defined.

(** C7 (as stated) fails: two weakness sources naming the same CWE give
    an entry that lists it twice, where the claim drops the repetition. *)
Lemma resolver_keeps_duplicate_cwe_ids :
  ∃ e,
    answer (serve 0 0 ∅ Samples.upstream_twice_cwe79 (Some "CVE-2020-0001")) = Entry e ∧
    cwe_ids e = ["CWE-79"; "CWE-79"] ∧
    FetchCveSpec.claimed_cwe_ids Samples.twice_cwe79 = ["CWE-79"] ∧
    cwe_ids e ≠ FetchCveSpec.claimed_cwe_ids Samples.twice_cwe79 ∧
    ¬ NoDup (cwe_ids e).
Proof.
  eexists. split; [reflexivity|]. split; [reflexivity|]. split; [reflexivity|].
  split; [discriminate|].
  intros Hnd. simpl in Hnd. apply NoDup_cons in Hnd as [Hin _].
  apply Hin. left.
Qed.

(** The upsert happens on one path only: after a record was extracted. *)
Lemma upsert_only_after_extraction now later (cache : gmap string CveEntry) nvd cveId :
  let out := serve now later cache nvd cveId in
  cache_after out = cache ∨
  ∃ id status nvdData c,
    cveId = Some id ∧
    nvd (nvd_url id) = Resolved status (inl nvdData) ∧ ok status = true ∧
    first (vulnerabilities nvdData) ≫= cve = Some c ∧
    answer out = Entry (build_entry later id c) ∧
    cache_after out = <[id := build_entry later id c]> cache.
Proof.
  intros out. subst out.
  destruct cveId as [id|]; [|by left].
  destruct (decide (id = "")) as [->|Hne]; [by left|].
  rewrite serve_nonempty by done.
  destruct (fresh_entry now cache id); [by left|].
  destruct (nvd (nvd_url id)) as [msg|status body] eqn:Hnvd; [by left|].
  destruct (ok status) eqn:Hok; simpl; [|by destruct (cache !! id); left].
  destruct body as [data|msg]; [|by left].
  destruct (first (vulnerabilities data) ≫= cve) as [c|] eqn:Hc; [|by left].
  right. by exists id, status, data, c.
Qed.

End FetchCveFacts.

(** ** [export-sbom] *)

Module ExportSbomFacts.
Import Js Json ExportSbom ExportSbomSpec.

Lemma replacements_cons a s :
  replacements (String a s) = escape_char a +:+ replacements s.
Proof.
  unfold replacements, escape_char.
  destruct a as [[] [] [] [] [] [] [] []]; cbn -[replace_all String.append];
    cbn [replace_all Ascii.eqb Bool.eqb]; rewrite ?JsFacts.replace_all_app; reflexivity.
Qed.

(** The chained replacements amount to one pass in which each of the five
    characters is replaced by its entity and every other character is
    kept: an ampersand written by the first replacement is not touched by
    the later ones. *)
Lemma escapeXml_escape_each (s : string) : escapeXml (Some s) = escape_each s.
Proof.
  assert (H : ∀ t, replacements t = escape_each t).
  { induction t as [|a t IH]; [done|]. rewrite replacements_cons, IH. done. }
  destruct s; [done|]. apply H.
Qed.

Lemma escapeXml_awkward_name :
  escapeXml (Some Samples.awkward_name) = Samples.awkward_name_escaped.
Proof. reflexivity. Qed.

(** *** CycloneDX *)

Lemma concat_imap_elem {A B} (f : nat → A → list B) (l : list A) i x y :
  l !! i = Some x → y ∈ f i x → y ∈ concat (imap f l).
Proof.
  revert f i. induction l as [|a l IH]; intros f i Hi Hy; [done|].
  rewrite imap_cons. simpl. apply elem_of_app.
  destruct i as [|i]; simpl in Hi.
  - left. by simplify_eq.
  - right. by apply (IH (f ∘ S) i).
Qed.

(** C5. The CycloneDX document has one component per input component, the
    one at index [i] being a [library] with [bom-ref] [component-<i>], the
    name, the version (or [unknown]), the license as a one-element id
    array (empty when there is no license) and the package URL; and every
    CVE id of component [i] has an entry in [vulnerabilities] that names
    NVD as its source and affects [component-<i>]. *)
Theorem cyclonedx_components_and_vulnerabilities now scan (components : list Comp.t) :
  ∃ comps vulns,
    generateCycloneDX now scan components =
      JSON_stringify (cyclonedx_doc now scan components) ∧
    get "components" (cyclonedx_doc now scan components) = Some (JArr comps) ∧
    get "vulnerabilities" (cyclonedx_doc now scan components) = Some (JArr vulns) ∧
    length comps = length components ∧
    ∀ i comp, components !! i = Some comp →
      ∃ cj, comps !! i = Some cj ∧
        str_prop "type" cj = Some "library" ∧
        str_prop "bom-ref" cj = Some ("component-" +:+ index_string i) ∧
        str_prop "name" cj = Some (Comp.component_name comp) ∧
        (∀ v, Comp.version comp = Some v → v ≠ "" → str_prop "version" cj = Some v) ∧
        (Comp.version comp = None → str_prop "version" cj = Some "unknown") ∧
        (∀ l, Comp.license comp = Some l → l ≠ "" →
           get "licenses" cj = Some (JArr [JObj [("license", JObj [("id", JStr l)])]])) ∧
        (Comp.license comp = None → get "licenses" cj = Some (JArr [])) ∧
        str_prop "purl" cj =
          Some ("pkg:generic/" +:+ Comp.component_name comp +:+ "@" +:+
                js_or_opt (Comp.version comp) "unknown") ∧
        ∀ cves cve, Comp.vulnerabilities comp = Some cves → cve ∈ cves →
          ∃ vj, vj ∈ vulns ∧
            str_prop "id" vj = Some cve ∧
            (get "source" vj ≫= str_prop "name") = Some "NVD" ∧
            get "affects" vj = Some (JArr [JObj [("ref", JStr ("component-" +:+ index_string i))]]).
Proof.
  eexists _, _. split; [reflexivity|]. split; [reflexivity|]. split; [reflexivity|].
  split; [apply length_imap|].
  intros i comp Hi. exists (cyclonedx_component i comp).
  split; [by rewrite list_lookup_imap, Hi|].
  split; [done|]. split; [done|]. split; [done|].
  split. { intros v Hv Hne. unfold str_prop. simpl. rewrite Hv. by destruct v. }
  split. { intros Hv. unfold str_prop. simpl. by rewrite Hv. }
  split. { intros l Hl Hne. simpl. rewrite Hl. by destruct l. }
  split. { intros Hl. simpl. by rewrite Hl. }
  split; [done|].
  intros cves cve Hc Hin. exists (cyclonedx_vulnerability i cve).
  split; [|done].
  eapply concat_imap_elem; [exact Hi|]. simpl.
  unfold vulns_of. rewrite Hc. simpl.
  apply list_elem_of_In, in_map, list_elem_of_In, Hin.
Qed.

(** *** SPDX *)

Lemma eqb_app_prefix (p a b : string) :
  String.eqb (p +:+ a) (p +:+ b) = String.eqb a b.
Proof.
  induction p as [|c p IH]; [done|].
  rewrite !JsFacts.app_cons. simpl. by rewrite Ascii.eqb_refl.
Qed.

Lemma package_id_test i j comp :
  has_spdx_id ("SPDXRef-Package-" +:+ index_string i) (spdx_package j comp)
  = bool_decide (j = i).
Proof.
  unfold has_spdx_id. simpl. rewrite eqb_app_prefix.
  destruct (String.eqb_spec (index_string j) (index_string i)) as [Heq|Hne].
  - apply (inj pretty) in Heq. by rewrite bool_decide_eq_true_2.
  - rewrite bool_decide_eq_false_2; [done|]. by intros ->.
Qed.

Lemma root_id_test i scan :
  has_spdx_id ("SPDXRef-Package-" +:+ index_string i) (spdx_root_package scan) = false.
Proof. reflexivity. Qed.

Lemma count_imap_unique {A} (f : nat → A → json) (test : json → bool)
    (l : list A) (i k : nat) :
  (∀ j c, test (f j c) = bool_decide (k + j = i)%nat) →
  length (List.filter test (imap f l)) =
    if decide (k ≤ i < k + length l)%nat then 1%nat else 0%nat.
Proof.
  revert f k. induction l as [|x l IH]; intros f k Hf.
  - simpl. case_decide; [lia|done].
  - assert (Hlen : length (List.filter test (imap (f ∘ S) l)) =
                    if decide (S k ≤ i < S k + length l)%nat then 1%nat else 0%nat).
    { apply IH. intros j c. simpl. rewrite Hf. apply bool_decide_ext. lia. }
    rewrite imap_cons. simpl. rewrite Hf.
    case_bool_decide; simpl; rewrite Hlen; repeat case_decide; lia.
Qed.

Lemma elem_of_imap {A B} (f : nat → A → B) (l : list A) y :
  y ∈ imap f l → ∃ i x, l !! i = Some x ∧ y = f i x.
Proof.
  intros Hy. apply list_elem_of_lookup in Hy as [i Hi].
  rewrite list_lookup_imap in Hi.
  destruct (l !! i) as [x|] eqn:Hx; [|done].
  exists i, x. by simplify_eq/=.
Qed.

(** C6. The SPDX document has the root package followed by one package
    per component ([N + 1] in all), the package of component [i] being
    [SPDXRef-Package-<i>] with the component's license (or [NOASSERTION])
    as concluded and declared license and one [cpe23Type] security
    reference per CVE id; it has [N] relationships, the one at index [i]
    saying that the root package CONTAINS [SPDXRef-Package-<i>]; and the
    element a relationship points to is the id of exactly one package. *)
Theorem spdx_packages_and_relationships now scan (components : list Comp.t) :
  ∃ pkgs rels,
    generateSPDX now scan components = JSON_stringify (spdx_doc now scan components) ∧
    get "packages" (spdx_doc now scan components) = Some (JArr pkgs) ∧
    get "relationships" (spdx_doc now scan components) = Some (JArr rels) ∧
    length pkgs = (length components + 1)%nat ∧
    length rels = length components ∧
    (∃ root, pkgs !! 0%nat = Some root ∧
       str_prop "SPDXID" root = Some "SPDXRef-RootPackage") ∧
    (∀ i comp, components !! i = Some comp →
       ∃ pj refs, pkgs !! S i = Some pj ∧
         str_prop "SPDXID" pj = Some ("SPDXRef-Package-" +:+ index_string i) ∧
         (∀ l, Comp.license comp = Some l → l ≠ "" →
            str_prop "licenseConcluded" pj = Some l ∧
            str_prop "licenseDeclared" pj = Some l) ∧
         (Comp.license comp = None →
            str_prop "licenseConcluded" pj = Some "NOASSERTION" ∧
            str_prop "licenseDeclared" pj = Some "NOASSERTION") ∧
         get "externalRefs" pj = Some (JArr refs) ∧
         length refs = length (vulns_of comp) ∧
         ∀ k cve, vulns_of comp !! k = Some cve →
           ∃ r, refs !! k = Some r ∧
             str_prop "referenceCategory" r = Some "SECURITY" ∧
             str_prop "referenceType" r = Some "cpe23Type" ∧
             str_prop "referenceLocator" r = Some cve) ∧
    (∀ i, (i < length components)%nat →
       ∃ rj, rels !! i = Some rj ∧
         str_prop "spdxElementId" rj = Some "SPDXRef-RootPackage" ∧
         str_prop "relationshipType" rj = Some "CONTAINS" ∧
         str_prop "relatedSpdxElement" rj = Some ("SPDXRef-Package-" +:+ index_string i)) ∧
    (∀ rj, rj ∈ rels →
       ∃ id, str_prop "relatedSpdxElement" rj = Some id ∧
         length (List.filter (has_spdx_id id) pkgs) = 1%nat).
Proof.
  eexists _, _. split; [reflexivity|]. split; [reflexivity|]. split; [reflexivity|].
  split. { simpl. rewrite length_imap. lia. }
  split; [apply length_imap|].
  split. { by exists (spdx_root_package scan). }
  split.
  { intros i comp Hi. exists (spdx_package i comp), (map spdx_external_ref (vulns_of comp)).
    split. { simpl. by rewrite list_lookup_imap, Hi. }
    split; [done|].
    split. { intros l Hl Hne. unfold str_prop. simpl. rewrite Hl. by destruct l. }
    split. { intros Hl. unfold str_prop. simpl. by rewrite Hl. }
    split; [done|].
    split; [apply length_map|].
    intros k cve Hk. exists (spdx_external_ref cve). split; [|done].
    change (map spdx_external_ref (vulns_of comp)) with (spdx_external_ref <$> vulns_of comp).
    by rewrite list_lookup_fmap, Hk. }
  split.
  { intros i Hi. destruct (lookup_lt_is_Some_2 components i Hi) as [comp Hc].
    exists (spdx_relationship i comp). split; [|done].
    by rewrite list_lookup_imap, Hc. }
  intros rj Hrj. apply elem_of_imap in Hrj as (i & comp & Hi & ->).
  exists ("SPDXRef-Package-" +:+ index_string i). split; [done|].
  change (length (List.filter (has_spdx_id ("SPDXRef-Package-" +:+ index_string i))
                    (imap spdx_package components)) = 1%nat).
  rewrite (count_imap_unique spdx_package _ components i 0).
  - apply lookup_lt_Some in Hi. case_decide; [done|lia].
  - intros j c. apply package_id_test.
Qed.

(** *** The handler *)

Lemma select_eq_no_rows {R} (col : R → string) v (rows : list R) :
  (∀ r, r ∈ rows → col r ≠ v) → Store.select_eq col v rows = Some [].
Proof.
  intros Hno. unfold Store.select_eq. f_equal.
  induction rows as [|r rows IH]; [done|].
  rewrite filter_cons. case_decide as Hr.
  - destruct (Hno r); [left | done].
  - apply IH. intros r' Hr'. apply Hno. by right.
Qed.

Lemma respond_status now scan components fmt :
  Http.status (respond now scan components fmt) = 404%nat ↔
  scan = None ∨ components = None.
Proof.
  unfold respond. destruct scan as [scan|], components as [components|]; simpl.
  - split; [|by intros [|]].
    repeat (case_match; simpl); discriminate.
  - split; [by right | done].
  - split; [by left | done].
  - split; [by left | done].
Qed.

(** A property of an object is written in its text, as [<key>: <value>]
    one level deeper. *)
Lemma stringify_field ind (fields : list (string * json)) k v :
  (k, v) ∈ fields →
  includes (stringify_at ind (JObj fields))
           (quote k +:+ ": " +:+ stringify_at (ind +:+ "  ") v) = true.
Proof.
  intros Hin. destruct fields as [|f fields]; [by apply elem_of_nil in Hin|].
  change (stringify_at ind (JObj (f :: fields))) with
    ("{" +:+ nl +:+ (ind +:+ "  ") +:+
     join ("," +:+ nl +:+ (ind +:+ "  "))
       (map (λ kv : string * json,
               match kv with
               | (k, x) => quote k +:+ ": " +:+ stringify_at (ind +:+ "  ") x
               end) (f :: fields)) +:+
     nl +:+ ind +:+ "}").
  apply JsMore.includes_app_r, JsMore.includes_app_r, JsMore.includes_app_r,
        JsMore.includes_app_l, JsMore.includes_join.
  apply list_elem_of_In, in_map_iff. exists (k, v). split; [done|].
  by apply list_elem_of_In.
Qed.

(** C10. The export answers 404 exactly when the scan lookup gives no
    row: the component query gives an array, and an empty one is not
    taken for a missing one.  With the scan there and a supported format
    the export succeeds; and for a scan without components what the
    handler answers is, for each format, the envelope around the document
    of the empty component list, which has no component entry: in
    CycloneDX [components] and [vulnerabilities] are empty arrays, also
    in the text that is sent, in SPDX the root package is the only
    package and there is no relationship, and in SWID the directory of
    the payload holds no file. *)
Theorem export_succeeds_without_components now db req :
  (Http.status (serve now db req) = 404%nat ↔
     Store.select_single Scan.id (scanId req) (Store.scans db) = None) ∧
  (∀ scan components fmt,
     Http.status (respond now scan components fmt) = 404%nat ↔
     scan = None ∨ components = None) ∧
  (∀ scan,
     Store.select_single Scan.id (scanId req) (Store.scans db) = Some scan →
     format req ∈ ["cyclonedx"; "spdx"; "swid"] →
     Http.status (serve now db req) = 200%nat) ∧
  (∀ scan,
     Store.select_single Scan.id (scanId req) (Store.scans db) = Some scan →
     (∀ c, c ∈ Store.sbom_components db → Comp.scan_id c ≠ scanId req) →
     let envelope (data contentType ext : string) :=
       Http.json_response 200
         (JObj [("data", JStr data);
                ("filename",
                 JStr (Scan.ecu_name scan +:+ "-sbom-" +:+ format req +:+ ext));
                ("contentType", JStr contentType)]) in
     serve now db req = respond now (Some scan) (Some []) (format req) ∧
     (format req = "cyclonedx" →
        serve now db req =
          envelope (JSON_stringify (cyclonedx_doc now scan [])) "application/json" ".json") ∧
     (format req = "spdx" →
        serve now db req =
          envelope (JSON_stringify (spdx_doc now scan [])) "application/json" ".json") ∧
     (format req = "swid" →
        serve now db req = envelope (generateSWID scan []) "application/xml" ".xml") ∧
     get "components" (cyclonedx_doc now scan []) = Some (JArr []) ∧
     get "vulnerabilities" (cyclonedx_doc now scan []) = Some (JArr []) ∧
     includes (JSON_stringify (cyclonedx_doc now scan []))
              (quote "components" +:+ ": []") = true ∧
     includes (JSON_stringify (cyclonedx_doc now scan []))
              (quote "vulnerabilities" +:+ ": []") = true ∧
     get "packages" (spdx_doc now scan []) = Some (JArr [spdx_root_package scan]) ∧
     get "relationships" (spdx_doc now scan []) = Some (JArr []) ∧
     includes (JSON_stringify (spdx_doc now scan []))
              (quote "relationships" +:+ ": []") = true ∧
     includes (generateSWID scan [])
              (join nl ["  <Payload>";
                        "    <Directory name=" +:+ q "components" +:+ ">";
                        "";
                        "    </Directory>";
                        "  </Payload>"]) = true).
Proof.
  split; [|split; [|split]].
  - unfold serve. rewrite respond_status. split.
    + by intros [|].
    + by left.
  - intros. apply respond_status.
  - intros scan Hscan Hfmt. unfold serve. rewrite Hscan. simpl.
    apply elem_of_cons in Hfmt as [->|Hfmt]; [done|].
    apply elem_of_cons in Hfmt as [->|Hfmt]; [done|].
    apply elem_of_cons in Hfmt as [->|Hfmt]; [done|].
    by apply elem_of_nil in Hfmt.
  - intros scan Hscan Hno envelope. subst envelope.
    assert (Hserve : serve now db req = respond now (Some scan) (Some []) (format req)).
    { unfold serve. by rewrite Hscan, (select_eq_no_rows _ _ _ Hno). }
    rewrite Hserve. split; [done|].
    split; [by intros ->|]. split; [by intros ->|]. split; [by intros ->|].
    split; [done|]. split; [done|].
    split.
    { apply (stringify_field "" _ "components" (JArr [])). repeat constructor. }
    split.
    { apply (stringify_field "" _ "vulnerabilities" (JArr [])). repeat constructor. }
    split; [done|]. split; [done|].
    split.
    { apply (stringify_field "" _ "relationships" (JArr [])). repeat constructor. }
    unfold generateSWID, swid_template.
    apply (JsMore.includes_lines _ _ _ 17 5). reflexivity.
Qed.

(** A scan of the sample store, which holds no component: the SWID
    export is sent, with an empty directory. *)
Lemma export_succeeds_without_components_witness :
  let r := serve "2024-01-02T00:00:00Z" Samples.small_store (mkReq "scan-1" "swid") in
  r = Http.json_response 200
        (JObj [("data", JStr (generateSWID Samples.plain_scan []));
               ("filename", JStr "Gateway-sbom-swid.xml");
               ("contentType", JStr "application/xml")]) ∧
  includes (generateSWID Samples.plain_scan [])
           (join nl ["  <Payload>";
                     "    <Directory name=" +:+ q "components" +:+ ">";
                     "";
                     "    </Directory>";
                     "  </Payload>"]) = true.
Proof.
  destruct (export_succeeds_without_components "2024-01-02T00:00:00Z"
              Samples.small_store (mkReq "scan-1" "swid")) as (_ & _ & _ & H).
  destruct (H Samples.plain_scan) as (_ & _ & _ & Hswid & _ & _ & _ & _ & _ & _ & _ & Hdir).
  - reflexivity.
  - intros c Hc. by apply elem_of_nil in Hc.
  - split; [exact (Hswid eq_refl)|exact Hdir].
Defined.

(** *** SWID and [escapeXml] *)

Lemma count_escape_char c a :
  c = "<"%char ∨ c = ">"%char ∨ c = ascii_of_nat 34 ∨ c = "'"%char →
  count_char c (escape_char a) = 0%nat.
Proof.
  intros [-> | [-> | [-> | ->]]];
    destruct a as [[] [] [] [] [] [] [] []]; reflexivity.
Qed.

(** An escaped value holds none of the characters that end an attribute
    or open a tag. *)
Lemma escapeXml_no_markup c x :
  c = "<"%char ∨ c = ">"%char ∨ c = ascii_of_nat 34 ∨ c = "'"%char →
  count_char c (escapeXml x) = 0%nat.
Proof.
  intros Hc. destruct x as [s|]; [|done].
  rewrite escapeXml_escape_each.
  induction s as [|a s IH]; [done|].
  simpl. rewrite JsFacts.count_char_app, IH, count_escape_char; done.
Qed.

(** A text without any of the five characters is left as it is (a UUID,
    for one). *)
Lemma escapeXml_plain s :
  (∀ c, c = "&"%char ∨ c = "<"%char ∨ c = ">"%char ∨ c = ascii_of_nat 34 ∨ c = "'"%char →
        count_char c s = 0%nat) →
  escapeXml (Some s) = s.
Proof.
  intros Hplain. rewrite escapeXml_escape_each.
  induction s as [|a s IH]; [done|].
  assert (Ha : escape_char a = String a "").
  { unfold escape_char.
    destruct (Ascii.eqb_spec a "&") as [->|_];
      [specialize (Hplain "&"%char ltac:(auto)); discriminate Hplain|].
    destruct (Ascii.eqb_spec a "<") as [->|_];
      [specialize (Hplain "<"%char ltac:(auto)); discriminate Hplain|].
    destruct (Ascii.eqb_spec a ">") as [->|_];
      [specialize (Hplain ">"%char ltac:(auto)); discriminate Hplain|].
    destruct (Ascii.eqb_spec a (ascii_of_nat 34)) as [->|_];
      [specialize (Hplain (ascii_of_nat 34) ltac:(auto 6)); discriminate Hplain|].
    destruct (Ascii.eqb_spec a "'") as [->|_];
      [specialize (Hplain "'"%char ltac:(auto 6)); discriminate Hplain|].
    done. }
  simpl. rewrite Ha, IH; [done|].
  intros c Hc. specialize (Hplain c Hc). simpl in Hplain.
  destruct (Ascii.eqb a c); [discriminate|done].
Qed.

(** When the tag id and the architecture hold nothing to escape, the
    document is the fully escaped one. *)
Lemma generateSWID_escaped_when_plain scan components :
  escapeXml (Some (Scan.id scan)) = Scan.id scan →
  escapeXml (Some (js_or (Scan.architecture scan) "unknown")) =
    js_or (Scan.architecture scan) "unknown" →
  generateSWID scan components = generateSWID_all_escaped scan components.
Proof.
  intros Hid Harch. unfold generateSWID, generateSWID_all_escaped.
  by rewrite Hid, Harch.
Qed.

(** The name used by the specification is written with its five
    entities, once each. *)
Lemma swid_file_awkward_name comp :
  Comp.component_name comp = Samples.awkward_name →
  swid_file comp =
    "      <File name=" +:+ q Samples.awkward_name_escaped +:+
    " version=" +:+ q (escapeXml (Some (js_or_opt (Comp.version comp) "unknown"))) +:+
    " />".
Proof. intros Hn. unfold swid_file. by rewrite Hn. Qed.

(** C2. On a scan whose architecture holds markup, the SWID document
    carries the architecture as it is in the [revision] attribute: the
    document is not the one with every inserted value escaped, even though
    the component name next to it is escaped. *)
Theorem swid_architecture_inserted_raw :
  let doc := generateSWID Samples.markup_scan [Samples.awkward_component] in
  includes doc ("revision=" +:+ q (Scan.architecture Samples.markup_scan)) = true ∧
  includes doc ("<File name=" +:+ q Samples.awkward_name_escaped) = true ∧
  includes doc Samples.awkward_name = false ∧
  doc ≠ generateSWID_all_escaped Samples.markup_scan [Samples.awkward_component].
Proof.
  split; [vm_compute; reflexivity|].
  split; [vm_compute; reflexivity|].
  split; [vm_compute; reflexivity|].
  vm_compute. discriminate.
Qed.

End ExportSbomFacts.

(** ** Binary64 arithmetic: rounding to nearest, within half a unit *)

Module NumberFacts.
Import Number.
Local Open Scope Z_scope.

(** *** Number of bits of a mantissa *)

Lemma digits2_pos_size p : digits2_pos p = Pos.size p.
Proof. induction p as [p IH|p IH|]; simpl; [by rewrite IH..|done]. Qed.

Lemma digits2_pos_bounds p :
  2 ^ (Z.pos (digits2_pos p) - 1) ≤ Z.pos p < 2 ^ Z.pos (digits2_pos p).
Proof.
  rewrite digits2_pos_size. split.
  - pose proof (Pos.size_le p) as H.
    assert (H' : 2 ^ Z.pos (Pos.size p) ≤ 2 * Z.pos p).
    { change 2 with (Z.pos 2) at 1. rewrite <- Pos2Z.inj_pow. lia. }
    replace (Z.pos (Pos.size p)) with (Z.succ (Z.pos (Pos.size p) - 1)) in H' by lia.
    rewrite Z.pow_succ_r in H' by lia. lia.
  - pose proof (Pos.size_gt p) as H.
    change 2 with (Z.pos 2). rewrite <- Pos2Z.inj_pow. lia.
Qed.

Lemma digits2_pos_unique p d :
  2 ^ (d - 1) ≤ Z.pos p < 2 ^ d → Z.pos (digits2_pos p) = d.
Proof.
  intros [Hlo Hhi]. pose proof (digits2_pos_bounds p) as [Hlo' Hhi'].
  assert (0 < d).
  { destruct (Z.lt_trichotomy d 0) as [Hneg|[->|Hpos]]; [|rewrite Z.pow_0_r in Hhi; lia|done].
    rewrite Z.pow_neg_r in Hhi by done. lia. }
  destruct (Z.lt_trichotomy (Z.pos (digits2_pos p)) d) as [Hlt|[Heq|Hgt]]; [|done|].
  - assert (2 ^ Z.pos (digits2_pos p) ≤ 2 ^ (d - 1)) by (apply Z.pow_le_mono_r; lia). lia.
  - assert (2 ^ d ≤ 2 ^ (Z.pos (digits2_pos p) - 1)) by (apply Z.pow_le_mono_r; lia). lia.
Qed.

(** *** Shifting right keeps track of the quotient

    A shift record follows a quotient [N / D]: its integer part and, in
    the round and sticky bits, where the quotient lies between two
    integers.  One step of [shr_1] doubles [D]. *)

Lemma tracks_of_loc m l N D :
  m = N / D → l = loc_of N D → tracks (shr_record_of_loc m l) N D.
Proof. intros -> ->. split; by destruct (loc_of N D) as [|[]]. Qed.

Lemma div_mod_double N D :
  0 ≤ N → 0 < D →
  N / (2 * D) = (N / D) / 2 ∧
  N mod (2 * D) = (N / D) mod 2 * D + N mod D.
Proof.
  intros HN HD.
  pose proof (Z.div_mod N D ltac:(lia)) as H1.
  pose proof (Z.mod_pos_bound N D HD) as H2.
  pose proof (Z.div_mod (N / D) 2 ltac:(lia)) as H3.
  pose proof (Z.mod_pos_bound (N / D) 2 ltac:(lia)) as H4.
  assert (Hq : N / (2 * D) = N / D / 2).
  { symmetry. apply (Z.div_unique N (2 * D) (N / D / 2) ((N / D) mod 2 * D + N mod D)); nia. }
  split; [done|].
  symmetry. apply (Z.mod_unique N (2 * D) (N / D / 2)); nia.
Qed.

(** Case analysis on the boolean comparisons of a goal, then [lia]. *)
Ltac bool_arith :=
  repeat match goal with
         | H : context [Z.leb ?a ?b] |- _ => destruct (Z.leb_spec a b)
         | H : context [Z.eqb ?a ?b] |- _ => destruct (Z.eqb_spec a b)
         | |- context [Z.leb ?a ?b] => destruct (Z.leb_spec a b)
         | |- context [Z.eqb ?a ?b] => destruct (Z.eqb_spec a b)
         end;
  simpl in *; try done; try lia.

Lemma loc_of_record m r s N D :
  0 < D →
  loc_of_shr_record (Build_shr_record m r s) = loc_of N D ↔
  r = (D <=? 2 * (N mod D)) ∧
  s = negb (N mod D =? 0) && negb (2 * (N mod D) =? D).
Proof.
  intros HD. pose proof (Z.mod_pos_bound N D HD) as Hrem.
  unfold loc_of.
  destruct (Z.compare_spec (2 * (N mod D)) D);
    destruct r, s; simpl; bool_arith; split; intros; try done; try lia;
    try (destruct_and?; done).
Qed.

Lemma shr_1_tracks mrs N D :
  0 ≤ N → 0 < D → tracks mrs N D → tracks (shr_1 mrs) N (2 * D).
Proof.
  intros HN HD [Hm Hl].
  destruct (div_mod_double N D HN HD) as [Hq Hr].
  pose proof (Z.mod_pos_bound N D HD) as Hrem.
  pose proof (Z.div_pos N D HN HD) as Hpos.
  destruct mrs as [m r s]. simpl in Hm. subst m.
  apply loc_of_record in Hl as [Hr1 Hs1]; [|done].
  assert (Hshape : shr_1 (Build_shr_record (N / D) r s) =
                   Build_shr_record (Z.div2 (N / D)) (Z.odd (N / D)) (r || s)).
  { unfold shr_1. revert Hpos. by destruct (N / D) as [|[q|q|]|q]. }
  rewrite Hshape, Z.div2_div. split; [done|].
  apply loc_of_record; [lia|]. rewrite Hr.
  rewrite Zmod_odd. subst r s.
  destruct (Z.odd (N / D)); bool_arith.
Qed.

Lemma iter_shr_1_tracks p : ∀ mrs N D,
  0 ≤ N → 0 < D → tracks mrs N D →
  tracks (SpecFloat.iter_pos shr_1 p mrs) N (2 ^ Z.pos p * D).
Proof.
  induction p as [p IH|p IH|]; intros mrs N D HN HD Ht; simpl.
  - replace (2 ^ Z.pos p~1 * D) with (2 ^ Z.pos p * (2 ^ Z.pos p * (2 * D))).
    + apply IH; [done|nia|]. apply IH; [done|lia|]. by apply shr_1_tracks.
    + replace (Z.pos p~1) with (Z.pos p + Z.pos p + 1) by lia.
      rewrite !Z.pow_add_r by lia. change (2 ^ 1) with 2. ring.
  - replace (2 ^ Z.pos p~0 * D) with (2 ^ Z.pos p * (2 ^ Z.pos p * D)).
    + apply IH; [done|nia|]. by apply IH.
    + replace (Z.pos p~0) with (Z.pos p + Z.pos p) by lia.
      rewrite !Z.pow_add_r by lia. ring.
  - change (2 ^ 1) with 2. by apply shr_1_tracks.
Qed.

(** *** Rounding to nearest, ties to even *)

(** The rounded integer is within one half of [N / D], and is the
    quotient itself when the division is exact. *)
Lemma round_nearest_even_spec N D :
  0 ≤ N → 0 < D →
  let m' := round_nearest_even (N / D) (loc_of N D) in
  N / D ≤ m' ≤ N / D + 1 ∧ 2 * Z.abs (m' * D - N) ≤ D ∧ (N mod D = 0 → m' = N / D).
Proof.
  intros HN HD.
  pose proof (Z.div_mod N D ltac:(lia)) as H1.
  pose proof (Z.mod_pos_bound N D HD) as H2.
  unfold loc_of, round_nearest_even.
  destruct (Z.eqb_spec (N mod D) 0) as [H0|H0]; simpl.
  - split; [lia|]. split; [nia|done].
  - destruct (Z.compare_spec (2 * (N mod D)) D); [destruct (Z.even (N / D))|..];
      (split; [lia|]); (split; [nia|done]).
Qed.

Lemma fexp_normal e : -1021 ≤ e → fexp prec emax e = e - 53.
Proof. intros. unfold fexp, emin, prec, emax. lia. Qed.

Lemma shr_tracks mrs e k N D :
  0 ≤ N → 0 < D → 0 ≤ k → tracks mrs N D →
  tracks (fst (shr mrs e k)) N (2 ^ k * D) ∧ snd (shr mrs e k) = e + k.
Proof.
  intros HN HD Hk Ht. destruct k as [|k|k]; [| |lia]; simpl.
  - split; [|lia]. by rewrite Z.pow_0_r, Z.mul_1_l.
  - split; [|done]. by apply iter_shr_1_tracks.
Qed.

(** Rounding to 53 bits a quotient [N / D] (seen at exponent [ex]) that
    has at least 53 bits: the result is normal and within half a unit in
    the last place. *)
Lemma binary_round_aux_spec N D ex :
  0 ≤ N → 0 < D → 2 ^ 52 ≤ N / D →
  -1074 ≤ ex → ex + Zdigits2 (N / D) < 1024 →
  ∃ m e,
    binary_round_aux prec emax false (N / D) ex (loc_of N D) = S754_finite false m e ∧
    2 ^ 52 ≤ Z.pos m < 2 ^ 53 ∧
    ex ≤ e ∧
    2 * Z.abs (Z.pos m * 2 ^ (e - ex) * D - N) ≤ 2 ^ (e - ex) * D ∧
    (N mod D = 0 → N / D < 2 ^ 53 → Z.pos m = N / D ∧ e = ex).
Proof.
  intros HN HD Hbig Hex Hov.
  destruct (N / D) as [|q|q] eqn:Hq; [lia| |lia].
  pose proof (digits2_pos_bounds q) as Hdig.
  set (d := Z.pos (digits2_pos q)) in *.
  assert (Hd : 53 ≤ d).
  { destruct (Z.le_gt_cases 53 d) as [|Hlt]; [done|].
    assert (2 ^ d ≤ 2 ^ 52) by (apply Z.pow_le_mono_r; lia). lia. }
  simpl in Hov. fold d in Hov.
  unfold binary_round_aux, shr_fexp. simpl Zdigits2. fold d.
  rewrite fexp_normal by lia.
  replace (d + ex - 53 - ex) with (d - 53) by lia.
  pose proof (shr_tracks (shr_record_of_loc (Z.pos q) (loc_of N D)) ex (d - 53) N D
                HN HD ltac:(lia) (tracks_of_loc _ _ N D (eq_sym Hq) eq_refl)) as [Ht He].
  destruct (shr _ ex (d - 53)) as [mrs1 e1]. simpl in Ht, He. subst e1.
  set (k := d - 53) in *. set (D1 := 2 ^ k * D) in *.
  assert (HD1 : 0 < D1) by (unfold D1; apply Z.mul_pos_pos; [apply Z.pow_pos_nonneg; lia|done]).
  destruct Ht as [Hm1 Hl1]. rewrite Hm1, Hl1.
  pose proof (round_nearest_even_spec N D1 HN HD1) as (Hr1 & Hr2 & Hr3). simpl in Hr1, Hr2, Hr3.
  set (m2 := round_nearest_even (N / D1) (loc_of N D1)) in *.
  assert (Hm1' : N / D1 = Z.pos q / 2 ^ k).
  { unfold D1. rewrite Z.mul_comm, <- Z.div_div, Hq by (try apply Z.pow_pos_nonneg; lia). done. }
  assert (Hrange : 2 ^ 52 ≤ N / D1 < 2 ^ 53).
  { rewrite Hm1'. split.
    - apply Z.div_le_lower_bound; [apply Z.pow_pos_nonneg; lia|].
      rewrite <- Z.pow_add_r by lia. replace (k + 52) with (d - 1) by lia. lia.
    - apply Z.div_lt_upper_bound; [apply Z.pow_pos_nonneg; lia|].
      rewrite <- Z.pow_add_r by lia. replace (k + 53) with d by lia. lia. }
  destruct (Z.eq_dec m2 (2 ^ 53)) as [Heq|Hne].
  - (* the rounding carried into a 54th bit *)
    rewrite Heq.
    exists (Z.to_pos (2 ^ 52)), (ex + k + 1).
    replace (shr (shr_record_of_loc (2 ^ 53) loc_Exact) (ex + k)
               (fexp prec emax (Zdigits2 (2 ^ 53) + (ex + k)) - (ex + k)))
      with (Build_shr_record (2 ^ 52) false false, ex + k + 1).
    2:{ change (Zdigits2 (2 ^ 53)) with 54. rewrite fexp_normal by lia.
        replace (54 + (ex + k) - 53 - (ex + k)) with 1 by lia. reflexivity. }
    simpl shr_m. change (2 ^ 52) with 4503599627370496 at 1.
    replace (ex + k + 1 <=? emax - prec) with true
      by (symmetry; apply Z.leb_le; unfold emax, prec, k; lia).
    split; [reflexivity|]. split; [done|]. split; [lia|].
    split.
    + replace (ex + k + 1 - ex) with (k + 1) by lia.
      rewrite Z.pow_add_r by lia. change (2 ^ 1) with 2.
      replace (Z.pos (Z.to_pos (2 ^ 52)) * (2 ^ k * 2) * D) with (m2 * D1)
        by (rewrite Heq; unfold D1; change (Z.pos (Z.to_pos (2 ^ 52))) with (2 ^ 52);
            change (2 ^ 53) with (2 * 2 ^ 52); ring).
      replace (2 ^ k * 2 * D) with (2 * D1) by (unfold D1; ring). lia.
    + intros Hexact Hsmall. exfalso.
      assert (Hk0 : k = 0).
      { destruct (Z.eq_dec k 0) as [|Hk]; [done|].
        assert (2 ^ 53 ≤ 2 ^ (d - 1)) by (apply Z.pow_le_mono_r; lia). lia. }
      assert (HD1D : D1 = D) by (unfold D1; by rewrite Hk0, Z.pow_0_r, Z.mul_1_l).
      rewrite HD1D in Hr3, Hrange. specialize (Hr3 Hexact). lia.
  - (* no carry *)
    assert (Hm2 : 2 ^ 52 ≤ m2 < 2 ^ 53) by lia.
    assert (Hm3 : m2 = Z.pos (Z.to_pos m2)) by lia.
    set (m3 := Z.to_pos m2) in *. rewrite Hm3.
    exists m3, (ex + k).
    assert (Hdig2 : Z.pos (digits2_pos m3) = 53) by (apply digits2_pos_unique; lia).
    replace (shr (shr_record_of_loc (Z.pos m3) loc_Exact) (ex + k)
               (fexp prec emax (Zdigits2 (Z.pos m3) + (ex + k)) - (ex + k)))
      with (Build_shr_record (Z.pos m3) false false, ex + k).
    2:{ simpl Zdigits2. rewrite Hdig2, fexp_normal by lia.
        replace (53 + (ex + k) - 53 - (ex + k)) with 0 by lia. reflexivity. }
    simpl shr_m.
    replace (ex + k <=? emax - prec) with true
      by (symmetry; apply Z.leb_le; unfold emax, prec, k; lia).
    split; [reflexivity|]. split; [lia|]. split; [lia|].
    replace (ex + k - ex) with k by lia.
    split.
    + unfold D1 in Hr2. nia.
    + intros Hexact Hsmall.
      assert (Hk0 : k = 0).
      { destruct (Z.eq_dec k 0) as [|Hk]; [done|].
        assert (2 ^ 53 ≤ 2 ^ (d - 1)) by (apply Z.pow_le_mono_r; lia). lia. }
      assert (HD1D : D1 = D) by (unfold D1; by rewrite Hk0, Z.pow_0_r, Z.mul_1_l).
      rewrite HD1D in Hr3. specialize (Hr3 Hexact). split; [lia|lia].
Qed.

Lemma loc_of_1 N : loc_of N 1 = loc_Exact.
Proof. unfold loc_of. by rewrite Z.mod_1_r. Qed.

Lemma digits_upper p n : 0 ≤ n → Z.pos p < 2 ^ n → Z.pos (digits2_pos p) ≤ n.
Proof.
  intros Hn Hp. pose proof (digits2_pos_bounds p) as [Hlo _].
  destruct (Z.le_gt_cases (Z.pos (digits2_pos p)) n) as [|Hgt]; [done|].
  assert (2 ^ n ≤ 2 ^ (Z.pos (digits2_pos p) - 1)) by (apply Z.pow_le_mono_r; lia). lia.
Qed.

Lemma iter_xO p s : Z.pos (Pos.iter xO p s) = Z.pos p * 2 ^ Z.pos s.
Proof.
  revert p. induction s as [s IH|s IH|]; intros p; simpl.
  - rewrite Pos2Z.inj_xO, !IH.
    replace (Z.pos s~1) with (Z.pos s + Z.pos s + 1) by lia.
    rewrite !Z.pow_add_r by lia. change (2 ^ 1) with 2. ring.
  - rewrite !IH. replace (Z.pos s~0) with (Z.pos s + Z.pos s) by lia.
    rewrite !Z.pow_add_r by lia. ring.
  - rewrite Pos2Z.inj_xO. change (2 ^ 1) with 2. ring.
Qed.

(** An integer below [2^53] is a Number, exactly. *)
Lemma of_Z_spec n :
  0 < n < 2 ^ 53 →
  ∃ m e,
    binary_normalize prec emax n 0 false = S754_finite false m e ∧
    normal m ∧ -52 ≤ e ≤ 0 ∧ Z.pos m = n * 2 ^ (- e).
Proof.
  intros [Hpos Hlt]. destruct n as [|p|p]; [lia| |lia].
  pose proof (digits2_pos_bounds p) as Hdig.
  pose proof (digits_upper p 53 ltac:(lia) Hlt) as Hd53.
  set (d := Z.pos (digits2_pos p)) in *.
  assert (Hd1 : 1 ≤ d) by (unfold d; lia).
  unfold binary_normalize, binary_round. fold d.
  rewrite fexp_normal by lia.
  assert (Hal : ∃ mz, shl_align p 0 (d + 0 - 53) = (mz, d - 53) ∧
                      Z.pos mz = Z.pos p * 2 ^ (53 - d)).
  { unfold shl_align. destruct (d + 0 - 53 - 0) as [|s|s] eqn:Hs; [|lia|].
    - exists p. replace (d - 53) with 0 by lia. split; [done|].
      replace (53 - d) with 0 by lia. rewrite Z.pow_0_r. lia.
    - exists (Pos.iter xO p s). split; [f_equal; lia|].
      rewrite iter_xO. f_equal. f_equal. lia. }
  destruct Hal as (mz & -> & Hmz).
  assert (Hnorm : 2 ^ 52 ≤ Z.pos mz < 2 ^ 53).
  { rewrite Hmz. split.
    - replace 52 with ((d - 1) + (53 - d)) by lia. rewrite Z.pow_add_r by lia.
      apply Z.mul_le_mono_nonneg_r; [apply Z.pow_nonneg|]; lia.
    - replace 53 with (d + (53 - d)) at 2 by lia. rewrite Z.pow_add_r by lia.
      apply Z.mul_lt_mono_pos_r; [apply Z.pow_pos_nonneg|]; lia. }
  destruct (binary_round_aux_spec (Z.pos mz) 1 (d - 53))
    as (m & e & Hbra & Hm & He & _ & Hexact); try lia.
  { rewrite Z.div_1_r. lia. }
  { rewrite Z.div_1_r. simpl. rewrite (digits2_pos_unique mz 53); lia. }
  rewrite Z.div_1_r in Hbra, Hexact. rewrite loc_of_1 in Hbra.
  destruct Hexact as [Hmm Hee]; [apply Z.mod_1_r|lia|].
  exists m, e. split; [done|]. split; [done|]. subst e. split; [lia|].
  rewrite Hmm, Hmz. f_equal. f_equal. lia.
Qed.

(** The product of two normal Numbers. *)
Lemma mul_spec m1 e1 m2 e2 :
  normal m1 → normal m2 → -1074 ≤ e1 + e2 → e1 + e2 + 106 < 1024 →
  ∃ m e,
    SFmul prec emax (S754_finite false m1 e1) (S754_finite false m2 e2) =
      S754_finite false m e ∧
    normal m ∧ e1 + e2 ≤ e ∧
    2 * Z.abs (Z.pos m * 2 ^ (e - (e1 + e2)) - Z.pos m1 * Z.pos m2)
      ≤ 2 ^ (e - (e1 + e2)).
Proof.
  intros [Hl1 Hu1] [Hl2 Hu2] Hlo Hhi. unfold SFmul. simpl xorb.
  assert (Hprod : 2 ^ 104 ≤ Z.pos (m1 * m2) < 2 ^ 106).
  { rewrite Pos2Z.inj_mul. change (2 ^ 104) with (2 ^ 52 * 2 ^ 52).
    change (2 ^ 106) with (2 ^ 53 * 2 ^ 53). nia. }
  destruct (binary_round_aux_spec (Z.pos (m1 * m2)) 1 (e1 + e2))
    as (m & e & Hbra & Hm & He & Hacc & _); try lia.
  { rewrite Z.div_1_r. change (2 ^ 52) with 4503599627370496.
    change (2 ^ 104) with 20282409603651670423947251286016 in Hprod. lia. }
  { rewrite Z.div_1_r. simpl.
    pose proof (digits_upper (m1 * m2) 106 ltac:(lia) ltac:(lia)). lia. }
  rewrite Z.div_1_r, loc_of_1 in Hbra.
  exists m, e. split; [done|]. split; [done|]. split; [done|].
  rewrite Z.mul_1_r in Hacc. rewrite <- Pos2Z.inj_mul. lia.
Qed.

(** The location computed by the division is that of the quotient. *)
Lemma new_location_spec N D :
  0 < D → new_location D (N mod D) = loc_of N D.
Proof.
  intros HD. pose proof (Z.mod_pos_bound N D HD) as Hrem.
  unfold new_location, new_location_even, new_location_odd, loc_of.
  destruct (Z.even D) eqn:Hev; [done|].
  destruct (Z.eqb_spec (N mod D) 0); [done|]. f_equal.
  assert (Hodd : Z.odd D = true) by (rewrite <- Z.negb_even, Hev; done).
  apply Z.odd_spec in Hodd as [c Hc].
  destruct (Z.compare_spec (2 * (N mod D) + 1) D);
    symmetry; [apply Z.compare_lt_iff|apply Z.compare_lt_iff|apply Z.compare_gt_iff]; lia.
Qed.

(** The quotient of two normal Numbers. *)
Lemma div_spec mx ex my ey :
  normal mx → normal my → -1021 ≤ ex - ey → ex - ey < 1023 →
  ∃ m e,
    SFdiv prec emax (S754_finite false mx ex) (S754_finite false my ey) =
      S754_finite false m e ∧
    normal m ∧ ex - ey - 53 ≤ e ∧
    2 * Z.abs (Z.pos m * 2 ^ (e - (ex - ey - 53)) * Z.pos my - Z.pos mx * 2 ^ 53)
      ≤ 2 ^ (e - (ex - ey - 53)) * Z.pos my.
Proof.
  intros Hx Hy Hlo Hhi. unfold SFdiv, SFdiv_core_binary. simpl xorb. simpl Zdigits2.
  rewrite (digits2_pos_unique mx 53), (digits2_pos_unique my 53) by done.
  rewrite fexp_normal by lia.
  replace (Z.min (53 + ex - (53 + ey) - 53) (ex - ey)) with (ex - ey - 53) by lia.
  replace (ex - ey - (ex - ey - 53)) with 53 by lia.
  rewrite Z.shiftl_mul_pow2 by lia.
  set (N := Z.pos mx * 2 ^ 53).
  change (Z.div_eucl N (Z.pos my)) with (N / Z.pos my, N mod Z.pos my) || idtac.
  assert (Hde : Z.div_eucl N (Z.pos my) = (N / Z.pos my, N mod Z.pos my)).
  { unfold Z.div, Z.modulo. by destruct (Z.div_eucl N (Z.pos my)). }
  rewrite Hde, new_location_spec by lia.
  destruct Hx as [Hxl Hxu], Hy as [Hyl Hyu].
  assert (HN : 0 ≤ N) by (unfold N; lia).
  assert (Hq : 2 ^ 52 ≤ N / Z.pos my < 2 ^ 54).
  { split.
    - apply Z.div_le_lower_bound; [lia|]. unfold N. nia.
    - apply Z.div_lt_upper_bound; [lia|]. unfold N.
      change (2 ^ 54) with (2 ^ 53 * 2). change (2 ^ 53) with (2 ^ 52 * 2) at 2. nia. }
  destruct (binary_round_aux_spec N (Z.pos my) (ex - ey - 53))
    as (m & e & Hbra & Hm & He & Hacc & _); try lia.
  { destruct (N / Z.pos my) as [|q|q] eqn:Hqe; [lia| |lia]. simpl.
    pose proof (digits_upper q 54 ltac:(lia) ltac:(lia)). lia. }
  exists m, e. split; [done|]. split; [done|]. split; [done|]. done.
Qed.

(** *** From three roundings to the nearest integer *)

Lemma abs_mul_le a b c : 0 <= b -> 2 * Z.abs a <= c -> 2 * Z.abs (a * b) <= c * b.
Proof.
  intros Hb Ha. rewrite Z.abs_mul, (Z.abs_eq b) by exact Hb.
  rewrite Z.mul_assoc. apply Z.mul_le_mono_nonneg_r; assumption.
Qed.

(** The arithmetic behind [score_nearest].  [m1] (scale [A]) is the
    rounded quotient of [p * P] by [t * T], [m2] (scale [B]) the rounded
    product of [m1] by 100, and [s] the integer nearest to [m2 / G]; the
    three errors stay below the gap [1 / (2 * t)] between a multiple of
    [1 / t] and the next half-integer. *)
Lemma nearest_from_bounds (p t s m1 m2 A B G T P : Z) :
  0 < p <= t -> t < 2 ^ 32 ->
  0 < A -> 0 < B -> 0 < G -> 0 < T -> 0 < P ->
  2 ^ 52 <= m1 < 2 ^ 53 -> 2 ^ 52 <= m2 < 2 ^ 53 ->
  G * A * B * T = 2 ^ 99 * P ->
  2 * Z.abs (m1 * A * (t * T) - p * P * 2 ^ 53) <= A * (t * T) ->
  2 * Z.abs (m2 * B - m1 * (100 * 2 ^ 46)) <= B ->
  2 * Z.abs (s * G - m2) <= G ->
  2 * Z.abs (t * s - 100 * p) <= t.
Proof.
  intros Hp Ht HA HB HG HT HP Hm1 Hm2 Hid HA3 HB2 HG1.
  change (100 * 2 ^ 46) with 7036874417766400 in *.
  change (2 ^ 52) with 4503599627370496 in *.
  change (2 ^ 53) with 9007199254740992 in *.
  change (2 ^ 32) with 4294967296 in *.
  change (2 ^ 99) with 633825300114114700748351602688 in *.
  (* the scale of the division result *)
  pose (U := A * T * t).
  assert (HU0 : 0 < U) by (unfold U; apply Z.mul_pos_pos; [apply Z.mul_pos_pos|]; lia).
  replace (m1 * A * (t * T)) with (m1 * U) in HA3 by (unfold U; ring).
  replace (A * (t * T)) with U in HA3 by (unfold U; ring).
  assert (HmB : m2 * B = B * m2) by ring.
  assert (HmU : m1 * U = U * m1) by ring.
  assert (HB4 : B <= 4 * 7036874417766400).
  { assert (H1 : B * 4503599627370496 <= B * m2) by (apply Z.mul_le_mono_nonneg_l; lia).
    lia. }
  assert (HU4 : U <= 4 * (p * P)).
  { assert (H1 : U * 4503599627370496 <= U * m1) by (apply Z.mul_le_mono_nonneg_l; lia).
    lia. }
  assert (HpP : p * P <= t * P) by (apply Z.mul_le_mono_nonneg_r; lia).
  (* the three errors, brought to one scale *)
  pose (d1 := s * G - m2). pose (d2 := m2 * B - m1 * 7036874417766400).
  pose (d3 := m1 * U - p * P * 9007199254740992).
  pose (D := t * s - 100 * p).
  fold d1 in HG1. fold d2 in HB2. fold d3 in HA3. fold D.
  assert (HGU : G * B * U = 633825300114114700748351602688 * P * t).
  { unfold U. rewrite <- Hid. ring. }
  assert (Hsum : D * (633825300114114700748351602688 * P) =
                 d1 * (B * U) + d2 * U + d3 * 7036874417766400).
  { unfold D, d1, d2, d3.
    transitivity (s * (G * B * U) - 100 * p * (633825300114114700748351602688 * P));
      [rewrite HGU|]; ring. }
  assert (Hb1 : 2 * Z.abs (d1 * (B * U)) <= G * (B * U)).
  { apply abs_mul_le; [|exact HG1]. apply Z.mul_nonneg_nonneg; lia. }
  assert (Hb2 : 2 * Z.abs (d2 * U) <= B * U) by (apply abs_mul_le; [lia|exact HB2]).
  assert (Hb3 : 2 * Z.abs (d3 * 7036874417766400) <= U * 7036874417766400)
    by (apply abs_mul_le; [lia|exact HA3]).
  assert (Hall : 2 * Z.abs (D * (633825300114114700748351602688 * P))
                 <= G * (B * U) + B * U + U * 7036874417766400).
  { rewrite Hsum. lia. }
  assert (HBU : B * U <= (4 * 7036874417766400) * U)
    by (apply Z.mul_le_mono_nonneg_r; lia).
  set (W := 633825300114114700748351602688 * P) in *.
  assert (HW : 0 < W) by (unfold W; lia).
  assert (Hsmall : B * U + U * 7036874417766400 < W).
  { assert (H1 : U <= 4 * (t * P)) by lia.
    assert (H3 : 0 < t * P) by (apply Z.mul_pos_pos; lia).
    assert (H2 : 140737488355328000 * (t * P) < 633825300114114700748351602688 * P).
    { replace (140737488355328000 * (t * P)) with ((140737488355328000 * t) * P) by ring.
      apply Z.mul_lt_mono_pos_r; lia. }
    unfold W. lia. }
  rewrite Z.abs_mul, (Z.abs_eq W) in Hall by lia.
  replace (G * (B * U)) with (t * W) in Hall by (rewrite Z.mul_assoc, HGU; ring).
  assert (Hfin : (2 * Z.abs D) * W < (t + 1) * W) by lia.
  apply Z.mul_lt_mono_pos_r in Hfin; lia.
Qed.

Lemma pow2_pos n : 0 ≤ n → 0 < 2 ^ n.
Proof. intros. apply Z.pow_pos_nonneg; lia. Qed.

Lemma pow2_lt_inv a b : 0 ≤ b → 2 ^ a < 2 ^ b → a < b.
Proof. intros Hb H. apply (Z.pow_lt_mono_r_iff 2); lia. Qed.

(** For counts [0 < p ≤ t < 2^32] the score computed in binary64 is an
    integer nearest to [100 * p / t]. *)
Lemma score_nearest p t :
  0 < p ≤ t → t < 2 ^ 32 →
  ∃ s,
    Math_round (mul (div (of_Z p) (of_Z t)) (of_Z 100)) = Some s ∧
    2 * Z.abs (t * s - 100 * p) ≤ t.
Proof.
  intros Hp Ht.
  assert (H32 : 2 ^ 32 < 2 ^ 53) by done.
  destruct (of_Z_spec p) as (mp & ep & Hofp & Hnp & Hep & Hmp); [lia|].
  destruct (of_Z_spec t) as (mt & et & Hoft & Hnt & Het & Hmt); [lia|].
  unfold mul, div, of_Z. rewrite Hofp, Hoft.
  change (binary_normalize prec emax 100 0 false)
    with (S754_finite false 7036874417766400 (-46)).
  destruct (div_spec mp ep mt et) as (m1 & e1 & Hdiv & Hn1 & He1 & HA); [done|done|lia|lia|].
  rewrite Hdiv.
  set (a := e1 - (ep - et - 53)) in *.
  set (P := 2 ^ (- ep)) in *. set (T := 2 ^ (- et)) in *.
  assert (HP : 0 < P) by (apply pow2_pos; lia).
  assert (HT : 0 < T) by (apply pow2_pos; lia).
  assert (Ha0 : 0 ≤ a) by (unfold a; lia).
  assert (HApos : 0 < 2 ^ a) by (by apply pow2_pos).
  rewrite Hmp, Hmt in HA.
  (* the quotient is at most one: its exponent is at most -52 *)
  assert (Ha : a < 2 + et - ep).
  { destruct Hn1 as [Hl1 Hu1].
    pose (U := 2 ^ a * T * t).
    assert (HU0 : 0 < U) by (unfold U; apply Z.mul_pos_pos; [apply Z.mul_pos_pos|]; lia).
    replace (Z.pos m1 * 2 ^ a * (t * T)) with (U * Z.pos m1) in HA by (unfold U; ring).
    replace (2 ^ a * (t * T)) with U in HA by (unfold U; ring).
    assert (H1 : U * 2 ^ 52 ≤ U * Z.pos m1) by (apply Z.mul_le_mono_nonneg_l; lia).
    assert (HpP : p * P ≤ t * P) by (apply Z.mul_le_mono_nonneg_r; lia).
    change (2 ^ 52) with 4503599627370496 in *. change (2 ^ 53) with 9007199254740992 in *.
    assert (H2 : t * (2 ^ a * T) < t * (4 * P)) by (unfold U in *; lia).
    apply Z.mul_lt_mono_pos_l in H2; [|lia].
    assert (H3 : 2 ^ (a + - et) < 2 ^ (2 + - ep)).
    { rewrite !Z.pow_add_r by lia. exact H2. }
    apply pow2_lt_inv in H3; lia. }
  assert (He1' : e1 ≤ -52) by (unfold a in Ha; lia).
  destruct (mul_spec m1 e1 7036874417766400 (-46))
    as (m2 & e2 & Hmul & Hn2 & He2 & HB); [done|done|lia|lia|].
  rewrite Hmul.
  set (b := e2 - (e1 + -46)) in *.
  assert (Hb0 : 0 ≤ b) by (unfold b; lia).
  assert (HBpos : 0 < 2 ^ b) by (by apply pow2_pos).
  assert (Hb : b < 54).
  { destruct Hn1 as [Hl1 Hu1], Hn2 as [Hl2 Hu2].
    assert (H1 : 2 ^ b * 2 ^ 52 ≤ 2 ^ b * Z.pos m2) by (apply Z.mul_le_mono_nonneg_l; lia).
    replace (Z.pos m2 * 2 ^ b) with (2 ^ b * Z.pos m2) in HB by ring.
    change (2 ^ 52) with 4503599627370496 in *. change (2 ^ 53) with 9007199254740992 in *.
    assert (H2 : 2 ^ b < 2 ^ 54) by (change (2 ^ 54) with 18014398509481984; lia).
    apply pow2_lt_inv in H2; lia. }
  assert (He2' : e2 < 0) by (unfold b in Hb; lia).
  unfold Math_round. destruct (Z.ltb_spec e2 0) as [_|]; [|lia].
  set (G := 2 ^ (- e2)).
  assert (HG : 0 < G) by (apply pow2_pos; lia).
  replace (2 ^ (- e2 + 1)) with (2 * G)
    by (unfold G; rewrite Z.pow_add_r by lia; change (2 ^ 1) with 2; ring).
  set (s := (2 * Z.pos m2 + G) `div` (2 * G)).
  exists s. split; [done|].
  assert (Hfloor : 2 * Z.abs (s * G - Z.pos m2) ≤ G).
  { pose proof (Z.div_mod (2 * Z.pos m2 + G) (2 * G) ltac:(lia)) as Hdm.
    pose proof (Z.mod_pos_bound (2 * Z.pos m2 + G) (2 * G) ltac:(lia)) as Hmb.
    fold s in Hdm. lia. }
  apply (nearest_from_bounds p t s (Z.pos m1) (Z.pos m2) (2 ^ a) (2 ^ b) G T P);
    try done.
  unfold G, T, P. rewrite <- !Z.pow_add_r by lia. f_equal. unfold a, b. lia.
Qed.

End NumberFacts.

(** ** [generate-report] *)

Module GenerateReportFacts.
Import Js Json GenerateReport.

Lemma serve_found now_iso now_locale db scanId fmt scan :
  scanId ≠ "" →
  Store.select_single Scan.id scanId (Store.scans db) = Some scan →
  serve now_iso now_locale db (mkReq (Some scanId) fmt) =
  respond now_iso now_locale scanId (default "json" fmt) scan (findings db scanId).
Proof.
  intros Hne Hscan. unfold serve. simpl.
  destruct scanId; [done|]. by rewrite Hscan.
Qed.

(** *** The compliance score *)

Lemma compliance_score_no_results pass fail warning :
  (pass + fail + warning = 0)%nat → compliance_score pass fail warning = Some 0%Z.
Proof. intros H. unfold compliance_score. by rewrite H. Qed.

(** The score is an integer nearest to [100 * pass / total]: at most one
    half away from it. *)
Lemma compliance_score_nearest (pass fail warning : nat) :
  (Z.of_nat (pass + fail + warning) < 2 ^ 32)%Z →
  ∃ s : Z,
    compliance_score pass fail warning = Some s ∧
    (0 ≤ s ≤ 100)%Z ∧
    (2 * Z.abs (Z.of_nat (pass + fail + warning) * s - 100 * Z.of_nat pass)
       ≤ Z.of_nat (pass + fail + warning))%Z ∧
    ((pass + fail + warning = 0)%nat → s = 0%Z).
Proof.
  intros Hlen. unfold compliance_score.
  destruct (Nat.ltb_spec 0 (pass + fail + warning)) as [Hpos|Hzero].
  - destruct pass as [|pass'].
    + (* no result passes: the quotient is the Number 0 *)
      exists 0%Z.
      destruct (NumberFacts.of_Z_spec (Z.of_nat (0 + fail + warning)))
        as (mt & et & Hoft & _); [lia|].
      unfold Number.of_nat, Number.div, Number.mul, Number.of_Z.
      rewrite Hoft. split; [reflexivity|]. lia.
    + set (p := S pass') in *.
      destruct (NumberFacts.score_nearest (Z.of_nat p) (Z.of_nat (p + fail + warning)))
        as (s & Hs & Hnear); [lia|lia|].
      exists s. split; [exact Hs|]. split; [|split; [exact Hnear|lia]].
      set (t := Z.of_nat (p + fail + warning)) in *.
      assert (Hp : (0 < Z.of_nat p ≤ t)%Z) by lia.
      split.
      * destruct (Z.le_gt_cases 0 s) as [|Hneg]; [done|].
        assert ((t * s ≤ t * -1)%Z) by (apply Z.mul_le_mono_nonneg_l; lia). lia.
      * destruct (Z.le_gt_cases s 100) as [|Hbig]; [done|].
        assert ((t * 101 ≤ t * s)%Z) by (apply Z.mul_le_mono_nonneg_l; lia). lia.
  - exists 0%Z. split; [done|]. lia.
Qed.

(** At an exact half the binary64 product may fall just below it:
    29 passes out of 200 give 14, not 15. *)
Lemma compliance_score_at_a_tie : compliance_score 29 171 0 = Some 14%Z.
Proof. reflexivity. Qed.

Lemma count_three_statuses (rows : list Compliance.t) :
  (length (List.filter (has_status "pass") rows) +
   length (List.filter (has_status "fail") rows) +
   length (List.filter (has_status "warning") rows) ≤ length rows)%nat.
Proof.
  induction rows as [|c rows IH]; [done|].
  cbn [List.filter length].
  destruct (has_status "pass" c) eqn:H1, (has_status "fail" c) eqn:H2,
           (has_status "warning" c) eqn:H3; cbn [length]; try lia;
    unfold has_status in *;
    repeat match goal with
           | H : String.eqb _ _ = true |- _ => apply String.eqb_eq in H
           end; congruence.
Qed.

Lemma counts_le_length d :
  (pass_count d + fail_count d + warning_count d ≤ length_or_0 (complianceResults d))%nat.
Proof.
  unfold pass_count, fail_count, warning_count, count_where, length_or_0.
  destruct (complianceResults d) as [rows|]; [apply count_three_statuses|lia].
Qed.



(** *** Order of the vulnerability list *)






Lemma order_by_severity_perm rows : order_by_severity rows ≡ₚ rows.
Proof. apply merge_sort_Permutation. Qed.




End GenerateReportFacts.

(** ** [useGenerateReport] *)

Module HooksFacts.
Import Js Json GenerateReport Hooks.

(** Sent as it is, the format [pdf] is not [json] for the handler, which
    then renders markdown; the hook is where [pdf] becomes [json]. *)
Lemma handler_takes_pdf_for_markdown now_iso now_locale scanId scan d :
  respond now_iso now_locale scanId "pdf" scan d =
  respond now_iso now_locale scanId "markdown" scan d.
Proof. reflexivity. Qed.

(** C9 (as amended). Asked through the hook, [pdf] degrades to [json]:
    the hook sends the request that it sends for [json], naming the
    format [json], so for a scan that exists the handler answers the
    pretty-printed JSON report under [scan-report-<scanId>.json], the
    answer it gives to the [json] request, and the hook returns that
    document, labelled with the format that was asked for.  The handler
    itself does not degrade [pdf]: given the format [pdf] it renders the
    markdown report under [scan-report-<scanId>.md], as for every format
    that is not [json]. *)
Theorem pdf_request_degrades_to_json now_iso now_locale db scanId scan :
  scanId ≠ "" →
  Store.select_single Scan.id scanId (Store.scans db) = Some scan →
  let handler := serve now_iso now_locale db in
  let document :=
    Http.TextBody "application/json"
      (JSON_stringify (report now_iso scan (findings db scanId))) in
  invoke_body scanId (Some pdf) = invoke_body scanId (Some json) ∧
  invoke_body scanId (Some pdf) = mkReq (Some scanId) (Some "json") ∧
  handler (invoke_body scanId (Some pdf)) =
    Http.mk 200 document (Some ("scan-report-" +:+ scanId +:+ ".json")) ∧
  handler (invoke_body scanId (Some pdf)) = handler (invoke_body scanId (Some json)) ∧
  mutationFn handler scanId (Some pdf) = Returned document pdf ∧
  mutationFn handler scanId (Some json) = Returned document json ∧
  handler (mkReq (Some scanId) (Some "pdf")) =
    Http.mk 200
      (Http.TextBody "text/markdown" (textReport now_locale scan (findings db scanId)))
      (Some ("scan-report-" +:+ scanId +:+ ".md")) ∧
  (∀ invoke,
     match mutationFn invoke scanId (Some pdf), mutationFn invoke scanId (Some json) with
     | Returned c1 f1, Returned c2 f2 => c1 = c2 ∧ f1 = pdf ∧ f2 = json
     | Thrown r1, Thrown r2 => r1 = r2
     | _, _ => False
     end).
Proof.
  intros Hne Hscan handler document. subst handler document.
  assert (Hjson : serve now_iso now_locale db (invoke_body scanId (Some json)) =
            Http.mk 200
              (Http.TextBody "application/json"
                 (JSON_stringify (report now_iso scan (findings db scanId))))
              (Some ("scan-report-" +:+ scanId +:+ ".json"))).
  { unfold invoke_body. simpl.
    by rewrite (GenerateReportFacts.serve_found _ _ _ _ _ scan Hne Hscan). }
  change (invoke_body scanId (Some pdf)) with (invoke_body scanId (Some json)).
  split; [done|]. split; [done|]. split; [exact Hjson|]. split; [done|].
  split.
  { unfold mutationFn. cbv zeta.
    change (invoke_body scanId (Some pdf)) with (invoke_body scanId (Some json)).
    by rewrite Hjson. }
  split; [unfold mutationFn; cbv zeta; by rewrite Hjson|].
  split; [by rewrite (GenerateReportFacts.serve_found _ _ _ _ _ scan Hne Hscan)|].
  intros invoke. unfold mutationFn.
  change (invoke_body scanId (Some pdf)) with (invoke_body scanId (Some json)).
  by destruct (_ && _).
Qed.

(** The scan of the sample store, asked for as [pdf] through the hook:
    the JSON document comes back, under the label [pdf]. *)
Lemma pdf_request_degrades_to_json_witness :
  let handler := serve "2024-01-02T00:00:00Z" "1/2/2024" Samples.small_store in
  mutationFn handler "scan-1" (Some pdf) =
    Returned
      (Http.TextBody "application/json"
         (JSON_stringify (report "2024-01-02T00:00:00Z" Samples.plain_scan
                            (findings Samples.small_store "scan-1"))))
      pdf ∧
  Http.filename (handler (invoke_body "scan-1" (Some pdf))) =
    Some "scan-report-scan-1.json".
Proof.
  destruct (pdf_request_degrades_to_json "2024-01-02T00:00:00Z" "1/2/2024"
              Samples.small_store "scan-1" Samples.plain_scan)
    as (_ & _ & Hanswer & _ & Hhook & _).
  - discriminate.
  - reflexivity.
  - split; [exact Hhook|]. by rewrite Hanswer.
Defined.

(** C9 (as stated) fails at the handler: a request that names the format
    [pdf] is not answered as the request that names [json] is, but with
    the markdown text under a [.md] file name. *)
Lemma raw_pdf_request_is_answered_in_markdown :
  let handler := serve "2024-01-02T00:00:00Z" "1/2/2024" Samples.small_store in
  let asked (fmt : string) := handler (mkReq (Some "scan-1") (Some fmt)) in
  Http.filename (asked "pdf") = Some "scan-report-scan-1.md" ∧
  Http.filename (asked "json") = Some "scan-report-scan-1.json" ∧
  (∃ text, Http.payload (asked "pdf") = Http.TextBody "text/markdown" text) ∧
  (∃ text, Http.payload (asked "json") = Http.TextBody "application/json" text) ∧
  asked "pdf" ≠ asked "json".
Proof.
  intros handler asked.
  assert (Hpdf : Http.filename (asked "pdf") = Some "scan-report-scan-1.md") by reflexivity.
  assert (Hjson : Http.filename (asked "json") = Some "scan-report-scan-1.json")
    by reflexivity.
  split; [exact Hpdf|]. split; [exact Hjson|].
  split; [eexists; reflexivity|]. split; [eexists; reflexivity|].
  intros Heq. rewrite Heq, Hjson in Hpdf. discriminate Hpdf.
Qed.

End HooksFacts.

(** * Further properties *)

(** ** [export-sbom], further *)

Module ExportSbomMore.
Import Js Json ExportSbom ExportSbomSpec DocSpec.

(** *** [escapeXml] loses nothing *)

Lemma decode_escape_char a t :
  XmlEntities.decode (escape_char a +:+ t) = String a (XmlEntities.decode t).
Proof. destruct a as [[] [] [] [] [] [] [] []]; reflexivity. Qed.

Lemma decode_escape_each s : XmlEntities.decode (escape_each s) = s.
Proof.
  induction s as [|a s IH]; [done|].
  simpl. by rewrite decode_escape_char, IH.
Qed.

Lemma length_escape_char a : (1 ≤ String.length (escape_char a))%nat.
Proof. destruct a as [[] [] [] [] [] [] [] []]; simpl; lia. Qed.

Lemma length_escape_each s : (String.length s ≤ String.length (escape_each s))%nat.
Proof.
  induction s as [|a s IH]; [done|].
  simpl. rewrite JsMore.length_app. pose proof (length_escape_char a). lia.
Qed.

(** X1. Reading the entities of an escaped text back gives the text, so
    two different texts are never escaped to the same one; the escaped
    text is at least as long as the text, and is empty only for the empty
    text. *)
Theorem escapeXml_loses_nothing (s t : string) :
  XmlEntities.decode (escapeXml (Some s)) = s ∧
  (escapeXml (Some s) = escapeXml (Some t) → s = t) ∧
  (String.length s ≤ String.length (escapeXml (Some s)))%nat ∧
  (escapeXml (Some s) = "" ↔ s = "").
Proof.
  rewrite !ExportSbomFacts.escapeXml_escape_each.
  split; [apply decode_escape_each|]. split.
  - intros H. by rewrite <- (decode_escape_each s), <- (decode_escape_each t), H.
  - split; [apply length_escape_each|]. split.
    + intros H. pose proof (length_escape_each s) as Hl. rewrite H in Hl.
      destruct s; [done|]. simpl in Hl. lia.
    + by intros ->.
Qed.

(** *** The SWID document *)

Lemma count_q c s : count_char c (q s) = (2 * count_char c dq + count_char c s)%nat.
Proof. unfold q. rewrite !JsFacts.count_char_app. lia. Qed.

Lemma count_swid_file c comp :
  delimiter c →
  count_char c (swid_file comp) =
    (count_char c "<>" + 4 * count_char c dq)%nat.
Proof.
  intros Hc. unfold swid_file.
  rewrite !JsFacts.count_char_app, !count_q, !ExportSbomFacts.escapeXml_no_markup by done.
  destruct Hc as [-> | [-> | [-> | ->]]]; reflexivity.
Qed.

Lemma count_swid_files c components :
  delimiter c →
  count_char c (join nl (map swid_file components)) =
    (length components * (count_char c "<>" + 4 * count_char c dq))%nat.
Proof.
  intros Hc. rewrite JsMore.count_char_join, length_map.
  replace (count_char c nl) with 0%nat
    by (destruct Hc as [-> | [-> | [-> | ->]]]; reflexivity).
  rewrite Nat.mul_0_r, Nat.add_0_r.
  induction components as [|comp components IH]; [done|].
  change (sum_list (map (count_char c) (map swid_file (comp :: components))))
    with (count_char c (swid_file comp)
          + sum_list (map (count_char c) (map swid_file components)))%nat.
  rewrite IH, count_swid_file by done. simpl length. lia.
Qed.

Lemma count_generateSWID scan (components : list Comp.t) c :
  delimiter c →
  count_char c (generateSWID scan components) =
    (count_char c ("<<<<<<<<<<" +:+ ">>>>>>>>>>") + 32 * count_char c dq
     + length components * (count_char c "<>" + 4 * count_char c dq)
     + count_char c (Scan.id scan)
     + count_char c (js_or (Scan.architecture scan) "unknown"))%nat.
Proof.
  intros Hc. unfold generateSWID, swid_template.
  cbn [join]. rewrite !JsFacts.count_char_app, !count_q.
  rewrite count_swid_files by done.
  rewrite !ExportSbomFacts.escapeXml_no_markup by done.
  destruct Hc as [-> | [-> | [-> | ->]]]; unfold dq, nl; simpl; lia.
Qed.

(** X2. In the SWID document the number of each delimiter is that of the
    fixed template (10 [<], 10 [>], 32 double quotes, no single quote),
    plus one [<], one [>] and 4 double quotes per component, plus the
    occurrences in the two values inserted as they are, the tag id and the
    architecture: no other value, however it is written, opens or closes
    a tag or an attribute. *)
Theorem swid_delimiters_come_from_the_template scan (components : list Comp.t) :
  let doc := generateSWID scan components in
  let raw c := (count_char c (Scan.id scan)
                + count_char c (js_or (Scan.architecture scan) "unknown"))%nat in
  count_char "<" doc = (10 + length components + raw "<"%char)%nat ∧
  count_char ">" doc = (10 + length components + raw ">"%char)%nat ∧
  count_char (ascii_of_nat 34) doc =
    (32 + 4 * length components + raw (ascii_of_nat 34))%nat ∧
  count_char "'" doc = raw "'"%char.
Proof.
  unfold delimiter. repeat split.
  all: rewrite count_generateSWID by (unfold delimiter; auto).
  all: unfold dq; simpl; lia.
Qed.

(** X3. The SWID document reads the name and the version of a component
    and nothing else: two component lists with the same names and the
    same versions (an absent or empty version counting as [unknown]) give
    the same document, whatever their licenses, source files and CVE
    ids. *)
Theorem swid_reads_names_and_versions_only scan (cs1 cs2 : list Comp.t) :
  map Comp.component_name cs1 = map Comp.component_name cs2 →
  map (λ c, js_or_opt (Comp.version c) "unknown") cs1 =
    map (λ c, js_or_opt (Comp.version c) "unknown") cs2 →
  generateSWID scan cs1 = generateSWID scan cs2.
Proof.
  intros Hn Hv. unfold generateSWID. f_equal.
  revert cs2 Hn Hv. induction cs1 as [|c1 cs1 IH]; intros [|c2 cs2] Hn Hv; try done.
  simpl in Hn, Hv. injection Hn as Hn1 Hn. injection Hv as Hv1 Hv.
  simpl. f_equal; [|by apply IH].
  unfold swid_file. by rewrite Hn1, Hv1.
Qed.

Lemma swid_reads_names_and_versions_only_witness :
  generateSWID Samples.plain_scan [Samples.awkward_component] =
  generateSWID Samples.plain_scan
    [Comp.mk "other-scan" Samples.awkward_name (Some "1.0") (Some "MIT")
             (Some "src/a.c") (Some ["CVE-2020-0001"])].
Proof.
  apply (swid_reads_names_and_versions_only Samples.plain_scan); reflexivity.
Defined.

Lemma swid_line sc (components : list Comp.t) line :
  line ∈ [ "    version=" +:+ q (escapeXml (Some (js_or_opt (Scan.version sc) "1.0.0")));
           "    colloquialVersion=" +:+
             q (escapeXml (Some (js_or_opt (Scan.version sc) "unknown")));
           "  <Entity name=" +:+
             q (escapeXml (Some (js_or_opt (Scan.manufacturer sc) "Unknown"))) +:+
             " role=" +:+ q "tagCreator" +:+ " />";
           "    revision=" +:+ q (js_or (Scan.architecture sc) "unknown") ] →
  includes (generateSWID sc components) line = true.
Proof.
  intros Hin. unfold generateSWID, swid_template.
  apply JsMore.includes_join.
  repeat (apply elem_of_cons in Hin as [->|Hin]; [set_solver|]).
  by apply elem_of_nil in Hin.
Qed.

(** X4. A scan without a version (absent or empty) is given two different
    versions in its SWID document: [1.0.0] on the root element and
    [unknown] in the [Meta] element; without a manufacturer the tag creator
    is [Unknown], and an empty architecture is written [unknown]. *)
Theorem swid_defaults sc (components : list Comp.t) :
  (Scan.version sc = None ∨ Scan.version sc = Some "" →
     includes (generateSWID sc components) ("    version=" +:+ q "1.0.0") = true ∧
     includes (generateSWID sc components) ("    colloquialVersion=" +:+ q "unknown") = true) ∧
  (Scan.manufacturer sc = None ∨ Scan.manufacturer sc = Some "" →
     includes (generateSWID sc components)
       ("  <Entity name=" +:+ q "Unknown" +:+ " role=" +:+ q "tagCreator" +:+ " />") = true) ∧
  (Scan.architecture sc = "" →
     includes (generateSWID sc components) ("    revision=" +:+ q "unknown") = true).
Proof.
  split; [|split].
  - intros Hv.
    assert (H1 : js_or_opt (Scan.version sc) "1.0.0" = "1.0.0")
      by (destruct Hv as [H|H]; by rewrite H).
    assert (H2 : js_or_opt (Scan.version sc) "unknown" = "unknown")
      by (destruct Hv as [H|H]; by rewrite H).
    split.
    + replace (q "1.0.0")
        with (q (escapeXml (Some (js_or_opt (Scan.version sc) "1.0.0")))) by (by rewrite H1).
      apply (swid_line sc components). repeat constructor.
    + replace (q "unknown")
        with (q (escapeXml (Some (js_or_opt (Scan.version sc) "unknown")))) by (by rewrite H2).
      apply (swid_line sc components). repeat constructor.
  - intros Hm.
    assert (H1 : js_or_opt (Scan.manufacturer sc) "Unknown" = "Unknown")
      by (destruct Hm as [H|H]; by rewrite H).
    replace (q "Unknown")
      with (q (escapeXml (Some (js_or_opt (Scan.manufacturer sc) "Unknown")))) by (by rewrite H1).
    apply (swid_line sc components). repeat constructor.
  - intros Ha.
    replace (q "unknown") with (q (js_or (Scan.architecture sc) "unknown")) by (by rewrite Ha).
    apply (swid_line sc components). repeat constructor.
Qed.

(** *** The handler *)

(** X5. The export answers 400 with nothing but an error message exactly
    when the scan is found and the format is none of [cyclonedx], [spdx],
    [swid] (written so, in lower case); a missing scan is answered 404
    whatever the format; in every other case the answer is 200 with the
    document of the format asked for, the file name
    [<ecu_name>-sbom-<format>] with the extension [json] or [xml], and the
    matching content type. *)
Theorem export_dispatch now db req :
  let found := Store.select_single Scan.id (scanId req) (Store.scans db) in
  let components :=
    filter (λ c, Comp.scan_id c = scanId req) (Store.sbom_components db) in
  let envelope (data contentType ext : string) scan :=
    Http.json_response 200
      (JObj [("data", JStr data);
             ("filename", JStr (Scan.ecu_name scan +:+ "-sbom-" +:+ format req +:+ ext));
             ("contentType", JStr contentType)]) in
  (found = None →
     serve now db req = Http.error_response 404 "Scan or components not found") ∧
  (∀ scan, found = Some scan →
     (format req = "cyclonedx" →
        serve now db req =
          envelope (generateCycloneDX now scan components) "application/json" ".json" scan) ∧
     (format req = "spdx" →
        serve now db req =
          envelope (generateSPDX now scan components) "application/json" ".json" scan) ∧
     (format req = "swid" →
        serve now db req =
          envelope (generateSWID scan components) "application/xml" ".xml" scan) ∧
     (format req ∉ ["cyclonedx"; "spdx"; "swid"] →
        serve now db req =
          Http.error_response 400 "Invalid format. Use: cyclonedx, spdx, or swid")) ∧
  (Http.status (serve now db req) = 400%nat ↔
     found ≠ None ∧ format req ∉ ["cyclonedx"; "spdx"; "swid"]).
Proof.
  intros found components envelope. subst found components envelope.
  unfold serve, Store.select_eq.
  destruct (Store.select_single Scan.id (scanId req) (Store.scans db)) as [scan|] eqn:Hs.
  - split; [done|]. split.
    + intros scan' [= <-]. unfold respond.
      split; [by intros ->|]. split; [by intros ->|]. split; [by intros ->|].
      intros Hfmt.
      destruct (String.eqb_spec (format req) "cyclonedx") as [H|_]; [rewrite H in Hfmt; set_solver|].
      destruct (String.eqb_spec (format req) "spdx") as [H|_]; [rewrite H in Hfmt; set_solver|].
      destruct (String.eqb_spec (format req) "swid") as [H|_]; [rewrite H in Hfmt; set_solver|].
      done.
    + unfold respond.
      destruct (String.eqb_spec (format req) "cyclonedx") as [H|H1];
        [rewrite H; split; [done|intros [_ Hn]; set_solver]|].
      destruct (String.eqb_spec (format req) "spdx") as [H|H2];
        [rewrite H; split; [done|intros [_ Hn]; set_solver]|].
      destruct (String.eqb_spec (format req) "swid") as [H|H3];
        [rewrite H; split; [done|intros [_ Hn]; set_solver]|].
      split; [|done]. intros _. split; [done|].
      rewrite !not_elem_of_cons. repeat split; try done. apply not_elem_of_nil.
  - split; [done|]. split; [done|]. simpl. split; [done|]. by intros [? _].
Qed.

(** *** CycloneDX *)

Lemma omap_id_json vs i :
  omap (str_prop "id") (map (cyclonedx_vulnerability i) vs) = vs.
Proof. induction vs as [|v vs IH]; [done|]. csimpl. by rewrite IH. Qed.

Lemma omap_app_list {A B} (f : A → option B) (l1 l2 : list A) :
  omap f (l1 ++ l2)%list = (omap f l1 ++ omap f l2)%list.
Proof. apply omap_app. Qed.

Lemma cyclonedx_ids_from i (components : list Comp.t) :
  omap (str_prop "id")
    (concat (imap (λ j comp, map (cyclonedx_vulnerability (i + j)) (vulns_of comp)) components))
  = all_cves components.
Proof.
  revert i. induction components as [|comp components IH]; intros i; [done|].
  rewrite imap_cons.
  change (all_cves (comp :: components)) with (vulns_of comp ++ all_cves components)%list.
  rewrite concat_cons, omap_app_list, omap_id_json. f_equal.
  rewrite <- (IH (S i)). f_equal. f_equal. apply imap_ext. intros j c _. simpl.
  by replace (i + S j)%nat with (S (i + j))%nat by lia.
Qed.

Lemma elem_of_concat {A} (x : A) (ls : list (list A)) :
  x ∈ concat ls → ∃ l, x ∈ l ∧ l ∈ ls.
Proof.
  induction ls as [|l ls IH]; simpl; [by intros ?%elem_of_nil|].
  intros [Hx|Hx]%elem_of_app.
  - exists l. split; [done|by left].
  - destruct (IH Hx) as (l' & ? & ?). exists l'. split; [done|by right].
Qed.

Lemma cyclonedx_length_from i (components : list Comp.t) :
  length (concat (imap (λ j comp, map (cyclonedx_vulnerability (i + j)) (vulns_of comp))
                       components))
  = length (all_cves components).
Proof.
  revert i. induction components as [|comp components IH]; intros i; [done|].
  rewrite imap_cons.
  change (all_cves (comp :: components)) with (vulns_of comp ++ all_cves components)%list.
  rewrite concat_cons, !length_app, length_map. f_equal.
  rewrite <- (IH (S i)). f_equal. f_equal. apply imap_ext. intros j c _. simpl.
  by replace (i + S j)%nat with (S (i + j))%nat by lia.
Qed.

Lemma has_bom_ref_test i j comp :
  has_str_prop "bom-ref" ("component-" +:+ index_string i) (cyclonedx_component j comp)
  = bool_decide (j = i).
Proof.
  unfold has_str_prop. simpl. rewrite ExportSbomFacts.eqb_app_prefix.
  destruct (String.eqb_spec (index_string j) (index_string i)) as [Heq|Hne].
  - apply (inj pretty) in Heq. by rewrite bool_decide_eq_true_2.
  - rewrite bool_decide_eq_false_2; [done|]. by intros ->.
Qed.

(** X6. The [vulnerabilities] of a CycloneDX document are the CVE ids of
    the components and nothing else: their ids, in order, are the ids of
    the first component, then those of the second, and so on, an id listed
    by two components (or twice by one) appearing as often; and each entry
    affects one reference, which is the [bom-ref] of exactly one
    component. *)
Theorem cyclonedx_vulnerabilities_exact now scan (components : list Comp.t) :
  ∃ comps vulns,
    get "components" (cyclonedx_doc now scan components) = Some (JArr comps) ∧
    get "vulnerabilities" (cyclonedx_doc now scan components) = Some (JArr vulns) ∧
    omap (str_prop "id") vulns = all_cves components ∧
    length vulns = length (all_cves components) ∧
    ∀ vj, vj ∈ vulns →
      ∃ i comp cve,
        components !! i = Some comp ∧ cve ∈ vulns_of comp ∧
        str_prop "id" vj = Some cve ∧
        affected_refs vj = ["component-" +:+ index_string i] ∧
        length (List.filter
                  (has_str_prop "bom-ref" ("component-" +:+ index_string i)) comps) = 1%nat.
Proof.
  eexists _, _. split; [reflexivity|]. split; [reflexivity|].
  split; [exact (cyclonedx_ids_from 0 components)|]. split.
  { exact (cyclonedx_length_from 0 components). }
  intros vj Hvj. apply elem_of_concat in Hvj as (l & Hvj & Hl).
  apply ExportSbomFacts.elem_of_imap in Hl as (i & comp & Hi & ->).
  apply list_elem_of_In, in_map_iff in Hvj as (cve & <- & Hcve).
  exists i, comp, cve. split; [done|]. split; [by apply list_elem_of_In|].
  split; [done|]. split; [done|].
  rewrite (ExportSbomFacts.count_imap_unique cyclonedx_component _ components i 0).
  - apply lookup_lt_Some in Hi. case_decide; [done|lia].
  - intros j c. apply has_bom_ref_test.
Qed.

(** *** CycloneDX and SPDX side by side *)

Lemma omap_imap_total {A B C} (g : B → option C) (f : nat → A → B) (h : A → C) (l : list A) :
  (∀ i x, g (f i x) = Some (h x)) → omap g (imap f l) = map h l.
Proof.
  intros Hg. revert f Hg. induction l as [|x l IH]; intros f Hg; [done|].
  rewrite imap_cons. csimpl. rewrite Hg. f_equal. apply IH. intros i y. apply Hg.
Qed.

Lemma locators_of_refs (cves : list string) :
  omap (str_prop "referenceLocator") (map spdx_external_ref cves) = cves.
Proof. induction cves as [|c cves IH]; [done|]. csimpl. by rewrite IH. Qed.

Lemma spdx_locators_from i (components : list Comp.t) :
  concat (map security_locators (imap (λ j, spdx_package (i + j)) components))
  = all_cves components.
Proof.
  revert i. induction components as [|comp components IH]; intros i; [done|].
  rewrite imap_cons.
  change (all_cves (comp :: components)) with (vulns_of comp ++ all_cves components)%list.
  cbn [map concat]. f_equal.
  - unfold security_locators. simpl. apply locators_of_refs.
  - rewrite <- (IH (S i)). f_equal. f_equal. apply imap_ext. intros j c _. simpl.
    by replace (i + S j)%nat with (S (i + j))%nat by lia.
Qed.

(** X7. The CycloneDX and the SPDX document of one scan list the same
    things: after the root package, which carries the name of the ECU as
    the CycloneDX metadata component does, the SPDX packages carry the
    names of the CycloneDX components, in the same order; the version of
    a component, when it is given, is the version in both, and when it is
    absent or empty it is [unknown] in CycloneDX and [NOASSERTION] in
    SPDX; and the CVE ids the SPDX packages refer to are, in order, the
    ids of the CycloneDX vulnerabilities. *)
Theorem cyclonedx_and_spdx_agree now now' scan (components : list Comp.t) :
  ∃ comps vulns root pkgs,
    get "components" (cyclonedx_doc now scan components) = Some (JArr comps) ∧
    get "vulnerabilities" (cyclonedx_doc now scan components) = Some (JArr vulns) ∧
    get "packages" (spdx_doc now' scan components) = Some (JArr (root :: pkgs)) ∧
    ((get "metadata" (cyclonedx_doc now scan components) ≫= get "component")
       ≫= str_prop "name") = str_prop "name" root ∧
    omap (str_prop "name") comps = map Comp.component_name components ∧
    omap (str_prop "name") pkgs = map Comp.component_name components ∧
    concat (map security_locators pkgs) = omap (str_prop "id") vulns ∧
    length comps = length components ∧ length pkgs = length components ∧
    ∀ i comp, components !! i = Some comp →
      ∃ cj pj, comps !! i = Some cj ∧ pkgs !! i = Some pj ∧
        str_prop "name" cj = Some (Comp.component_name comp) ∧
        str_prop "name" pj = Some (Comp.component_name comp) ∧
        (∀ v, Comp.version comp = Some v → v ≠ "" →
           str_prop "version" cj = Some v ∧ str_prop "versionInfo" pj = Some v) ∧
        (Comp.version comp = None ∨ Comp.version comp = Some "" →
           str_prop "version" cj = Some "unknown" ∧
           str_prop "versionInfo" pj = Some "NOASSERTION").
Proof.
  eexists _, _, _, _. split; [reflexivity|]. split; [reflexivity|]. split; [reflexivity|].
  split; [done|].
  split; [by apply omap_imap_total|]. split; [by apply omap_imap_total|].
  split.
  { etransitivity; [exact (spdx_locators_from 0 components)|].
    symmetry. exact (cyclonedx_ids_from 0 components). }
  split; [apply length_imap|]. split; [apply length_imap|].
  intros i comp Hi. exists (cyclonedx_component i comp), (spdx_package i comp).
  split; [by rewrite list_lookup_imap, Hi|].
  split; [by rewrite list_lookup_imap, Hi|].
  split; [done|]. split; [done|]. unfold str_prop. simpl. split.
  - intros v -> Hv. by destruct v.
  - by intros [-> | ->].
Qed.

End ExportSbomMore.

(** ** [fetch-cve], further *)

Module FetchCveMore.
Import FetchCve DocSpec.

Lemma serve_falsy now later (cache : gmap string CveEntry) nvd cveId :
  cveId = None ∨ cveId = Some "" →
  serve now later cache nvd cveId = mkOutcome (Error 400 "CVE ID required") cache [].
Proof. by intros [-> | ->]. Qed.

(** The shapes an outcome can take. *)
Lemma serve_shapes now later (cache : gmap string CveEntry) nvd cveId :
  let out := serve now later cache nvd cveId in
  ((cveId = None ∨ cveId = Some "") ∧
   out = mkOutcome (Error 400 "CVE ID required") cache []) ∨
  (∃ id, cveId = Some id ∧ id ≠ "" ∧
     ((∃ e, cache !! id = Some e ∧ out = mkOutcome (Entry e) cache []) ∨
      (∃ e, cache !! id = Some e ∧ out = mkOutcome (Entry e) cache [nvd_url id]) ∨
      (∃ st msg, st ∈ [404; 500; 502]%nat ∧
         out = mkOutcome (Error st msg) cache [nvd_url id]) ∨
      (∃ e, cve_id e = id ∧ fetched_at e = later ∧
         out = mkOutcome (Entry e) (<[id := e]> cache) [nvd_url id]))).
Proof.
  intros out. subst out.
  destruct cveId as [id|]; [|left; by auto].
  destruct (decide (id = "")) as [->|Hne]; [left; by auto|].
  right. exists id. split; [done|]. split; [done|].
  rewrite FetchCveFacts.serve_nonempty by done.
  unfold fresh_entry.
  destruct (cache !! id) as [e|] eqn:Hc.
  - destruct (now - fetched_at e <? oneDayMs)%Z; [left; by eauto|].
    destruct (nvd (nvd_url id)) as [msg|status body].
    { right; right; left. exists 500%nat, msg. split; [repeat constructor|done]. }
    destruct (ok status); simpl; [|right; left; by eauto].
    destruct body as [data|msg].
    + destruct (first (vulnerabilities data) ≫= cve) as [c|].
      * right; right; right. exists (build_entry later id c).
        unfold build_entry. by destruct (extract_cvss c).
      * right; right; left. eexists 404%nat, _. split; [repeat constructor|done].
    + right; right; left. exists 500%nat, msg. split; [repeat constructor|done].
  - destruct (nvd (nvd_url id)) as [msg|status body].
    { right; right; left. exists 500%nat, msg. split; [repeat constructor|done]. }
    destruct (ok status); simpl.
    2:{ right; right; left. eexists 502%nat, _. split; [repeat constructor|done]. }
    destruct body as [data|msg].
    + destruct (first (vulnerabilities data) ≫= cve) as [c|].
      * right; right; right. exists (build_entry later id c).
        unfold build_entry. by destruct (extract_cvss c).
      * right; right; left. eexists 404%nat, _. split; [repeat constructor|done].
    + right; right; left. exists 500%nat, msg. split; [repeat constructor|done].
Qed.

(** X8. Whatever the cache and the upstream do, one request makes no
    fetch or one, to the NVD address of the requested id; the row of any
    other id is left as it is and no row is removed; an error answer
    leaves the whole cache as it was, and its status is 400, 404, 500 or
    502; 400 is the answer exactly when the id is missing or empty, and
    then nothing is fetched. *)
Theorem resolver_touches_one_key now later (cache : gmap string CveEntry) nvd cveId :
  let out := serve now later cache nvd cveId in
  (fetched out = [] ∨
   ∃ id, cveId = Some id ∧ id ≠ "" ∧ fetched out = [nvd_url id]) ∧
  (∀ k, cveId ≠ Some k → cache_after out !! k = cache !! k) ∧
  (∀ k, is_Some (cache !! k) → is_Some (cache_after out !! k)) ∧
  (∀ st msg, answer out = Error st msg →
     cache_after out = cache ∧ st ∈ [400; 404; 500; 502]%nat) ∧
  ((∃ msg, answer out = Error 400 msg) ↔ cveId = None ∨ cveId = Some "") ∧
  (cveId = None ∨ cveId = Some "" → fetched out = []).
Proof.
  intros out.
  destruct (serve_shapes now later cache nvd cveId) as [[Hf Hout] | (id & -> & Hne & Hout)];
    fold out in Hout.
  { rewrite Hout. simpl. split_and!; eauto.
    - intros ? ? [= <- <-]. split; [done|]. repeat constructor.
    - split; [done|]. intros _. by eexists. }
  assert (Hno : ¬ (Some id = None ∨ Some id = Some "")) by (intros [|[=]]; done).
  destruct Hout as [(e & Hc & ->) | [(e & Hc & ->) | [(st & msg & Hst & ->) | (e & _ & _ & ->)]]];
    simpl; split_and!; eauto; try done.
  - split; [by intros [? ?]|done].
  - split; [by intros [? ?]|done].
  - intros ? ? [= <- <-]. split; [done|]. by right.
  - split; [|done]. intros [? [= -> _]].
    repeat (apply elem_of_cons in Hst as [Hst|Hst]; [discriminate|]).
    by apply elem_of_nil in Hst.
  - intros k Hk. apply lookup_insert_ne. congruence.
  - intros k Hk. destruct (decide (id = k)) as [->|Hk'].
    + rewrite lookup_insert_eq. eauto.
    + by rewrite lookup_insert_ne.
  - split; [by intros [? ?]|done].
Qed.

(** X9. An entry that is answered is the row the cache holds for the id
    afterwards, so a second request for the id made before the entry is a
    day old is answered with the same entry from the cache, with no fetch
    and no change, whatever the upstream would say; and a table whose rows
    sit under their own id stays so, the answered entry carrying the
    requested id. *)
Theorem answered_entry_is_cached now later (cache : gmap string CveEntry) nvd id e :
  answer (serve now later cache nvd (Some id)) = Entry e →
  let out := serve now later cache nvd (Some id) in
  cache_after out !! id = Some e ∧
  (∀ now2 later2 nvd2, (now2 - fetched_at e < oneDayMs)%Z →
     serve now2 later2 (cache_after out) nvd2 (Some id) =
       mkOutcome (Entry e) (cache_after out) []) ∧
  (well_keyed cache → well_keyed (cache_after out) ∧ cve_id e = id).
Proof.
  intros Hans out.
  assert (Hne : id ≠ "") by (by intros ->).
  assert (Hrow : cache_after out !! id = Some e).
  { destruct (serve_shapes now later cache nvd (Some id))
      as [[_ Hout] | (id' & [= <-] & _ & Hout)]; fold out in Hout, Hans.
    { by rewrite Hout in Hans. }
    destruct Hout as [(e' & Hc & Hout) | [(e' & Hc & Hout) | [(st & msg & Hst & Hout)
                     | (e' & _ & _ & Hout)]]];
      rewrite Hout in Hans |- *; simpl in *; simplify_eq; try done.
    apply lookup_insert_eq. }
  split; [exact Hrow|]. split.
  - intros now2 later2 nvd2 Hage.
    rewrite FetchCveFacts.serve_nonempty by done.
    by rewrite (FetchCveFacts.fresh_entry_Some _ _ _ _ Hrow Hage).
  - intros Hwk.
    destruct (serve_shapes now later cache nvd (Some id))
      as [[_ Hout] | (id' & [= <-] & _ & Hout)]; fold out in Hout, Hans.
    { by rewrite Hout in Hans. }
    destruct Hout as [(e' & Hc & Hout) | [(e' & Hc & Hout) | [(st & msg & Hst & Hout)
                     | (e' & Hid & _ & Hout)]]];
      rewrite Hout in Hans |- *; simpl in *; simplify_eq; try (split; [done|by apply Hwk]).
    split; [|done].
    intros k e0 Hk. destruct (decide (cve_id e = k)) as [<-|Hk'].
    + rewrite lookup_insert_eq in Hk. by simplify_eq.
    + rewrite lookup_insert_ne in Hk by done. by apply Hwk.
Qed.

(** A stale row and an upstream that knows the CVE: the refreshed entry
    is served again five minutes later by an upstream-less second call. *)
Lemma answered_entry_is_cached_witness :
  let e := build_entry (25 * Samples.hour) "CVE-2021-44228" Samples.twice_cwe79 in
  let out := serve (25 * Samples.hour) (25 * Samples.hour) Samples.one_row
               Samples.upstream_twice_cwe79 (Some "CVE-2021-44228") in
  cache_after out !! "CVE-2021-44228" = Some e ∧
  serve (26 * Samples.hour) (26 * Samples.hour) (cache_after out)
        (Samples.upstream_down 503) (Some "CVE-2021-44228") =
    mkOutcome (Entry e) (cache_after out) [].
Proof.
  intros e out.
  destruct (answered_entry_is_cached (25 * Samples.hour) (25 * Samples.hour)
              Samples.one_row Samples.upstream_twice_cwe79 "CVE-2021-44228" e eq_refl)
    as (Hrow & Hagain & _).
  split; [exact Hrow|].
  apply Hagain. vm_compute. reflexivity.
Defined.

(** X10. With no fresh row at hand, an exception is not recovered from: a
    fetch that is rejected, and an answer with a success status whose body
    cannot be read, are answered 500 with the message of the exception,
    also when a stale row is there to fall back on; the cache is left as
    it was.  The stale row is used for a resolved answer with a status
    outside 200..299 only, whose body is then not read. *)
Theorem resolver_exceptions_answer_500
    now later (cache : gmap string CveEntry) nvd id :
  id ≠ "" →
  (∀ e, cache !! id = Some e → (oneDayMs ≤ now - fetched_at e)%Z) →
  let out := serve now later cache nvd (Some id) in
  (∀ msg, nvd (nvd_url id) = Rejected msg →
     out = mkOutcome (Error 500 msg) cache [nvd_url id]) ∧
  (∀ status msg, nvd (nvd_url id) = Resolved status (inr msg) →
     (200 ≤ status ≤ 299)%nat →
     out = mkOutcome (Error 500 msg) cache [nvd_url id]) ∧
  (∀ status body e, nvd (nvd_url id) = Resolved status body →
     (status < 200 ∨ 299 < status)%nat → cache !! id = Some e →
     out = mkOutcome (Entry e) cache [nvd_url id]).
Proof.
  intros Hne Hstale out. subst out.
  rewrite FetchCveFacts.serve_nonempty by done.
  rewrite (FetchCveFacts.fresh_entry_None _ _ _ Hstale).
  split; [by intros msg ->|]. split.
  - intros status msg -> Hst.
    replace (ok status) with true; [done|].
    symmetry. unfold ok. apply andb_true_iff. split; apply Nat.leb_le; lia.
  - intros status body e -> Hst Hc.
    replace (ok status) with false; [by rewrite Hc|].
    symmetry. unfold ok. apply andb_false_iff.
    destruct Hst; [left|right]; apply Nat.leb_gt; lia.
Qed.

(** The row fetched 25 hours ago is of no use when the upstream answers
    200 with a body that is not JSON. *)
Lemma resolver_exceptions_answer_500_witness :
  serve (25 * Samples.hour) (25 * Samples.hour) Samples.one_row
        (Samples.upstream_down 200) (Some "CVE-2021-44228") =
  mkOutcome (Error 500 "Unexpected token < in JSON") Samples.one_row
            [nvd_url "CVE-2021-44228"].
Proof.
  assert (Hne : "CVE-2021-44228" ≠ "") by discriminate.
  destruct (resolver_exceptions_answer_500 (25 * Samples.hour) (25 * Samples.hour)
              Samples.one_row (Samples.upstream_down 200) "CVE-2021-44228" Hne)
    as (_ & Hbody & _).
  - intros e He. vm_compute in He. injection He as <-. vm_compute. discriminate.
  - apply (Hbody 200%nat); [reflexivity|lia].
Defined.

End FetchCveMore.

(** ** [generate-report], further *)

Module GenerateReportMore.
Import Js Json GenerateReport.

Lemma select_single_None {R} (col : R → string) v (rows : list R) :
  Store.select_single col v rows = None ↔ length (filter (λ r, col r = v) rows) ≠ 1%nat.
Proof.
  unfold Store.select_single.
  destruct (filter (λ r, col r = v) rows) as [|r [|r' l]]; simpl; split; done || lia.
Qed.

(** X11. The report handler answers 400 exactly when the scan id is
    missing or empty, 404 exactly when the id is there and the scans with
    that id are not one row (none, or several), and 200 otherwise,
    whatever the format: a format left out or equal to [json] gives the
    JSON document under [scan-report-<id>.json], and every other format,
    known or not, gives the markdown text under [scan-report-<id>.md]. *)
Theorem report_dispatch now_iso now_locale db req :
  let r := serve now_iso now_locale db req in
  (Http.status r = 400%nat ↔ scanId req = None ∨ scanId req = Some "") ∧
  (∀ id, scanId req = Some id → id ≠ "" →
     (Http.status r = 404%nat ↔
        length (filter (λ s, Scan.id s = id) (Store.scans db)) ≠ 1%nat) ∧
     (∀ scan, filter (λ s, Scan.id s = id) (Store.scans db) = [scan] →
        (format req = None ∨ format req = Some "json" →
           r = Http.mk 200
                 (Http.TextBody "application/json"
                    (JSON_stringify (report now_iso scan (findings db id))))
                 (Some ("scan-report-" +:+ id +:+ ".json"))) ∧
        (∀ f, format req = Some f → f ≠ "json" →
           r = Http.mk 200
                 (Http.TextBody "text/markdown" (textReport now_locale scan (findings db id)))
                 (Some ("scan-report-" +:+ id +:+ ".md"))))) ∧
  (Http.status r = 200%nat ∨ Http.status r = 400%nat ∨ Http.status r = 404%nat).
Proof.
  intros r. subst r. destruct req as [sid fmt]. unfold serve. cbn [scanId format].
  destruct sid as [id|].
  2:{ split; [split; [by left|done]|]. split; [done|]. right; by left. }
  destruct (decide (id = "")) as [->|Hne].
  { split; [split; [by right|done]|]. split; [by intros ? [= <-]|]. right; by left. }
  assert (Hserve :
    match id with
    | "" => Http.error_response 400 "Scan ID required"
    | _ => match Store.select_single Scan.id id (Store.scans db) with
           | Some scan => respond now_iso now_locale id (default "json" fmt) scan (findings db id)
           | None => Http.error_response 404 "Scan not found"
           end
    end =
    match Store.select_single Scan.id id (Store.scans db) with
    | Some scan => respond now_iso now_locale id (default "json" fmt) scan (findings db id)
    | None => Http.error_response 404 "Scan not found"
    end) by (by destruct id).
  rewrite Hserve. clear Hserve.
  pose proof (select_single_None Scan.id id (Store.scans db)) as Hnone.
  destruct (Store.select_single Scan.id id (Store.scans db)) as [scan|] eqn:Hsel.
  - assert (Hst : Http.status (respond now_iso now_locale id (default "json" fmt) scan
                                 (findings db id)) = 200%nat).
    { unfold respond. by destruct (String.eqb _ _). }
    split.
    { rewrite Hst. split; [done|]. intros [[=]|[= ->]]. done. }
    split; [|by left].
    intros id' [= <-] _. split.
    { rewrite Hst. split; [done|]. intros H. by apply Hnone in H. }
    intros scan' Hrows. unfold Store.select_single in Hsel. rewrite Hrows in Hsel.
    injection Hsel as <-. split.
    + by intros [-> | ->].
    + intros f -> Hf. unfold respond. simpl.
      by destruct (String.eqb_spec f "json").
  - split.
    { split; [done|]. intros [[=]|[= ->]]. done. }
    split; [|right; by right].
    intros id' [= <-] _. split.
    + split; [intros _; by apply Hnone|done].
    + intros scan Hrows. unfold Store.select_single in Hsel. by rewrite Hrows in Hsel.
Qed.

(** *** The summary *)

Lemma count_five_severities (rows : list Vuln.t) :
  (length (List.filter (has_severity "critical") rows) +
   length (List.filter (has_severity "high") rows) +
   length (List.filter (has_severity "medium") rows) +
   length (List.filter (has_severity "low") rows) +
   length (List.filter (has_severity "info") rows) = length rows)%nat.
Proof.
  induction rows as [|v rows IH]; [done|].
  cbn [List.filter].
  set (b1 := has_severity "critical" v). set (b2 := has_severity "high" v).
  set (b3 := has_severity "medium" v). set (b4 := has_severity "low" v).
  set (b5 := has_severity "info" v).
  assert (Hb : (b1, b2, b3, b4, b5) =
               match Vuln.severity v with
               | Severity.critical => (true, false, false, false, false)
               | Severity.high => (false, true, false, false, false)
               | Severity.medium => (false, false, true, false, false)
               | Severity.low => (false, false, false, true, false)
               | Severity.info => (false, false, false, false, true)
               end).
  { unfold b1, b2, b3, b4, b5, has_severity. by destruct (Vuln.severity v). }
  clearbody b1 b2 b3 b4 b5.
  destruct (Vuln.severity v); injection Hb as -> -> -> -> ->; cbn [length]; lia.
Qed.

Lemma count_all_three (rows : list Compliance.t) :
  (length (List.filter (has_status "pass") rows) +
   length (List.filter (has_status "fail") rows) +
   length (List.filter (has_status "warning") rows) = length rows)%nat ↔
  Forall (λ r, Compliance.status r ∈ ["pass"; "fail"; "warning"]) rows.
Proof.
  induction rows as [|c rows IH]; [by split|].
  pose proof (GenerateReportFacts.count_three_statuses rows) as Hle.
  rewrite Forall_cons, <- IH. clear IH. cbn [List.filter].
  set (b1 := has_status "pass" c). set (b2 := has_status "fail" c).
  set (b3 := has_status "warning" c).
  destruct (decide (Compliance.status c ∈ ["pass"; "fail"; "warning"])) as [Hin|Hout].
  - assert (Hb : ((if b1 then 1 else 0) + (if b2 then 1 else 0) + (if b3 then 1 else 0) = 1)%nat).
    { unfold b1, b2, b3, has_status.
      rewrite !elem_of_cons, elem_of_nil in Hin.
      destruct Hin as [-> | [-> | [-> | []]]]; reflexivity. }
    clearbody b1 b2 b3. destruct b1, b2, b3; cbn [length] in *; split; try lia;
      (intros ?; split; [done|lia]) || (intros [_ ?]; lia).
  - assert (Hb : (b1, b2, b3) = (false, false, false)).
    { unfold b1, b2, b3, has_status.
      rewrite !elem_of_cons, elem_of_nil in Hout.
      destruct (String.eqb_spec (Compliance.status c) "pass"); [tauto|].
      destruct (String.eqb_spec (Compliance.status c) "fail"); [tauto|].
      destruct (String.eqb_spec (Compliance.status c) "warning"); [tauto|]. done. }
    injection Hb as -> -> ->. cbn [length]. split; [lia|]. by intros [? _].
Qed.

(** X12. In the summary of a report the five severity counts add up to
    [total_vulnerabilities], which is the number of vulnerability rows of
    the scan, and [sbom_components_count] is the number of its component
    rows: rows of other scans are not counted.  The three compliance
    counts add up to at most the number of compliance rows of the scan,
    and to that number exactly when every row is a pass, a fail or a
    warning: a row with another status is in no count, and so not in the
    score. *)
Theorem summary_counts_add_up now_iso scan db id :
  let d := findings db id in
  let field k := get "summary" (report now_iso scan d) ≫= get k in
  let vulns := filter (λ v, Vuln.scan_id v = id) (Store.vulnerabilities db) in
  let results := filter (λ c, Compliance.scan_id c = id) (Store.compliance_results db) in
  let components := filter (λ c, Comp.scan_id c = id) (Store.sbom_components db) in
  ∃ c h m l i p f w : nat,
    field "vulnerability_breakdown" =
      Some (JObj [("critical", JNum (Z.of_nat c)); ("high", JNum (Z.of_nat h));
                  ("medium", JNum (Z.of_nat m)); ("low", JNum (Z.of_nat l));
                  ("info", JNum (Z.of_nat i))]) ∧
    field "compliance_breakdown" =
      Some (JObj [("pass", JNum (Z.of_nat p)); ("fail", JNum (Z.of_nat f));
                  ("warning", JNum (Z.of_nat w))]) ∧
    field "total_vulnerabilities" = Some (JNum (Z.of_nat (c + h + m + l + i))) ∧
    (c + h + m + l + i)%nat = length vulns ∧
    field "sbom_components_count" = Some (JNum (Z.of_nat (length components))) ∧
    (p + f + w ≤ length results)%nat ∧
    ((p + f + w)%nat = length results ↔
       Forall (λ r, Compliance.status r ∈ ["pass"; "fail"; "warning"]) results) ∧
    summary_score d = compliance_score p f w.
Proof.
  intros d field vulns results components.
  set (vs := order_by_severity vulns).
  exists (length (List.filter (has_severity "critical") vs)),
         (length (List.filter (has_severity "high") vs)),
         (length (List.filter (has_severity "medium") vs)),
         (length (List.filter (has_severity "low") vs)),
         (length (List.filter (has_severity "info") vs)),
         (length (List.filter (has_status "pass") results)),
         (length (List.filter (has_status "fail") results)),
         (length (List.filter (has_status "warning") results)).
  split; [done|]. split; [done|].
  rewrite count_five_severities.
  split; [done|].
  split; [apply Permutation_length, GenerateReportFacts.order_by_severity_perm|].
  split; [done|].
  split; [apply GenerateReportFacts.count_three_statuses|].
  split; [apply count_all_three|done].
Qed.

(** *** The two renderings *)

Lemma pretty_Z_of_nat (n : nat) : pretty (Z.of_nat n) = pretty n.
Proof. by destruct n. Qed.

(** X13. The markdown rendering and the JSON document of one report show
    the same figures: for the total, the five severity counts, the three
    compliance counts and the compliance score, the row of the markdown
    table carries the text that [JSON.stringify] writes for the field of
    the summary. *)
Theorem renderings_show_the_same_figures now_iso now_locale scan d :
  (Z.of_nat (length_or_0 (complianceResults d)) < 2 ^ 32)%Z →
  let md := textReport now_locale scan d in
  let field k := get "summary" (report now_iso scan d) ≫= get k in
  let shown (x : option json) (before after : string) :=
    ∃ z, x = Some (JNum z) ∧
         includes md (before +:+ JSON_stringify (JNum z) +:+ after) = true in
  shown (field "total_vulnerabilities") "| **Total** | **" "** |" ∧
  shown (field "vulnerability_breakdown" ≫= get "critical") "| Critical | " " |" ∧
  shown (field "vulnerability_breakdown" ≫= get "high") "| High | " " |" ∧
  shown (field "vulnerability_breakdown" ≫= get "medium") "| Medium | " " |" ∧
  shown (field "vulnerability_breakdown" ≫= get "low") "| Low | " " |" ∧
  shown (field "vulnerability_breakdown" ≫= get "info") "| Info | " " |" ∧
  shown (field "compliance_breakdown" ≫= get "pass") "| Pass | " " |" ∧
  shown (field "compliance_breakdown" ≫= get "fail") "| Fail | " " |" ∧
  shown (field "compliance_breakdown" ≫= get "warning") "| Warning | " " |" ∧
  shown (field "compliance_score") "| **Score** | **" "%** |".
Proof.
  intros Hlen md field shown.
  pose proof (GenerateReportFacts.counts_le_length d) as Hle.
  destruct (GenerateReportFacts.compliance_score_nearest
              (pass_count d) (fail_count d) (warning_count d))
    as (s & Hs & _); [lia|].
  assert (Hscore : field "compliance_score" = Some (JNum s)).
  { unfold field. cbn [report summary get assoc app String.eqb Ascii.eqb Bool.eqb mbind option_bind].
    unfold summary_score. by rewrite Hs. }
  split_and!.
  10: { exists s. split; [exact Hscore|].
        apply JsMore.includes_join. unfold summary_score. rewrite Hs.
        unfold JSON_stringify, stringify_at, score_string. repeat constructor. }
  all: eexists; split; [reflexivity|].
  all: unfold JSON_stringify, stringify_at; rewrite pretty_Z_of_nat.
  all: apply JsMore.includes_join.
  all: unfold count_string; repeat constructor.
Qed.

(** The store of the samples: three passes and a failure show as 75
    in both renderings. *)
Lemma renderings_show_the_same_figures_witness :
  includes (textReport "1/2/2024" Samples.plain_scan (findings Samples.small_store "scan-1"))
           "| **Score** | **75%** |" = true.
Proof.
  destruct (renderings_show_the_same_figures "2024-01-02T00:00:00Z" "1/2/2024"
              Samples.plain_scan (findings Samples.small_store "scan-1"))
    as (_ & _ & _ & _ & _ & _ & _ & _ & _ & z & Hz & Hinc).
  - vm_compute. reflexivity.
  - vm_compute in Hz. injection Hz as <-. exact Hinc.
Defined.

(** *** The score, continued *)

Lemma compliance_score_total (p f w p' f' w' : nat) :
  p = p' → (p + f + w = p' + f' + w')%nat →
  compliance_score p f w = compliance_score p' f' w'.
Proof. intros <- Ht. unfold compliance_score. by rewrite Ht. Qed.

(** X14. The compliance score is 0 when nothing passes and 100 when
    everything counted passes; it is already 100 when fewer than one
    result in 200 is a fail or a warning, and still 0 when fewer than one
    in 200 passes; and among reports with the same number of counted
    results, more passes never give a lower score. *)
Theorem compliance_score_bounds (p f w : nat) :
  (Z.of_nat (p + f + w) < 2 ^ 32)%Z →
  (p = 0%nat → compliance_score p f w = Some 0%Z) ∧
  ((0 < p)%nat → (f + w = 0)%nat → compliance_score p f w = Some 100%Z) ∧
  ((200 * (f + w) < p + f + w)%nat → compliance_score p f w = Some 100%Z) ∧
  ((200 * p < p + f + w)%nat → compliance_score p f w = Some 0%Z) ∧
  (∀ p' f' w', (p + f + w = p' + f' + w')%nat → (p ≤ p')%nat →
     ∃ s s', compliance_score p f w = Some s ∧
             compliance_score p' f' w' = Some s' ∧ (s ≤ s')%Z).
Proof.
  intros Hlen.
  destruct (GenerateReportFacts.compliance_score_nearest p f w Hlen)
    as (s & Hs & Hrange & Hnear & Hzero).
  set (t := Z.of_nat (p + f + w)) in *.
  assert (Ht : (0 ≤ t)%Z) by lia.
  assert (Hlow : ∀ k, (k ≤ s)%Z → (t * k ≤ t * s)%Z)
    by (intros; by apply Z.mul_le_mono_nonneg_l).
  assert (Hhigh : ∀ k, (s ≤ k)%Z → (t * s ≤ t * k)%Z)
    by (intros; by apply Z.mul_le_mono_nonneg_l).
  rewrite Hs. split_and!.
  - intros ->. f_equal.
    destruct (decide (t = 0)%Z) as [H0|H0]; [apply Hzero; lia|].
    destruct (decide (s ≤ 0)%Z); [lia|]. specialize (Hlow 1%Z). lia.
  - intros Hp Hfw. f_equal.
    destruct (decide (s ≤ 99)%Z) as [H|H]; [specialize (Hhigh 99%Z); lia|]. lia.
  - intros Hfew. f_equal.
    destruct (decide (s ≤ 99)%Z) as [H|H]; [specialize (Hhigh 99%Z); lia|]. lia.
  - intros Hfew. f_equal.
    destruct (decide (s ≤ 0)%Z); [lia|]. specialize (Hlow 1%Z). lia.
  - intros p' f' w' Htot Hp.
    destruct (decide (p = p')) as [<-|Hne].
    { exists s, s. split; [done|]. split; [|lia].
      by rewrite <- (compliance_score_total p f w p f' w'). }
    assert (Hlen' : (Z.of_nat (p' + f' + w') < 2 ^ 32)%Z) by lia.
    destruct (GenerateReportFacts.compliance_score_nearest p' f' w' Hlen')
      as (s' & Hs' & _ & Hnear' & _).
    replace (Z.of_nat (p' + f' + w')) with t in Hnear' by lia.
    exists s, s'. split; [done|]. split; [done|].
    destruct (decide (s ≤ s')%Z) as [|Hgt]; [done|].
    specialize (Hlow (s' + 1)%Z). lia.
Qed.

(** 399 passes and one failure round to 100; one pass more or fewer out
    of 400 moves the score in the same direction. *)
Lemma compliance_score_bounds_witness :
  compliance_score 399 1 0 = Some 100%Z ∧
  ∃ s s', compliance_score 100 200 100 = Some s ∧
          compliance_score 101 299 0 = Some s' ∧ (s ≤ s')%Z.
Proof.
  split.
  - apply (compliance_score_bounds 399 1 0); [vm_compute; reflexivity | lia].
  - apply (compliance_score_bounds 100 200 100); [vm_compute; reflexivity | lia | lia].
Defined.

(** *** The markdown text *)
Lemma textReport_lines now_locale scan d k n mid :
  take n (drop k
    [ "";
    "# ECU Vulnerability Scan Report";
    "";
    "Generated: " +:+ now_locale;
    "";
    "## Scan Information";
    "";
    "- **ECU Name:** " +:+ Scan.ecu_name scan;
    "- **ECU Type:** " +:+ Scan.ecu_type scan;
    "- **Version:** " +:+ js_or_opt (Scan.version scan) "N/A";
    "- **Manufacturer:** " +:+ js_or_opt (Scan.manufacturer scan) "N/A";
    "- **Architecture:** " +:+ Scan.architecture scan;
    "- **File:** " +:+ Scan.file_name scan;
    "- **Risk Score:** " +:+ int_or (Scan.risk_score scan) "N/A" +:+ "/100";
    "";
    "## Executive Summary";
    "";
    js_or_opt (Scan.executive_summary scan) "No executive summary available.";
    "";
    "## Vulnerability Summary";
    "";
    "| Severity | Count |";
    "|----------|-------|";
    "| Critical | " +:+ count_string (has_severity "critical") (vulnerabilities d) +:+ " |";
    "| High | " +:+ count_string (has_severity "high") (vulnerabilities d) +:+ " |";
    "| Medium | " +:+ count_string (has_severity "medium") (vulnerabilities d) +:+ " |";
    "| Low | " +:+ count_string (has_severity "low") (vulnerabilities d) +:+ " |";
    "| Info | " +:+ count_string (has_severity "info") (vulnerabilities d) +:+ " |";
    "| **Total** | **" +:+ pretty (length_or_0 (vulnerabilities d)) +:+ "** |";
    "";
    "## Compliance Summary";
    "";
    "| Status | Count |";
    "|--------|-------|";
    "| Pass | " +:+ pretty (pass_count d) +:+ " |";
    "| Fail | " +:+ pretty (fail_count d) +:+ " |";
    "| Warning | " +:+ pretty (warning_count d) +:+ " |";
    "| **Score** | **" +:+ score_string (summary_score d) +:+ "%** |";
    "";
    "## Detailed Vulnerabilities";
    "";
    js_or (join nl (vulnerability_sections (vulnerabilities d))) "No vulnerabilities found.";
    "";
    "## SBOM (Software Bill of Materials)";
    "";
    "| Component | Version | License |";
    "|-----------|---------|---------|";
    js_or (join nl (sbom_lines (sbomComponents d))) "| No components detected | | |";
    "";
    "---";
    "*Report generated by JLR ECU Vulnerability Scanner*";
    ""
  ]) = mid →
  includes (textReport now_locale scan d) (join nl mid) = true.
Proof. apply JsMore.includes_lines. Qed.

Lemma section_start i v :
  String.prefix
    (join nl [""; "### " +:+ pretty (i + 1)%nat +:+ ". " +:+ Vuln.title v; "";
              "- **Severity:** " +:+ toUpperCase (Severity.name (Vuln.severity v))])
    (vulnerability_section i v) = true.
Proof.
  unfold vulnerability_section.
  match goal with
  | |- String.prefix _ (join nl (?a :: ?b :: ?c :: ?e :: ?rest)) = true =>
      change (a :: b :: c :: e :: rest) with ([a; b; c; e] ++ rest)%list
  end.
  rewrite JsMore.join_app by done. apply JsMore.prefix_app_self.
Qed.

Lemma sections_start v vs :
  String.prefix
    (join nl [""; "### " +:+ pretty 1%nat +:+ ". " +:+ Vuln.title v; "";
              "- **Severity:** " +:+ toUpperCase (Severity.name (Vuln.severity v))])
    (join nl (vulnerability_sections (Some (v :: vs)))) = true.
Proof.
  unfold vulnerability_sections. rewrite imap_cons.
  eapply JsMore.prefix_trans; [apply (section_start 0 v)|apply JsMore.prefix_join_first].
Qed.

(** X15. What the markdown report says when there is nothing to say.
    Without vulnerability rows the heading of the details is followed by
    [No vulnerabilities found.], and with rows by the section of the first
    one, numbered 1, with its severity in upper case; without component
    rows the SBOM table has the one row [No components detected], and
    with rows its first row is the first component, an absent or empty
    version or license written [N/A]; a risk score that is absent or 0 is
    written [N/A], and an absent or empty executive summary is replaced by
    a fixed sentence. *)
Theorem markdown_empty_states now_locale scan d :
  let lines l := includes (textReport now_locale scan d) (join nl l) = true in
  (vulnerabilities d = None ∨ vulnerabilities d = Some [] →
     lines ["## Detailed Vulnerabilities"; ""; "No vulnerabilities found."; "";
            "## SBOM (Software Bill of Materials)"]) ∧
  (∀ v vs, vulnerabilities d = Some (v :: vs) →
     lines ["## Detailed Vulnerabilities"; ""; "";
            "### " +:+ pretty 1%nat +:+ ". " +:+ Vuln.title v; "";
            "- **Severity:** " +:+ toUpperCase (Severity.name (Vuln.severity v))]) ∧
  (sbomComponents d = None ∨ sbomComponents d = Some [] →
     lines ["| Component | Version | License |"; "|-----------|---------|---------|";
            "| No components detected | | |"; ""; "---"]) ∧
  (∀ c cs, sbomComponents d = Some (c :: cs) →
     lines ["| Component | Version | License |"; "|-----------|---------|---------|";
            "| " +:+ Comp.component_name c +:+ " | " +:+ js_or_opt (Comp.version c) "N/A" +:+
            " | " +:+ js_or_opt (Comp.license c) "N/A" +:+ " |"]) ∧
  (Scan.risk_score scan = None ∨ Scan.risk_score scan = Some 0%Z →
     lines ["- **Risk Score:** N/A/100"; ""; "## Executive Summary"]) ∧
  (Scan.executive_summary scan = None ∨ Scan.executive_summary scan = Some "" →
     lines ["## Executive Summary"; ""; "No executive summary available."; "";
            "## Vulnerability Summary"]).
Proof.
  intros lines. subst lines. cbv beta. split_and!.
  - intros Hv. apply (textReport_lines now_locale scan d 39 5).
    by destruct Hv as [-> | ->].
  - intros v vs Hv.
    pose proof (sections_start v vs) as Hstart. rewrite <- Hv in Hstart.
    apply (JsMore.includes_start _
             (join nl ["## Detailed Vulnerabilities"; "";
                       js_or (join nl (vulnerability_sections (vulnerabilities d)))
                             "No vulnerabilities found."])).
    + apply (textReport_lines now_locale scan d 39 3). reflexivity.
    + match goal with
      | |- String.prefix (join nl (?a :: ?b :: ?rest)) _ = true =>
          change (a :: b :: rest) with ([a; b] ++ rest)%list
      end.
      rewrite JsMore.join_app by done.
      match goal with
      | |- String.prefix _ (join nl [?a; ?b; ?x]) = true =>
          change (join nl [a; b; x]) with (join nl [a; b] +:+ nl +:+ x)
      end.
      apply JsMore.prefix_app_cancel, JsMore.prefix_app_cancel.
      erewrite JsMore.js_or_prefix; [exact Hstart| |exact Hstart]. discriminate.
  - intros Hc. apply (textReport_lines now_locale scan d 45 5).
    by destruct Hc as [-> | ->].
  - intros c cs Hc.
    apply (JsMore.includes_start _
             (join nl ["| Component | Version | License |";
                       "|-----------|---------|---------|";
                       js_or (join nl (sbom_lines (sbomComponents d)))
                             "| No components detected | | |"])).
    + apply (textReport_lines now_locale scan d 45 3). reflexivity.
    + match goal with
      | |- String.prefix (join nl [?a; ?b; ?y]) (join nl [?a; ?b; ?x]) = true =>
          change (join nl [a; b; y]) with (join nl [a; b] +:+ nl +:+ y);
          change (join nl [a; b; x]) with (join nl [a; b] +:+ nl +:+ x)
      end.
      apply JsMore.prefix_app_cancel, JsMore.prefix_app_cancel.
      rewrite Hc. unfold sbom_lines. cbn [map].
      assert (Hstart : String.prefix (sbom_line c)
                         (join nl (sbom_line c :: map sbom_line cs)) = true)
        by apply JsMore.prefix_join_first.
      erewrite JsMore.js_or_prefix; [exact Hstart| |exact Hstart]. discriminate.
  - intros Hr. apply (textReport_lines now_locale scan d 13 3).
    by destruct Hr as [-> | ->].
  - intros He. apply (textReport_lines now_locale scan d 15 5).
    by destruct He as [-> | ->].
Qed.

End GenerateReportMore.

(** ** [useGenerateReport], further *)

Module HooksMore.
Import Js Json GenerateReport Hooks.

Lemma invoke_body_format scanId fmt :
  format (invoke_body scanId fmt) = Some "json" ∨
  format (invoke_body scanId fmt) = Some "markdown".
Proof. destruct fmt as [[]|]; auto. Qed.

(** X16. The hook in front of the handler.  The request it sends always
    names a format, [json] or [markdown], never [pdf]; for a scan id that
    is empty or not that of exactly one scan the hook throws (the answer
    being 400 or 404), and otherwise it returns the markdown text when
    [markdown] was asked for and the JSON document in the other cases,
    labelled with the format that was asked for: under the label [pdf]
    comes a JSON document. *)
Theorem hook_result_by_format now_iso now_locale db scanId fmt :
  let rows := filter (λ s, Scan.id s = scanId) (Store.scans db) in
  let result := mutationFn (serve now_iso now_locale db) scanId fmt in
  (format (invoke_body scanId fmt) = Some "json" ∨
   format (invoke_body scanId fmt) = Some "markdown") ∧
  (scanId = "" →
     result = Thrown (Http.error_response 400 "Scan ID required")) ∧
  (scanId ≠ "" → length rows ≠ 1%nat →
     result = Thrown (Http.error_response 404 "Scan not found")) ∧
  (∀ scan, scanId ≠ "" → rows = [scan] →
     let document :=
       Http.TextBody "application/json"
         (JSON_stringify (report now_iso scan (findings db scanId))) in
     let text :=
       Http.TextBody "text/markdown" (textReport now_locale scan (findings db scanId)) in
     result = match fmt with
              | Some markdown => Returned text markdown
              | Some pdf => Returned document pdf
              | Some json | None => Returned document json
              end).
Proof.
  intros rows result. subst result.
  split; [apply invoke_body_format|]. split; [|split].
  - intros ->. unfold mutationFn. by destruct fmt as [[]|].
  - intros Hne Hrows. apply GenerateReportMore.select_single_None in Hrows.
    unfold mutationFn, invoke_body, serve. cbn [GenerateReport.scanId].
    destruct scanId as [|a s]; [done|]. by rewrite Hrows.
  - intros scan Hne Hrows document text.
    assert (Hsel : Store.select_single Scan.id scanId (Store.scans db) = Some scan).
    { unfold Store.select_single. fold rows. by rewrite Hrows. }
    unfold mutationFn, invoke_body.
    rewrite (GenerateReportFacts.serve_found _ _ _ _ _ scan Hne Hsel).
    by destruct fmt as [[]|].
Qed.

End HooksMore.

(** ** The upload page *)

Module UploadFacts.
Import Js Upload UploadSpec.

Lemma handleSubmit_signed_in file user insert data :
  handleSubmit (Some file) (Some user) insert data =
  (SetIsSubmitting true ::
   match File.result file with
   | None => [upload_failed (OtherValue None)]
   | Some result =>
       match insert (scanData file user data) with
       | inr error =>
           [Insert (scanData file user data);
            Toast "Error creating scan" (message_of error) true;
            upload_failed error]
       | inl scan =>
           [Insert (scanData file user data);
            InvalidateQueries "scans";
            Toast "Scan created"
              (Some (ScanMetadata.ecuName data +:+ " is being analyzed...")) false;
            StartAnalysis (analysisRequest file data (base64_of result) scan);
            Navigate ("/scans/" +:+ Scan.id scan)]
       end
   end ++ [SetIsSubmitting false])%list.
Proof.
  unfold handleSubmit, createScan_mutateAsync, analysisRequest.
  fold (scanData file user data).
  destruct (File.result file) as [result|]; [|done].
  destruct (insert (scanData file user data)) as [scan|error]; [|done].
  by rewrite orb_false_r.
Qed.

(** X17. Whatever is submitted, [isSubmitting] is false afterwards if it
    was before (the button is not left disabled), and it is set only when
    a file is selected and a user is signed in; the user is told
    something; and an error toast is shown exactly when no analysis is
    started, the page moving to the scan exactly when one is. *)
Theorem submission_ends_enabled_and_tells selectedFile user insert data :
  let trace := handleSubmit selectedFile user insert data in
  isSubmitting_after false trace = false ∧
  (SetIsSubmitting true ∈ trace ↔ is_Some selectedFile ∧ is_Some user) ∧
  (∃ title description destructive, Toast title description destructive ∈ trace) ∧
  (existsb is_error_toast trace = negb (existsb is_start trace)) ∧
  (existsb is_navigate trace = existsb is_start trace) ∧
  (length (List.filter is_start trace) ≤ 1)%nat ∧
  (length (List.filter is_insert trace) ≤ 1)%nat.
Proof.
  intros trace. subst trace.
  destruct selectedFile as [file|].
  2:{ split; [done|]. split.
      { split; [|by intros [[? [=]] _]].
        intros H. apply list_elem_of_singleton in H. discriminate. }
      split; [eexists _, _, _; by left|]. simpl. repeat split; lia. }
  destruct user as [user|].
  2:{ split; [done|]. split.
      { split; [|by intros [_ [? [=]]]].
        intros H. apply list_elem_of_singleton in H. discriminate. }
      split; [eexists _, _, _; by left|]. simpl. repeat split; lia. }
  rewrite handleSubmit_signed_in.
  destruct (File.result file) as [result|].
  - destruct (insert (scanData file user data)) as [scan|error].
    + split; [done|]. split; [split; [by eauto|intros _; by left]|].
      split; [eexists _, _, _; right; right; right; by left|]. simpl. repeat split; lia.
    + split; [done|]. split; [split; [by eauto|intros _; by left]|].
      split; [eexists _, _, _; right; right; by left|]. simpl. repeat split; lia.
  - split; [done|]. split; [split; [by eauto|intros _; by left]|].
    split; [eexists _, _, _; right; by left|]. simpl. repeat split; lia.
Qed.

(** X18. An analysis is started only for a scan that was created: when a
    submission starts one, a file was selected and read, a user was signed
    in and the insert answered a row; the request carries the id of that
    row, the second comma-separated piece of what was read and the name of
    the file, and the submission is, in this order: the insert, the
    invalidation of the scan list, the toast, the start of the analysis and
    the move to the page of the scan.  When the file cannot be read
    nothing is inserted; when the insert fails the user is told twice, by
    the hook and by the page. *)
Theorem analysis_only_for_a_created_scan selectedFile user insert data :
  let trace := handleSubmit selectedFile user insert data in
  (∀ request, StartAnalysis request ∈ trace →
     ∃ file u result scan,
       selectedFile = Some file ∧ user = Some u ∧ File.result file = Some result ∧
       insert (scanData file u data) = inl scan ∧
       request = analysisRequest file data (base64_of result) scan ∧
       Analysis.scanId request = Scan.id scan ∧
       trace = [SetIsSubmitting true;
                Insert (scanData file u data);
                InvalidateQueries "scans";
                Toast "Scan created"
                  (Some (ScanMetadata.ecuName data +:+ " is being analyzed...")) false;
                StartAnalysis request;
                Navigate ("/scans/" +:+ Analysis.scanId request);
                SetIsSubmitting false]) ∧
  (∀ file u, selectedFile = Some file → user = Some u → File.result file = None →
     trace = [SetIsSubmitting true;
              Toast "Upload failed" (Some "An error occurred") true;
              SetIsSubmitting false]) ∧
  (∀ file u result error,
     selectedFile = Some file → user = Some u → File.result file = Some result →
     insert (scanData file u data) = inr error →
     trace = [SetIsSubmitting true;
              Insert (scanData file u data);
              Toast "Error creating scan" (message_of error) true;
              upload_failed error;
              SetIsSubmitting false]).
Proof.
  intros trace. subst trace. split; [|split].
  - intros request Hin.
    destruct selectedFile as [file|];
      [|apply list_elem_of_singleton in Hin; discriminate].
    destruct user as [u|];
      [|apply list_elem_of_singleton in Hin; discriminate].
    rewrite handleSubmit_signed_in in Hin |- *.
    destruct (File.result file) as [result|] eqn:Hres.
    + destruct (insert (scanData file u data)) as [scan|error] eqn:Hins.
      * exists file, u, result, scan.
        assert (request = analysisRequest file data (base64_of result) scan) as ->.
        { simpl in Hin. rewrite !elem_of_cons, elem_of_nil in Hin.
          destruct Hin as [[=]|[[=]|[[=]|[[=]|[[=]|[[=]|[[=]|[]]]]]]]]. done. }
        by repeat split.
      * simpl in Hin. rewrite !elem_of_cons, elem_of_nil in Hin.
        unfold upload_failed in Hin.
        destruct Hin as [[=]|[[=]|[[=]|[[=]|[[=]|[]]]]]].
    + simpl in Hin. rewrite !elem_of_cons, elem_of_nil in Hin.
      unfold upload_failed in Hin.
      destruct Hin as [[=]|[[=]|[[=]|[]]]].
  - intros file u -> -> Hres. rewrite handleSubmit_signed_in. by rewrite Hres.
  - intros file u result error -> -> Hres Hins.
    rewrite handleSubmit_signed_in. by rewrite Hres, Hins.
Qed.

Lemma or_null_spec x :
  or_null x ≠ Some "" ∧ (or_null x = None ↔ x = "") ∧ (∀ v, or_null x = Some v → v = x).
Proof. destruct x; simpl; split_and!; try done. by intros v [= <-]. Qed.

(** X19. The row a submission inserts is a queued scan at progress 0 of
    the signed-in user, with the name and size of the selected file; an
    empty version, manufacturer or platform of the form is stored as
    null, never as an empty text, and one that is not empty as it is;
    while the request that starts the analysis carries the version and
    the manufacturer as they were typed, empty or not. *)
Theorem inserted_row_is_normalised selectedFile user insert data :
  let trace := handleSubmit selectedFile user insert data in
  (∀ row, Insert row ∈ trace →
     ∃ file u, selectedFile = Some file ∧ user = Some u ∧ is_Some (File.result file) ∧
       ScanInsert.user_id row = User.id u ∧
       ScanInsert.file_name row = File.name file ∧
       ScanInsert.file_size row = File.size file ∧
       ScanInsert.status row = "queued" ∧ ScanInsert.progress row = 0%Z ∧
       ScanInsert.version row = or_null (ScanMetadata.version data) ∧
       ScanInsert.manufacturer row = or_null (ScanMetadata.manufacturer data) ∧
       ScanInsert.platform row = or_null (ScanMetadata.platform data)) ∧
  (∀ x, or_null x ≠ Some "" ∧ (or_null x = None ↔ x = "") ∧
        (∀ v, or_null x = Some v → v = x)) ∧
  (∀ request, StartAnalysis request ∈ trace →
     Analysis.version (Analysis.meta request) = ScanMetadata.version data ∧
     Analysis.manufacturer (Analysis.meta request) = ScanMetadata.manufacturer data).
Proof.
  intros trace. subst trace. split; [|split; [apply or_null_spec|]].
  - intros row Hin.
    destruct selectedFile as [file|];
      [|apply list_elem_of_singleton in Hin; discriminate].
    destruct user as [u|];
      [|apply list_elem_of_singleton in Hin; discriminate].
    exists file, u. rewrite handleSubmit_signed_in in Hin.
    destruct (File.result file) as [result|] eqn:Hres.
    + assert (row = scanData file u data) as ->; [|by repeat split; eauto].
      destruct (insert (scanData file u data)) as [scan|error];
        simpl in Hin; rewrite !elem_of_cons, elem_of_nil in Hin; unfold upload_failed in Hin.
      * by destruct Hin as [[=]|[[=]|[[=]|[[=]|[[=]|[[=]|[[=]|[]]]]]]]].
      * by destruct Hin as [[=]|[[=]|[[=]|[[=]|[[=]|[]]]]]].
    + simpl in Hin. rewrite !elem_of_cons, elem_of_nil in Hin. unfold upload_failed in Hin.
      destruct Hin as [[=]|[[=]|[[=]|[]]]].
  - intros request Hin.
    destruct selectedFile as [file|];
      [|apply list_elem_of_singleton in Hin; discriminate].
    destruct user as [u|];
      [|apply list_elem_of_singleton in Hin; discriminate].
    rewrite handleSubmit_signed_in in Hin.
    destruct (File.result file) as [result|] eqn:Hres.
    + destruct (insert (scanData file u data)) as [scan|error];
        simpl in Hin; rewrite !elem_of_cons, elem_of_nil in Hin; unfold upload_failed in Hin.
      * by destruct Hin as [[=]|[[=]|[[=]|[[=]|[[= ->]|[[=]|[[=]|[]]]]]]]].
      * by destruct Hin as [[=]|[[=]|[[=]|[[=]|[[=]|[]]]]]].
    + simpl in Hin. rewrite !elem_of_cons, elem_of_nil in Hin. unfold upload_failed in Hin.
      destruct Hin as [[=]|[[=]|[[=]|[]]]].
Qed.

(** *** The content of the file *)

Lemma split_comma_nonempty s : split_comma s ≠ [].
Proof.
  destruct s as [|c s]; [done|]. simpl.
  destruct (Ascii.eqb c ","); [done|]. by destruct (split_comma s).
Qed.

Lemma split_comma_no_comma s : count_char "," s = 0%nat → split_comma s = [s].
Proof.
  induction s as [|c s IH]; [done|]. simpl.
  destruct (Ascii.eqb c ","); [done|]. simpl. intros H. by rewrite IH.
Qed.

Lemma split_comma_app a b :
  count_char "," a = 0%nat →
  split_comma (a +:+ "," +:+ b) = a :: split_comma b.
Proof.
  induction a as [|c a IH]; [done|]. rewrite JsFacts.app_cons. simpl.
  destruct (Ascii.eqb c ","); [done|]. simpl. intros H. by rewrite IH.
Qed.

Lemma split_comma_length s : length (split_comma s) = S (count_char "," s).
Proof.
  induction s as [|c s IH]; [done|]. simpl.
  destruct (Ascii.eqb c ","); simpl; [by rewrite IH|].
  pose proof (split_comma_nonempty s).
  destruct (split_comma s); [done|]. simpl in *. lia.
Qed.

(** X20. Of a data URL [<header>,<payload>] whose header and payload
    hold no comma the content handed to the analysis is the payload; in
    general it is what stands between the first comma and the second (or
    the end), and it is undefined exactly when the text read holds no
    comma. *)
Theorem base64_of_data_url (header payload rest : string) :
  count_char "," header = 0%nat → count_char "," payload = 0%nat →
  base64_of (header +:+ "," +:+ payload) = Some payload ∧
  base64_of (header +:+ "," +:+ payload +:+ "," +:+ rest) = Some payload ∧
  (∀ s, base64_of s = None ↔ count_char "," s = 0%nat).
Proof.
  intros Hh Hp. unfold base64_of. split; [|split].
  - by rewrite split_comma_app, split_comma_no_comma.
  - by rewrite split_comma_app, split_comma_app.
  - intros s. rewrite lookup_ge_None, split_comma_length. lia.
Qed.

Lemma base64_of_data_url_witness :
  base64_of "data:application/octet-stream;base64,f0VMRgIBAQ==" = Some "f0VMRgIBAQ==".
Proof.
  apply (base64_of_data_url "data:application/octet-stream;base64" "f0VMRgIBAQ==" "");
    reflexivity.
Defined.

End UploadFacts.
